(** * ai-video-clipper: the clip production pipeline

    A shallow embedding of the backend of the repository
    (services/aiProvider.ts, services/videoProcessor.ts, db.ts and
    routes/video.ts) together with the properties that the specification
    states about it, and further properties that the code shows, also of
    three pieces of the React client that depend on the answers of the
    backend.  The program comes first, file by file; then the predicates
    in which the properties are stated, the concrete inputs of the
    examples, and the proofs.

    Modelling conventions.
    - A JavaScript [number] that holds seconds or a score is a rational
      ([Q]); [Math.min]/[Math.max] are [Qmin]/[Qmax], and
      [NaN]/[Infinity] are not represented.  Arithmetic is exact, where
      the program rounds each sum, difference, product and quotient to
      the nearest double.  The theorems are therefore stated on what
      rounding to the nearest keeps: comparisons, which operand a minimum
      or maximum returns, and the expressions by which the program itself
      computes a value.  Their statements do not lean on identities of
      exact arithmetic such as [(a + d) - a = d], or on the exact number
      of steps of five seconds in a window; the lemmas on the way to them
      use exact arithmetic freely.
    - An optional property ([x?: number]) is an [option]; the idiom
      [x || d] is [js_or].
    - [Math.random()] is an oracle [rand : nat -> Q]: [rand k] is the value
      returned by the k-th call made during one invocation.
    - A promise that can reject, and a function that can throw, return an
      [Exc]; code that runs against the process state is a function on an
      explicit [World], and what the process does not decide (the
      transcoder, the disk, ffprobe, downloads) is read from [Externals].
      A transcoder run that fails may leave its output file behind, and
      a write of the database file that fails may leave the file torn;
      whether they do is read from [Externals] as well.
    - An [async] handler whose [await] matters is split at the [await]
      into the part that runs when the request arrives and the part that
      runs when the awaited work is done; each part is atomic, as on the
      event loop.
    - A row object of the store is known by its position in [dbData.clips],
      so that an assignment to a field of a row returned by a query changes
      the store.
    - Strings are [string]s of bytes; [toLowerCase] and the white space of
      [\s] are those of ASCII. *)

From Stdlib Require Import QArith Qminmax Qround Qabs Lqa Lia.
From Stdlib Require Import List Sorted String Ascii Bool Arith ZArith DecimalString.
From Stdlib Require DecimalNat.
From Equations Require Import Equations.
From stdpp Require Import base option list strings gmap.
Import ListNotations.

Local Open Scope string_scope.
Local Open Scope Q_scope.

(** ** JavaScript helpers *)

Definition Qltb (x y : Q) : bool := negb (Qle_bool y x).

(** [x || d] on an optional number: [undefined] and [0] are falsy. *)
Definition js_or (x : option Q) (d : Q) : Q :=
  match x with
  | Some v => if Qeq_bool v 0 then d else v
  | None => d
  end.

(** Template literal [${n}] for a non-negative integer. *)
Definition string_of_nat (n : nat) : string :=
  NilEmpty.string_of_uint (Nat.to_uint n).

(** [xs.join(sep)] *)
Definition join (sep : string) (xs : list string) : string :=
  String.concat sep xs.

Definition inspect {A} (a : A) : {b | a = b} := exist _ a eq_refl.

(** ** types.ts *)

Inductive ClipLengthPreset := short | medium | long | custom.
Inductive AspectRatio := ar_9_16 | ar_16_9 | ar_1_1 | ar_auto.
Inductive Template := clean | creator | meme.

Module Options.
Record t := mk {
    timeStartSec : Q;
    timeEndSec : Q;
    clipLengthPreset : ClipLengthPreset;
    clipLengthMinSec : option Q;
    clipLengthMaxSec : option Q;
    aspectRatio : AspectRatio;
    template : Template;
    memeHook : bool;
    gameMode : bool;
    hookTitle : bool;
    callToAction : bool;
    backgroundMusic : bool;
    captionsEnabled : bool;
    wordsPerCaption : Q;
    highlightKeywords : bool;
    autoThumbnail : bool
  }.
End Options.
Abbreviation ClipOptions := Options.t.

Module Scores.
Record t := mk { engagement : Q; clarity : Q; hook : Q }.
End Scores.

Module Caption.
Record t := mk {
    startSec : Q;
    endSec : Q;
    text : string;
    keywords : option (list string)
  }.
End Caption.

Module Clip.
Record t := mk {
    id : string;
    title : string;
    startSec : Q;
    endSec : Q;
    durationSec : Q;
    aspectRatio : AspectRatio;
    template : Template;
    hasCaptions : bool;
    hasMemeHook : bool;
    scores : Scores.t;
    captions : list Caption.t;
    thumbnailCandidates : list Q
  }.
End Clip.
Abbreviation GeneratedClip := Clip.t.

(** ** services/aiProvider.ts *)

Module Segment.
Record t := mk { startSec : Q; endSec : Q; text : string }.
End Segment.

Record Transcript := { segments : list Segment.t }.

(** *** extractKeywords *)

Definition is_space (c : ascii) : bool :=
  let n := nat_of_ascii c in
  ((9 <=? n) && (n <=? 13))%nat || (n =? 32)%nat.

Definition lower_ascii (c : ascii) : ascii :=
  let n := nat_of_ascii c in
  if ((65 <=? n) && (n <=? 90))%nat then ascii_of_nat (n + 32) else c.

Fixpoint toLowerCase (s : string) : string :=
  match s with
  | EmptyString => EmptyString
  | String c s' => String (lower_ascii c) (toLowerCase s')
  end.

(** [s.split(/\s+/)]: the pieces between runs of white space.  [acc] is the
    piece being read; [in_sep] tells that the previous character
    was white space. *)
Fixpoint split_ws (s : string) (acc : string) (in_sep : bool) : list string :=
  match s with
  | EmptyString => [acc]
  | String c s' =>
      if is_space c
      then if in_sep then split_ws s' acc true
           else acc :: split_ws s' EmptyString true
      else split_ws s' (acc ++ String c EmptyString) false
  end.

Definition stopWords : list string :=
  ["the"; "a"; "an"; "and"; "or"; "but"; "in"; "on"; "at"; "to"; "for"; "of";
   "with"; "by"; "is"; "are"; "was"; "were"; "be"; "been"; "have"; "has";
   "had"; "do"; "does"; "did"; "will"; "would"; "could"; "should"; "may";
   "might"; "can"; "this"; "that"; "these"; "those"; "i"; "you"; "he"; "she";
   "it"; "we"; "they"].

Definition extractKeywords (text : string) : list string :=
  let words := split_ws (toLowerCase text) EmptyString false in
  firstn 3
    (List.filter
       (fun word => (3 <? String.length word)%nat
                    && negb (existsb (String.eqb word) stopWords))
       words).

(** *** generateCaptions *)

Definition generateCaptions (segs : list Segment.t) (options : ClipOptions)
  : list Caption.t :=
  List.map
    (fun seg =>
       {| Caption.startSec := Segment.startSec seg;
          Caption.endSec := Segment.endSec seg;
          Caption.text := Segment.text seg;
          Caption.keywords :=
            if Options.highlightKeywords options
            then Some (extractKeywords (Segment.text seg))
            else None |})
    segs.

(** *** suggestClips *)

(** The [switch] on the length preset. *)
Definition minDuration (options : ClipOptions) : Q :=
  match Options.clipLengthPreset options with
  | short => 10
  | medium => 25
  | long => 45
  | custom => js_or (Options.clipLengthMinSec options) 10
  end.

Definition maxDuration (options : ClipOptions) : Q :=
  match Options.clipLengthPreset options with
  | short => 25
  | medium => 45
  | long => 90
  | custom => js_or (Options.clipLengthMaxSec options) 60
  end.

(** The variables of the [while] loop: the two [let]s, the array that is
    pushed to, and the number of [Math.random()] calls made so far. *)
Record LoopState := {
  currentStart : Q;
  clipIndex : nat;
  clips : list GeneratedClip;
  draws : nat
}.

Definition clip_duration (options : ClipOptions) (st : LoopState) : Q :=
  Qmin (maxDuration options)
       (Qmax (minDuration options) (Options.timeEndSec options - currentStart st)).

(** The predicate of [transcript.segments.filter]. *)
Definition overlaps (currentStart endSec : Q) (seg : Segment.t) : bool :=
  Qltb (Segment.startSec seg) endSec && Qltb currentStart (Segment.endSec seg).

Definition loop_guard (options : ClipOptions) (st : LoopState) : bool :=
  Qltb (currentStart st) (Options.timeEndSec options) && (clipIndex st <? 10)%nat.

Definition make_clip (rand : nat -> Q) (options : ClipOptions)
    (st : LoopState) (relevantSegments : list Segment.t) : GeneratedClip :=
  let duration := clip_duration options st in
  let endSec := currentStart st + duration in
  let clipText :=
    substring 0 100 (join " " (List.map Segment.text relevantSegments)) in
  {| Clip.id := "clip-" ++ string_of_nat (clipIndex st + 1);
     Clip.title :=
       "Clip " ++ string_of_nat (clipIndex st + 1) ++ ": "
         ++ substring 0 50 clipText ++ "...";
     Clip.startSec := currentStart st;
     Clip.endSec := endSec;
     Clip.durationSec := duration;
     Clip.aspectRatio := Options.aspectRatio options;
     Clip.template := Options.template options;
     Clip.hasCaptions := Options.captionsEnabled options;
     Clip.hasMemeHook := Options.memeHook options;
     Clip.scores :=
       {| Scores.engagement := rand (draws st) * (5 # 10) + (5 # 10);
          Scores.clarity := rand (S (draws st)) * (3 # 10) + (7 # 10);
          Scores.hook := rand (S (S (draws st))) * (4 # 10) + (6 # 10) |};
     Clip.captions :=
       if Options.captionsEnabled options
       then generateCaptions relevantSegments options
       else [];
     Clip.thumbnailCandidates :=
       [ currentStart st + duration * (1 # 10);
         currentStart st + duration * (5 # 10);
         currentStart st + duration * (9 # 10) ] |}.

(** One run of the loop body. *)
Definition loop_body (rand : nat -> Q) (transcript : Transcript)
    (options : ClipOptions) (st : LoopState) : LoopState :=
  let duration := clip_duration options st in
  let endSec := currentStart st + duration in
  let relevantSegments :=
    List.filter (overlaps (currentStart st) endSec) (segments transcript) in
  let emitted := (0 <? List.length relevantSegments)%nat in
  {| currentStart := endSec + 5;
     clipIndex := S (clipIndex st);
     clips :=
       if emitted
       then clips st ++ [make_clip rand options st relevantSegments]
       else clips st;
     draws := if emitted then (draws st + 3)%nat else draws st |}.

(** [while (currentStart < options.timeEndSec && clipIndex < 10) { ... }].
    The recursion is justified by the distance of [clipIndex] to the cap. *)
Equations? suggest_loop (rand : nat -> Q) (transcript : Transcript)
    (options : ClipOptions) (st : LoopState) : LoopState
    by wf (10 - clipIndex st)%nat lt :=
  suggest_loop rand transcript options st
    with inspect (loop_guard options st) => {
    | exist _ true Hguard =>
        suggest_loop rand transcript options
          (loop_body rand transcript options st);
    | exist _ false _ => st }.
Proof.
  unfold loop_guard in Hguard.
  apply andb_prop in Hguard as [_ Hlt].
  apply Nat.ltb_lt in Hlt. simpl. lia.
Qed.

Definition loop_init (options : ClipOptions) : LoopState :=
  {| currentStart := Options.timeStartSec options;
     clipIndex := 0;
     clips := [];
     draws := 0 |}.

Definition suggestClips (rand : nat -> Q) (transcript : Transcript)
    (options : ClipOptions) : list GeneratedClip :=
  clips (suggest_loop rand transcript options (loop_init options)).

(** An executable reading of the same loop, one iteration per unit of
    fuel; [None] means that the fuel ran out before the guard failed. *)
Fixpoint run_loop (fuel : nat) (rand : nat -> Q) (transcript : Transcript)
    (options : ClipOptions) (st : LoopState) : option LoopState :=
  if loop_guard options st then
    match fuel with
    | O => None
    | S fuel' =>
        run_loop fuel' rand transcript options
          (loop_body rand transcript options st)
    end
  else Some st.

(** *** transcribe (the mock of [GeminiProvider]) *)

(** [x.toFixed(1)] for a number below 1e21: the nearest tenth, ties to the
    larger magnitude, with the sign put in front. *)
Definition toFixed1 (x : Q) : string :=
  let tenths := Qfloor (Qabs x * 10 + (1 # 2)) in
  (if Qltb x 0 then "-" else "")
    ++ string_of_nat (Z.to_nat (tenths / 10)) ++ "."
    ++ string_of_nat (Z.to_nat (tenths mod 10)).

Definition segmentDuration : Q := 5.

(** The body of the [for] loop, for index [i]. *)
Definition mockSegment (startSec endSec : Q) (i : nat) : Segment.t :=
  let start := startSec + inject_Z (Z.of_nat i) * segmentDuration in
  let end_ := Qmin (start + segmentDuration) endSec in
  {| Segment.startSec := start;
     Segment.endSec := end_;
     Segment.text :=
       "This is a mock transcript segment from " ++ toFixed1 start
         ++ "s to " ++ toFixed1 end_
         ++ "s. In a real implementation, this would be the actual transcribed audio content." |}.

(** [for (let i = 0; i < duration / segmentDuration; i++)]: the indices are
    the naturals below the quotient, that is, below its ceiling.  The
    quotient is the exact one; where the program's rounded quotient comes
    out just above a whole number, its loop runs once more and adds a
    segment of no length at the window end. *)
Definition transcribe_mock (startSec endSec : Q) : Transcript :=
  let duration := endSec - startSec in
  {| segments :=
       List.map (mockSegment startSec endSec)
         (seq 0 (Z.to_nat (Qceiling (duration / segmentDuration)))) |}.

(** *** The provider interface *)

(** The result of a call that can throw, or of a promise that can reject
    with [new Error(message)]. *)
Inductive Exc (A : Type) : Type :=
| OK (a : A)
| Throw (message : string).
Arguments OK {A} a.
Arguments Throw {A} message.

(** [interface AIProvider].  The file path given to [transcribe] and the
    random draws available to [suggestClips] are explicit. *)
Module AIProvider.
Record t := mk {
  transcribe : string -> Q -> Q -> Exc Transcript;
  suggestClips : (nat -> Q) -> Transcript -> ClipOptions
                 -> Exc (list GeneratedClip)
}.
End AIProvider.

(** [process.env], as far as the backend reads it. *)
Record ProcessEnv := {
  AI_PROVIDER : option string;
  GEMINI_API_KEY : option string
}.

(** [s || d] on an optional string: [undefined] and the empty string are
    falsy. *)
Definition js_or_string (s : option string) (d : string) : string :=
  match s with
  | Some EmptyString | None => d
  | Some v => v
  end.

(** [new GeminiProvider()]: the constructor checks the key; the two
    methods are the mocks above. *)
Definition GeminiProvider (env : ProcessEnv) : Exc AIProvider.t :=
  match js_or_string (GEMINI_API_KEY env) "" with
  | EmptyString => Throw "GEMINI_API_KEY environment variable is required"
  | _ =>
      OK {| AIProvider.transcribe :=
              fun _ startSec endSec => OK (transcribe_mock startSec endSec);
            AIProvider.suggestClips :=
              fun rand transcript options =>
                OK (suggestClips rand transcript options) |}
  end.

Definition createAIProvider (env : ProcessEnv) : Exc AIProvider.t :=
  let provider :=
    js_or_string (option_map toLowerCase (AI_PROVIDER env)) "gemini" in
  if String.eqb provider "gemini" then GeminiProvider env
  else Throw ("Unsupported AI provider: " ++ provider).

(** ** services/videoProcessor.ts *)

(** A fluent-ffmpeg command: the input and the options in the order in
    which the builder methods were called. *)
Inductive FfmpegOption :=
| SeekInput (sec : Q)
| Duration (sec : Q)
| NoVideo
| AudioCodec (codec : string)
| AudioBitrate (rate : string)
| VideoFilters (filters : string)
| Size (size : string)
| VideoBitrate (rate : string)
| VideoCodec (codec : string)
| Output (path : string).

Record FfmpegCommand := {
  cmd_input : string;
  cmd_options : list FfmpegOption
}.

Definition ffmpeg (inputPath : string) : FfmpegCommand :=
  {| cmd_input := inputPath; cmd_options := [] |}.

(** One builder call. *)
Definition with_option (command : FfmpegCommand) (o : FfmpegOption)
  : FfmpegCommand :=
  {| cmd_input := cmd_input command;
     cmd_options := (cmd_options command ++ [o])%list |}.

Inductive Quality := q_low | q_medium | q_high.

Definition applyAspectRatio (command : FfmpegCommand) (aspectRatio : AspectRatio)
  : FfmpegCommand :=
  match aspectRatio with
  | ar_9_16 =>
      with_option
        (with_option command
           (VideoFilters
              "scale=1080:1920:force_original_aspect_ratio=increase,crop=1080:1920"))
        (Size "1080x1920")
  | ar_16_9 =>
      with_option
        (with_option command
           (VideoFilters
              "scale=1920:1080:force_original_aspect_ratio=increase,crop=1920:1080"))
        (Size "1920x1080")
  | ar_1_1 =>
      with_option
        (with_option command
           (VideoFilters
              "scale=1080:1080:force_original_aspect_ratio=increase,crop=1080:1080"))
        (Size "1080x1080")
  | ar_auto => command
  end.

Definition quality_options (videoRate audioRate : string) : list FfmpegOption :=
  [VideoBitrate videoRate; VideoCodec "libx264";
   AudioBitrate audioRate; AudioCodec "aac"].

Definition applyQualitySettings (command : FfmpegCommand) (quality : Quality)
  : FfmpegCommand :=
  fold_left with_option
    (match quality with
     | q_low => quality_options "1M" "64k"
     | q_medium => quality_options "2.5M" "128k"
     | q_high => quality_options "5M" "192k"
     end)
    command.

Module ClipParams.
Record t := mk {
  inputPath : string;
  outputPath : string;
  startSec : Q;
  endSec : Q;
  aspectRatio : option AspectRatio;
  quality : option Quality
}.
End ClipParams.

(** The command that [createClip] builds and runs. *)
Definition createClip_command (params : ClipParams.t) : FfmpegCommand :=
  let aspectRatio := default ar_auto (ClipParams.aspectRatio params) in
  let quality := default q_medium (ClipParams.quality params) in
  let command :=
    with_option
      (with_option (ffmpeg (ClipParams.inputPath params))
         (SeekInput (ClipParams.startSec params)))
      (Duration (ClipParams.endSec params - ClipParams.startSec params)) in
  let command :=
    match aspectRatio with
    | ar_auto => command
    | _ => applyAspectRatio command aspectRatio
    end in
  let command := applyQualitySettings command quality in
  with_option command (Output (ClipParams.outputPath params)).

(** The command that [extractAudio] builds and runs. *)
Definition extractAudio_command (inputPath outputPath : string) : FfmpegCommand :=
  with_option
    (with_option
       (with_option
          (with_option (ffmpeg inputPath) NoVideo)
          (AudioCodec "mp3"))
       (AudioBitrate "128k"))
    (Output outputPath).

(** ** db.ts *)

Module JobRow.
Record t := mk {
  id : string;
  createdAt : string;
  sourceType : string;
  sourcePath : option string;
  sourceUrl : option string;
  options : ClipOptions;
  videoDurationSec : Q;
  providerName : string;
  status : string
}.
End JobRow.

(** A clip row.  The three fields that hold [JSON.stringify] output in the
    source hold the value that was serialized. *)
Module ClipRow.
Record t := mk {
  id : string;
  jobId : string;
  title : string;
  startSec : Q;
  endSec : Q;
  durationSec : Q;
  aspectRatio : AspectRatio;
  template : Template;
  hasCaptions : nat;
  hasMemeHook : nat;
  scores : Scores.t;
  captionData : option (list Caption.t);
  thumbnailTimestamps : option (list Q);
  clipFilePath : option string
}.
End ClipRow.

Module JsonDbShape.
Record t := mk {
  jobs : list JobRow.t;
  clips : list ClipRow.t
}.
End JsonDbShape.
Abbreviation JsonDbShape := JsonDbShape.t.

(** ** The state of the server process and of its surroundings *)

Inductive LogLine :=
| Log (text : string)
| Error (text : string).

Record World := {
  cwd : string;
  env : ProcessEnv;
  (** the module variable [dbData] of db.ts *)
  dbData : JsonDbShape;
  (** what the last completed write left in the file at [DB_PATH] *)
  dbFile : JsonDbShape;
  (** a later write failed after it had opened the file: [writeFileSync]
      truncates on opening, so the file is empty or holds the beginning
      of a text, and [dbFile] is no longer what it holds *)
  dbFileTorn : bool;
  (** the media files that exist *)
  files : gset string;
  (** the ffmpeg commands started so far, oldest first *)
  ffmpegRuns : list FfmpegCommand;
  console : list LogLine
}.

(** [interface VideoMetadata] of videoProcessor.ts *)
Module VideoMetadata.
Record t := mk {
  durationSec : Q;
  width : Q;
  height : Q;
  fps : Q;
  bitrate : Q;
  format : string
}.
End VideoMetadata.

(** What the process does not decide: whether a transcoder run ends with
    an error (and its message) and whether a run that fails had created
    its output file by then, whether writing the database file fails and
    whether a write that fails had opened the file by then (a full disk)
    or not (a missing permission), what [Math.random()], [uuidv4()] and
    [new Date().toISOString()] return, what ffprobe reports for a file,
    what a directory holds, how a download ends, and the host name in a
    URL. *)
Record Externals := {
  transcoder : FfmpegCommand -> option string;
  transcoder_leaves_output : FfmpegCommand -> bool;
  writeFileSync_error : JsonDbShape -> option string;
  writeFileSync_opens : JsonDbShape -> bool;
  random : nat -> Q;
  uuidv4 : string;
  now : string;
  ffprobe : string -> Exc VideoMetadata.t;
  readdirSync : string -> Exc (list string);
  downloadFromUrl : string -> string -> Exc string;
  url_hostname : string -> Exc string
}.

Definition set_dbData (w : World) (d : JsonDbShape) : World :=
  {| cwd := cwd w; env := env w; dbData := d; dbFile := dbFile w;
     dbFileTorn := dbFileTorn w;
     files := files w; ffmpegRuns := ffmpegRuns w; console := console w |}.

(** A write that completes: the file holds [d]. *)
Definition set_dbFile (w : World) (d : JsonDbShape) : World :=
  {| cwd := cwd w; env := env w; dbData := dbData w; dbFile := d;
     dbFileTorn := false;
     files := files w; ffmpegRuns := ffmpegRuns w; console := console w |}.

(** A write that fails after the file was opened. *)
Definition tear_dbFile (w : World) : World :=
  {| cwd := cwd w; env := env w; dbData := dbData w; dbFile := dbFile w;
     dbFileTorn := true;
     files := files w; ffmpegRuns := ffmpegRuns w; console := console w |}.

Definition set_files (w : World) (fs : gset string) : World :=
  {| cwd := cwd w; env := env w; dbData := dbData w; dbFile := dbFile w;
     dbFileTorn := dbFileTorn w;
     files := fs; ffmpegRuns := ffmpegRuns w; console := console w |}.

Definition started (w : World) (command : FfmpegCommand) : World :=
  {| cwd := cwd w; env := env w; dbData := dbData w; dbFile := dbFile w;
     dbFileTorn := dbFileTorn w;
     files := files w; ffmpegRuns := (ffmpegRuns w ++ [command])%list;
     console := console w |}.

Definition printed (w : World) (line : LogLine) : World :=
  {| cwd := cwd w; env := env w; dbData := dbData w; dbFile := dbFile w;
     dbFileTorn := dbFileTorn w;
     files := files w; ffmpegRuns := ffmpegRuns w;
     console := (console w ++ [line])%list |}.

(** A computation that reads and changes the world and may throw. *)
Definition M (A : Type) : Type := World -> Exc A * World.

Definition ret {A} (a : A) : M A := fun w => (OK a, w).

Definition bind {A B} (m : M A) (k : A -> M B) : M B :=
  fun w =>
    match m w with
    | (OK a, w') => k a w'
    | (Throw message, w') => (Throw message, w')
    end.

Notation "'let*' x := m 'in' k" := (bind m (fun x => k))
  (at level 10, x binder, m at level 200, k at level 200).

(** An effect that cannot throw. *)
Definition effect (f : World -> World) : M unit := fun w => (OK tt, f w).

Definition lift {A} (r : Exc A) : M A := fun w => (r, w).

(** [console.log] and [console.error] *)
Definition console_log (text : string) : M unit :=
  effect (fun w => printed w (Log text)).
Definition console_error (text : string) : M unit :=
  effect (fun w => printed w (Error text)).

(** [try { body } catch (error) { handler(error) }] *)
Definition try_catch {A} (body : M A) (handler : string -> M A) : M A :=
  fun w =>
    match body w with
    | (OK a, w') => (OK a, w')
    | (Throw message, w') => handler message w'
    end.

(** [for (const x of xs) { body(x) }] *)
Fixpoint for_of {A} (xs : list A) (body : A -> M unit) : M unit :=
  match xs with
  | [] => ret tt
  | x :: xs' => let* _ := body x in for_of xs' body
  end.

(** [path.join(a, b)] on two plain components. *)
Definition path_join (a b : string) : string := a ++ "/" ++ b.

Definition reads {A} (f : World -> A) : M A := fun w => (OK (f w), w).

(** *** The operations of videoProcessor.ts

    The console keeps the fixed part of each message; the progress lines
    and the creation of directories are left out. *)
Module VideoProcessor.

(** [command.run()]: the transcoder process is started. *)
Definition run_start (label : string) (command : FfmpegCommand) (w : World)
  : World :=
  printed (started w command) (Log label).

(** The ['end'] or ['error'] event of a started command that writes
    [outputPath]: the promise resolves or rejects. A run that ends with
    an error may have created its output file already (empty or cut
    short); nothing removes it. *)
Definition run_finish (ext : Externals) (command : FfmpegCommand)
    (outputPath done failed rejected : string) : M unit :=
  fun w =>
    match transcoder ext command with
    | None =>
        (OK tt,
         printed (set_files w (files w ∪ {[outputPath]}))
                 (Log (done ++ outputPath)))
    | Some message =>
        (Throw (rejected ++ message),
         printed (if transcoder_leaves_output ext command
                  then set_files w (files w ∪ {[outputPath]})
                  else w)
                 (Error (failed ++ message)))
    end.

Definition createClip_start (params : ClipParams.t) (w : World) : World :=
  run_start "FFmpeg command:" (createClip_command params) w.

Definition createClip_finish (ext : Externals) (params : ClipParams.t) : M unit :=
  run_finish ext (createClip_command params) (ClipParams.outputPath params)
    "Clip created successfully: " "Error creating clip: "
    "Failed to create clip: ".

Definition createClip (ext : Externals) (params : ClipParams.t) : M unit :=
  let* _ := effect (createClip_start params) in
  createClip_finish ext params.

Definition extractAudio (ext : Externals) (inputPath outputPath : string)
  : M unit :=
  let command := extractAudio_command inputPath outputPath in
  let* _ := effect (run_start "Extracting audio:" command) in
  run_finish ext command outputPath
    "Audio extracted: " "Error extracting audio: "
    "Failed to extract audio: ".

(** [cleanup]: its own [try]/[catch] keeps it from throwing. *)
Definition cleanup (filePath : string) : M unit :=
  effect (fun w =>
    if decide (filePath ∈ files w)
    then printed (set_files w (files w ∖ {[filePath]}))
                 (Log ("Cleaned up: " ++ filePath))
    else w).

End VideoProcessor.

(** *** The operations of db.ts *)
Module Db.

(** [save]: [fs.writeFileSync] opens the file for writing, which empties
    it, and then writes the text; an error of either step is thrown. *)
Definition save (ext : Externals) : M unit :=
  fun w =>
    match writeFileSync_error ext (dbData w) with
    | None => (OK tt, set_dbFile w (dbData w))
    | Some message =>
        (Throw message,
         if writeFileSync_opens ext (dbData w) then tear_dbFile w else w)
    end.

(** [createJob]; [now] is [new Date().toISOString()], and the argument
    carries no meaningful [createdAt]. *)
Definition createJob (ext : Externals) (now : string) (job : JobRow.t) : M unit :=
  let newJob :=
    {| JobRow.id := JobRow.id job;
       JobRow.createdAt := now;
       JobRow.sourceType := JobRow.sourceType job;
       JobRow.sourcePath := JobRow.sourcePath job;
       JobRow.sourceUrl := JobRow.sourceUrl job;
       JobRow.options := JobRow.options job;
       JobRow.videoDurationSec := JobRow.videoDurationSec job;
       JobRow.providerName := JobRow.providerName job;
       JobRow.status := JobRow.status job |} in
  let* _ := effect (fun w =>
    set_dbData w
      {| JsonDbShape.jobs := (JsonDbShape.jobs (dbData w) ++ [newJob])%list;
         JsonDbShape.clips := JsonDbShape.clips (dbData w) |}) in
  save ext.

Definition getJob (id : string) (w : World) : option JobRow.t :=
  List.find (fun j => String.eqb (JobRow.id j) id) (JsonDbShape.jobs (dbData w)).

(** [createClip]; the two flags of the argument are booleans. *)
Definition createClip (ext : Externals) (clip : ClipRow.t)
    (hasCaptions hasMemeHook : bool) : M unit :=
  let newClip :=
    {| ClipRow.id := ClipRow.id clip;
       ClipRow.jobId := ClipRow.jobId clip;
       ClipRow.title := ClipRow.title clip;
       ClipRow.startSec := ClipRow.startSec clip;
       ClipRow.endSec := ClipRow.endSec clip;
       ClipRow.durationSec := ClipRow.durationSec clip;
       ClipRow.aspectRatio := ClipRow.aspectRatio clip;
       ClipRow.template := ClipRow.template clip;
       ClipRow.hasCaptions := if hasCaptions then 1%nat else 0%nat;
       ClipRow.hasMemeHook := if hasMemeHook then 1%nat else 0%nat;
       ClipRow.scores := ClipRow.scores clip;
       ClipRow.captionData := ClipRow.captionData clip;
       ClipRow.thumbnailTimestamps := ClipRow.thumbnailTimestamps clip;
       ClipRow.clipFilePath := ClipRow.clipFilePath clip |} in
  let* _ := effect (fun w =>
    set_dbData w
      {| JsonDbShape.jobs := JsonDbShape.jobs (dbData w);
         JsonDbShape.clips := (JsonDbShape.clips (dbData w) ++ [newClip])%list |}) in
  save ext.

(** A reference to a row object of [dbData.clips] is its position in the
    array; a referenced row is the pair of the position and the row. *)
Definition RowRef : Type := nat * ClipRow.t.

Definition row_refs (rows : list ClipRow.t) : list RowRef :=
  combine (seq 0 (List.length rows)) rows.

(** [Array.prototype.sort] with the comparator
    [(a, b) => a.startSec - b.startSec]: a stable sort, here by insertion. *)
Fixpoint insert_by_startSec (x : RowRef) (l : list RowRef) : list RowRef :=
  match l with
  | [] => [x]
  | y :: l' =>
      if Qle_bool (ClipRow.startSec (snd x)) (ClipRow.startSec (snd y))
      then x :: l
      else y :: insert_by_startSec x l'
  end.

Definition sort_by_startSec (l : list RowRef) : list RowRef :=
  fold_right insert_by_startSec [] l.

(** [getClipsByJobId]: a new array that holds the row objects themselves. *)
Definition getClipsByJobId (jobId : string) (w : World) : list RowRef :=
  sort_by_startSec
    (List.filter (fun c => String.eqb (ClipRow.jobId (snd c)) jobId)
       (row_refs (JsonDbShape.clips (dbData w)))).

End Db.

(** ** routes/video.ts *)

Inductive ErrorCode :=
| INVALID_SOURCE | DOWNLOAD_FAILED | VIDEO_TOO_LONG | AI_ERROR | INTERNAL
| NOT_FOUND.

Record ApiError := {
  errorCode : ErrorCode;
  message : string
}.

Record VideoMeta := {
  meta_durationSec : Q;
  meta_title : string;
  meta_sourcePlatform : string
}.

Module AnalyzeResponse.
Record t := mk {
  jobId : string;
  videoMeta : VideoMeta;
  clips : list GeneratedClip
}.
End AnalyzeResponse.

(** What a handler answers: [res.sendFile(path)],
    [res.status(status).json(error)], or the [res.json(body)] of the
    analyze route. *)
Inductive Response :=
| SendFile (path : string)
| Json (status : nat) (error : ApiError)
| JsonAnalyze (body : AnalyzeResponse.t).

(** [a || b] on two optional strings. *)
Definition js_or_path (a b : option string) : option string :=
  match a with
  | Some EmptyString | None =>
      match b with
      | Some EmptyString | None => None
      | Some v => Some v
      end
  | Some v => Some v
  end.

(** [!clip.clipFilePath || !fs.existsSync(clip.clipFilePath)] *)
Definition needs_render (clip : ClipRow.t) (w : World) : bool :=
  match ClipRow.clipFilePath clip with
  | Some EmptyString | None => true
  | Some p => negb (bool_decide (p ∈ files w))
  end.

(** [processVideoAsync]: the body of the [try] block, for a given way of
    making the provider. *)
Definition processVideo_body (factory : ProcessEnv -> Exc AIProvider.t)
    (ext : Externals) (jobId videoPath : string) (options : ClipOptions)
  : M unit :=
  let* _ := console_log ("Starting video processing for job " ++ jobId) in
  let* audioDir := reads (fun w => path_join (path_join (cwd w) "temp") "audio") in
  let audioPath := path_join audioDir (jobId ++ ".mp3") in
  let* _ := VideoProcessor.extractAudio ext videoPath audioPath in
  let* aiProvider := (fun w => (factory (env w), w)) in
  let* _ := console_log "Transcribing audio..." in
  let* transcript :=
    lift (AIProvider.transcribe aiProvider audioPath
            (Options.timeStartSec options) (Options.timeEndSec options)) in
  let* _ := console_log "Analyzing transcript and suggesting clips..." in
  let* clips :=
    lift (AIProvider.suggestClips aiProvider (random ext) transcript options) in
  let* _ :=
    for_of clips (fun clip =>
      Db.createClip ext
        {| ClipRow.id := Clip.id clip;
           ClipRow.jobId := jobId;
           ClipRow.title := Clip.title clip;
           ClipRow.startSec := Clip.startSec clip;
           ClipRow.endSec := Clip.endSec clip;
           ClipRow.durationSec := Clip.durationSec clip;
           ClipRow.aspectRatio := Clip.aspectRatio clip;
           ClipRow.template := Clip.template clip;
           ClipRow.hasCaptions := 0;
           ClipRow.hasMemeHook := 0;
           ClipRow.scores := Clip.scores clip;
           ClipRow.captionData := Some (Clip.captions clip);
           ClipRow.thumbnailTimestamps := Some (Clip.thumbnailCandidates clip);
           ClipRow.clipFilePath := None |}
        (Clip.hasCaptions clip) (Clip.hasMemeHook clip)) in
  let* _ := VideoProcessor.cleanup audioPath in
  console_log ("Video processing completed for job " ++ jobId).

(** The [catch] block: a line on the console, and a comment that the job
    status is still to be updated. *)
Definition processVideo_catch (jobId : string) (message : string) : M unit :=
  console_error ("Video processing failed for job " ++ jobId ++ ": " ++ message).

Definition processVideoAsync_with (factory : ProcessEnv -> Exc AIProvider.t)
    (ext : Externals) (jobId videoPath : string) (options : ClipOptions)
    (metadata : VideoMetadata.t) (sourcePlatform : string)
  : M unit :=
  try_catch (processVideo_body factory ext jobId videoPath options)
            (processVideo_catch jobId).

(** [processVideoAsync], with the provider that [createAIProvider] makes. *)
Definition processVideoAsync :
  Externals -> string -> string -> ClipOptions ->
  VideoMetadata.t -> string -> M unit :=
  processVideoAsync_with createAIProvider.

(** *** POST /analyze *)

Inductive SourceType := source_file | source_url.

Module Source.
Record t := mk {
  type : SourceType;
  fileId : option string;
  url : option string
}.
End Source.

(** [!!s] on an optional string. *)
Definition truthy (s : option string) : bool :=
  match s with
  | Some EmptyString | None => false
  | Some _ => true
  end.

(** What [AnalyzeRequestSchema.parse] checks on a body of the right
    shape: the refinement of the source and the bounds of the numbers. *)
Definition AnalyzeRequestSchema_accepts (source : Source.t)
    (options : ClipOptions) : bool :=
  match Source.type source with
  | source_file => truthy (Source.fileId source)
  | source_url => truthy (Source.url source)
  end
  && Qle_bool 0 (Options.timeStartSec options)
  && Qle_bool 0 (Options.timeEndSec options)
  && Qle_bool 3 (Options.wordsPerCaption options)
  && Qle_bool (Options.wordsPerCaption options) 10.

(** [path.basename(p)] for a path that does not end in a separator. *)
Fixpoint basename_from (p acc : string) : string :=
  match p with
  | EmptyString => acc
  | String c p' =>
      if Ascii.eqb c "/"%char then basename_from p' EmptyString
      else basename_from p' (acc ++ String c EmptyString)
  end.

Definition path_basename (p : string) : string := basename_from p EmptyString.

Definition sourceType_name (t : SourceType) : string :=
  match t with
  | source_file => "file"
  | source_url => "url"
  end.

(** The first part of the handler: the path of the video and the source
    platform, or the answer that ends the request. *)
Definition analyze_resolve (ext : Externals) (source : Source.t)
    (jobId : string) : M (Response + string * string) :=
  match Source.type source with
  | source_file =>
      let* uploadDir :=
        reads (fun w => path_join (path_join (cwd w) "temp") "uploads") in
      let* names := lift (readdirSync ext uploadDir) in
      match
        List.filter (String.prefix (default "" (Source.fileId source))) names
      with
      | [] =>
          ret (inl (Json 404 {| errorCode := INVALID_SOURCE;
                                message := "Uploaded file not found" |}))
      | name :: _ => ret (inr (path_join uploadDir name, "file"))
      end
  | source_url =>
      let* downloadDir :=
        reads (fun w => path_join (path_join (cwd w) "temp") "downloads") in
      let downloadPath := path_join downloadDir (jobId ++ ".mp4") in
      let url := default "" (Source.url source) in
      try_catch
        (let* videoPath := lift (downloadFromUrl ext url downloadPath) in
         let* sourcePlatform := lift (url_hostname ext url) in
         ret (inr (videoPath, sourcePlatform)))
        (fun message =>
           let* _ := console_error ("DOWNLOAD_FAILED: " ++ message) in
           ret (inl (Json 400 {| errorCode := DOWNLOAD_FAILED;
                                 message :=
                                   "Failed to download video from URL" |})))
  end.

(** The [try] block of the handler, once the body is parsed. *)
Definition analyze_body (ext : Externals) (source : Source.t)
    (options : ClipOptions) : M Response :=
  let jobId := uuidv4 ext in
  let* resolved := analyze_resolve ext source jobId in
  match resolved with
  | inl response => ret response
  | inr (videoPath, sourcePlatform) =>
      let* metadata := lift (ffprobe ext videoPath) in
      if Qle_bool (Options.timeEndSec options) (Options.timeStartSec options)
         || Qltb (VideoMetadata.durationSec metadata)
                 (Options.timeEndSec options)
      then ret (Json 400 {| errorCode := INVALID_SOURCE;
                            message := "Invalid time range specified" |})
      else
        let* providerName :=
          reads (fun w => js_or_string (AI_PROVIDER (env w)) "gemini") in
        let* _ :=
          Db.createJob ext (now ext)
            {| JobRow.id := jobId;
               JobRow.createdAt := "";
               JobRow.sourceType := sourceType_name (Source.type source);
               JobRow.sourcePath :=
                 match Source.type source with
                 | source_file => Some videoPath
                 | source_url => None
                 end;
               JobRow.sourceUrl :=
                 match Source.type source with
                 | source_file => None
                 | source_url => Source.url source
                 end;
               JobRow.options := options;
               JobRow.videoDurationSec := VideoMetadata.durationSec metadata;
               JobRow.providerName := providerName;
               JobRow.status := "processing" |} in
        let* _ :=
          processVideoAsync ext jobId videoPath options metadata
            sourcePlatform in
        ret (JsonAnalyze
               {| AnalyzeResponse.jobId := jobId;
                  AnalyzeResponse.videoMeta :=
                    {| meta_durationSec := VideoMetadata.durationSec metadata;
                       meta_title := path_basename videoPath;
                       meta_sourcePlatform := sourcePlatform |};
                  AnalyzeResponse.clips := [] |})
  end.

(** The handler.  The processing that it starts is not awaited in the
    source; here it has run to its end when the handler returns, which
    shows the state that a later request finds. *)
Definition analyze (ext : Externals) (source : Source.t)
    (options : ClipOptions) : World -> Response * World :=
  fun w =>
    if AnalyzeRequestSchema_accepts source options then
      match analyze_body ext source options w with
      | (OK response, w') => (response, w')
      | (Throw message, w') =>
          (Json 500 {| errorCode := INTERNAL;
                       message := "Failed to analyze video" |},
           printed w' (Error ("Analyze error: " ++ message)))
      end
    else
      (Json 400 {| errorCode := INVALID_SOURCE;
                   message := "Invalid request data" |},
       printed w (Error "Analyze error: ZodError")).

(** *** GET /clip/:jobId/:clipId/download

    The handler runs up to its [await], which starts the transcoder, and
    resumes when the transcoder is done. *)

(** The test of [clips.find((c: any) => c.id === clipId)]. *)
Definition has_id (clipId : string) (c : Db.RowRef) : bool :=
  String.eqb (ClipRow.id (snd c)) clipId.

Record PendingDownload := {
  pending_clip : nat;
  pending_params : ClipParams.t
}.

Definition download_begin (jobId clipId : string) (w : World)
  : (Response + PendingDownload) * World :=
  let clips := Db.getClipsByJobId jobId w in
  match List.find (has_id clipId) clips with
  | None =>
      (inl (Json 404 {| errorCode := NOT_FOUND; message := "Clip not found" |}),
       w)
  | Some (ref, clip) =>
      if needs_render clip w then
        match Db.getJob jobId w with
        | None =>
            (inl (Json 404 {| errorCode := NOT_FOUND;
                              message := "Job not found" |}), w)
        | Some job =>
            match js_or_path (JobRow.sourcePath job) (JobRow.sourceUrl job) with
            | None =>
                (inl (Json 404 {| errorCode := INVALID_SOURCE;
                                  message := "Source video not found" |}), w)
            | Some videoPath =>
                let outputDir := path_join (path_join (cwd w) "temp") "clips" in
                let outputPath := path_join outputDir (clipId ++ ".mp4") in
                let params :=
                  {| ClipParams.inputPath := videoPath;
                     ClipParams.outputPath := outputPath;
                     ClipParams.startSec := ClipRow.startSec clip;
                     ClipParams.endSec := ClipRow.endSec clip;
                     ClipParams.aspectRatio := Some (ClipRow.aspectRatio clip);
                     ClipParams.quality := None |} in
                (inr {| pending_clip := ref; pending_params := params |},
                 VideoProcessor.createClip_start params w)
            end
        end
      else
        (inl (SendFile (default "" (ClipRow.clipFilePath clip))), w)
  end.

(** The row [clip] with its [clipFilePath] set. *)
Definition with_clipFilePath (outputPath : string) (clip : ClipRow.t)
  : ClipRow.t :=
  {| ClipRow.id := ClipRow.id clip;
     ClipRow.jobId := ClipRow.jobId clip;
     ClipRow.title := ClipRow.title clip;
     ClipRow.startSec := ClipRow.startSec clip;
     ClipRow.endSec := ClipRow.endSec clip;
     ClipRow.durationSec := ClipRow.durationSec clip;
     ClipRow.aspectRatio := ClipRow.aspectRatio clip;
     ClipRow.template := ClipRow.template clip;
     ClipRow.hasCaptions := ClipRow.hasCaptions clip;
     ClipRow.hasMemeHook := ClipRow.hasMemeHook clip;
     ClipRow.scores := ClipRow.scores clip;
     ClipRow.captionData := ClipRow.captionData clip;
     ClipRow.thumbnailTimestamps := ClipRow.thumbnailTimestamps clip;
     ClipRow.clipFilePath := Some outputPath |}.

(** [clip.clipFilePath = outputPath], on the row object itself: the row
    at position [ref] of [dbData.clips] changes. *)
Definition set_clipFilePath (ref : nat) (outputPath : string) (w : World)
  : World :=
  set_dbData w
    {| JsonDbShape.jobs := JsonDbShape.jobs (dbData w);
       JsonDbShape.clips :=
         alter (with_clipFilePath outputPath) ref
           (JsonDbShape.clips (dbData w)) |}.

Definition download_resume (ext : Externals) (p : PendingDownload) (w : World)
  : Response * World :=
  match VideoProcessor.createClip_finish ext (pending_params p) w with
  | (OK _, w') =>
      let outputPath := ClipParams.outputPath (pending_params p) in
      (SendFile outputPath, set_clipFilePath (pending_clip p) outputPath w')
  | (Throw message, w') =>
      (Json 500 {| errorCode := INTERNAL;
                   message := "Failed to download clip" |},
       printed w' (Error ("Download clip error: " ++ message)))
  end.

(** *** The server at work on download requests

    Requests are numbered.  A request arrives, and later the transcoder
    that it started, if any, is done; between two such events nothing
    else runs. *)

Inductive Event :=
| Arrive (request : nat) (jobId clipId : string)
| EncodeDone (request : nat).

Record Server := {
  world : World;
  (** the requests that wait for their transcoder *)
  pending : gmap nat PendingDownload;
  (** the answers given so far, oldest first *)
  responses : list (nat * Response)
}.

Definition step (ext : Externals) (s : Server) (ev : Event) : Server :=
  match ev with
  | Arrive request jobId clipId =>
      match download_begin jobId clipId (world s) with
      | (inl response, w) =>
          {| world := w; pending := pending s;
             responses := (responses s ++ [(request, response)])%list |}
      | (inr p, w) =>
          {| world := w; pending := <[request := p]> (pending s);
             responses := responses s |}
      end
  | EncodeDone request =>
      match pending s !! request with
      | None => s
      | Some p =>
          let '(response, w) := download_resume ext p (world s) in
          {| world := w; pending := delete request (pending s);
             responses := (responses s ++ [(request, response)])%list |}
      end
  end.

Definition run (ext : Externals) (events : list Event) (s : Server) : Server :=
  fold_left (step ext) events s.

Definition serving (w : World) : Server :=
  {| world := w; pending := ∅; responses := [] |}.

(** *** GET /job/:jobId *)

(** [Boolean(n)] on a number. *)
Definition js_Boolean (n : nat) : bool := negb (n =? 0)%nat.

(** One element of [clips] in the answer: the fields of the row, spread,
    with the two flags and the scores replaced, and the two parsed lists
    added. *)
Module JobClip.
Record t := mk {
  id : string;
  jobId : string;
  title : string;
  startSec : Q;
  endSec : Q;
  durationSec : Q;
  aspectRatio : AspectRatio;
  template : Template;
  hasCaptions : bool;
  hasMemeHook : bool;
  scores : Scores.t;
  captionData : option (list Caption.t);
  thumbnailTimestamps : option (list Q);
  clipFilePath : option string;
  captions : list Caption.t;
  thumbnailCandidates : list Q
}.
End JobClip.

(** The arrow function of [clips.map]. *)
Definition job_clip (clip : ClipRow.t) : JobClip.t :=
  {| JobClip.id := ClipRow.id clip;
     JobClip.jobId := ClipRow.jobId clip;
     JobClip.title := ClipRow.title clip;
     JobClip.startSec := ClipRow.startSec clip;
     JobClip.endSec := ClipRow.endSec clip;
     JobClip.durationSec := ClipRow.durationSec clip;
     JobClip.aspectRatio := ClipRow.aspectRatio clip;
     JobClip.template := ClipRow.template clip;
     JobClip.hasCaptions := js_Boolean (ClipRow.hasCaptions clip);
     JobClip.hasMemeHook := js_Boolean (ClipRow.hasMemeHook clip);
     JobClip.scores := ClipRow.scores clip;
     JobClip.captionData := ClipRow.captionData clip;
     JobClip.thumbnailTimestamps := ClipRow.thumbnailTimestamps clip;
     JobClip.clipFilePath := ClipRow.clipFilePath clip;
     JobClip.captions := default [] (ClipRow.captionData clip);
     JobClip.thumbnailCandidates := default [] (ClipRow.thumbnailTimestamps clip) |}.

Module JobStatus.
Record t := mk {
  jobId : string;
  status : string;
  videoMeta : VideoMeta;
  clips : list JobClip.t
}.
End JobStatus.

Inductive JobAnswer :=
| JobJson (body : JobStatus.t)
| JobError (status : nat) (error : ApiError).

(** The handler.  [new URL(job.sourceUrl).hostname] can throw, which the
    [catch] block turns into the answer 500. *)
Definition job_handler (ext : Externals) (jobId : string) (w : World)
  : JobAnswer * World :=
  match Db.getJob jobId w with
  | None =>
      (JobError 404 {| errorCode := NOT_FOUND; message := "Job not found" |}, w)
  | Some job =>
      let clips := Db.getClipsByJobId jobId w in
      let title :=
        if truthy (JobRow.sourcePath job)
        then path_basename (default "" (JobRow.sourcePath job))
        else "Uploaded Video" in
      let sourcePlatform :=
        if truthy (JobRow.sourceUrl job)
        then url_hostname ext (default "" (JobRow.sourceUrl job))
        else OK "file" in
      match sourcePlatform with
      | OK platform =>
          (JobJson
             {| JobStatus.jobId := jobId;
                JobStatus.status := JobRow.status job;
                JobStatus.videoMeta :=
                  {| meta_durationSec := JobRow.videoDurationSec job;
                     meta_title := title;
                     meta_sourcePlatform := platform |};
                JobStatus.clips := List.map (fun c => job_clip (snd c)) clips |},
           w)
      | Throw message =>
          (JobError 500 {| errorCode := INTERNAL;
                           message := "Failed to get job status" |},
           printed w (Error ("Get job error: " ++ message)))
      end
  end.

(** *** POST /upload *)

(** [req.file], as multer leaves it once the file is stored. *)
Module UploadedFile.
Record t := mk {
  filename : string;
  path : string;
  size : Q;
  originalname : string
}.
End UploadedFile.

Module UploadResponse.
Record t := mk {
  fileId : string;
  size : Q;
  originalName : string;
  durationSec : Q;
  width : Q;
  height : Q
}.
End UploadResponse.

Inductive UploadAnswer :=
| UploadJson (body : UploadResponse.t)
| UploadError (status : nat) (error : ApiError).

(** The handler.  [path_extname] and [path_basename_ext] stand for
    [path.extname] and the two-argument [path.basename] of Node. *)
Definition upload (ext : Externals)
    (path_extname : string -> string)
    (path_basename_ext : string -> string -> string)
    (file : option UploadedFile.t) (w : World) : UploadAnswer * World :=
  match file with
  | None =>
      (UploadError 400 {| errorCode := INVALID_SOURCE;
                          message := "No file uploaded" |}, w)
  | Some file =>
      let fileId :=
        path_basename_ext (UploadedFile.filename file)
          (path_extname (UploadedFile.filename file)) in
      match ffprobe ext (UploadedFile.path file) with
      | OK metadata =>
          if Qltb 3600 (VideoMetadata.durationSec metadata)
          then
            (UploadError 400 {| errorCode := VIDEO_TOO_LONG;
                                message :=
                                  "Video duration exceeds 1 hour limit" |},
             snd (VideoProcessor.cleanup (UploadedFile.path file) w))
          else
            (UploadJson
               {| UploadResponse.fileId := fileId;
                  UploadResponse.size := UploadedFile.size file;
                  UploadResponse.originalName := UploadedFile.originalname file;
                  UploadResponse.durationSec :=
                    VideoMetadata.durationSec metadata;
                  UploadResponse.width := VideoMetadata.width metadata;
                  UploadResponse.height := VideoMetadata.height metadata |},
             w)
      | Throw message =>
          (UploadError 500 {| errorCode := INTERNAL;
                              message := "Failed to upload video" |},
           printed w (Error ("Upload error: " ++ message)))
      end
  end.

(** ** The frontend

    Three pieces of the React client that depend on what the backend
    answers: the polling effect of App.tsx, the window check of the
    options panel, and the score badge of the results grid. *)

(** *** App.tsx: polling for the clips *)

(** The state that the polling effect reads and sets. *)
Module App.
Record t := mk {
  jobId : string;
  isAnalyzing : bool;
  clips : list JobClip.t;
  success : string
}.
End App.

(** [pollStatus], given what [GET /job/:jobId] answered.  An answer with
    an error status makes [getJobStatus] throw; the [catch] block logs and
    goes on. *)
Definition pollStatus (answer : JobAnswer) (app : App.t) : App.t :=
  match answer with
  | JobJson jobStatus =>
      if (0 <? List.length (JobStatus.clips jobStatus))%nat
      then
        {| App.jobId := App.jobId app;
           App.isAnalyzing := false;
           App.clips := JobStatus.clips jobStatus;
           App.success :=
             "Successfully generated "
               ++ string_of_nat (List.length (JobStatus.clips jobStatus))
               ++ " clips!" |}
      else app
  | JobError _ _ => app
  end.

(** One firing of [setInterval(pollStatus, 2000)].  The effect installs
    the interval only while [jobId] is set and [isAnalyzing] holds. *)
Definition tick (ext : Externals) (state : App.t * World) : App.t * World :=
  let (app, w) := state in
  if negb (truthy (Some (App.jobId app))) || negb (App.isAnalyzing app)
  then state
  else
    let (answer, w') := job_handler ext (App.jobId app) w in
    (pollStatus answer app, w').

Fixpoint ticks (n : nat) (ext : Externals) (state : App.t * World)
  : App.t * World :=
  match n with
  | O => state
  | S n' => ticks n' ext (tick ext state)
  end.

(** *** OptionsPanel: the window check *)

(** The [valid] field of what [getTimeRangeValidation] returns;
    [videoDuration] is the optional property of the panel. *)
Definition getTimeRangeValidation_valid (videoDuration : option Q)
    (options : ClipOptions) : bool :=
  match videoDuration with
  | None => true
  | Some duration =>
      if Qeq_bool duration 0 then true
      else if Qle_bool (Options.timeEndSec options)
                (Options.timeStartSec options)
      then false
      else if Qltb duration (Options.timeEndSec options) then false
      else true
  end.

(** *** ResultsGrid: the score badge *)

Definition getScoreColor (score : Q) : string :=
  if Qle_bool (8 # 10) score then "text-green-400"
  else if Qle_bool (6 # 10) score then "text-yellow-400"
  else "text-red-400".

Definition getScoreLabel (score : Q) : string :=
  if Qle_bool (8 # 10) score then "High"
  else if Qle_bool (6 # 10) score then "Medium"
  else "Low".

(** * Specification predicates *)

(** The stretch of time that the window of a clip covers reaches from the
    smaller to the larger of its two bounds, so that a window written with
    its end before its start covers the same stretch as the window written
    the right way round. *)
Definition window_from (c : GeneratedClip) : Q :=
  Qmin (Clip.startSec c) (Clip.endSec c).

Definition window_to (c : GeneratedClip) : Q :=
  Qmax (Clip.startSec c) (Clip.endSec c).

(** Two clip windows overlap when their stretches share more than a point;
    for two windows with start before end this is the test that
    [suggestClips] itself applies to a transcript segment and a span. *)
Definition windows_overlap (a b : GeneratedClip) : Prop :=
  window_from a < window_to b /\ window_from b < window_to a.

Definition non_overlapping (cs : list GeneratedClip) : Prop :=
  ForallOrdPairs (fun a b => ~ windows_overlap a b) cs.

Definition sorted_by_start (cs : list GeneratedClip) : Prop :=
  StronglySorted (fun a b => Clip.startSec a <= Clip.startSec b) cs.

(** Consecutive clips are kept apart by the five-second gap. *)
Definition gap_separated (cs : list GeneratedClip) : Prop :=
  ForallOrdPairs (fun a b => Clip.endSec a + 5 <= Clip.startSec b) cs.

(** The segments that the filter of an iteration starting in [st] keeps. *)
Definition relevantSegments (transcript : Transcript) (options : ClipOptions)
    (st : LoopState) : list Segment.t :=
  List.filter
    (overlaps (currentStart st) (currentStart st + clip_duration options st))
    (segments transcript).

(** [c] is the clip pushed by the iteration that starts in state [st]. *)
Definition emitted_at (rand : nat -> Q) (transcript : Transcript)
    (options : ClipOptions) (st : LoopState) (c : GeneratedClip) : Prop :=
  loop_guard options st = true
  /\ relevantSegments transcript options st <> []
  /\ c = make_clip rand options st (relevantSegments transcript options st).

(** Loop invariant: every clip pushed so far comes from an iteration whose
    cursor was left of the window end; when the maximum duration is
    positive the cursor never moves left of the window start. *)
Definition provenance (rand : nat -> Q) (transcript : Transcript)
    (options : ClipOptions) (st : LoopState) : Prop :=
  (0 < maxDuration options ->
     Options.timeStartSec options <= currentStart st)
  /\ Forall
       (fun c => exists st0, emitted_at rand transcript options st0 c
          /\ (0 < maxDuration options ->
                Options.timeStartSec options <= currentStart st0))
       (clips st).

(** Loop invariant: the clips pushed so far are proper windows kept apart
    by the gap, and the cursor is past all of them. *)
Definition ordered_so_far (st : LoopState) : Prop :=
  gap_separated (clips st)
  /\ Forall (fun c => Clip.startSec c < Clip.endSec c
                      /\ Clip.endSec c + 5 <= currentStart st) (clips st).

(** The transcript is restricted to the window on the left: no segment
    starts before the window start. *)
Definition starts_in_window (transcript : Transcript) (options : ClipOptions)
  : Prop :=
  forall seg, In seg (segments transcript) ->
    Options.timeStartSec options <= Segment.startSec seg.

(** The segments of the transcript last at most five seconds each, and
    two different segments do not overlap. *)
Definition short_apart (transcript : Transcript) : Prop :=
  (forall seg, In seg (segments transcript) ->
     Segment.endSec seg <= Segment.startSec seg + 5)
  /\ forall a b, In a (segments transcript) -> In b (segments transcript) ->
       a = b
       \/ Segment.endSec a <= Segment.startSec b
       \/ Segment.endSec b <= Segment.startSec a.

(** The window of a clip has the maximum duration as its length, and its
    stretch lies within a segment of the transcript. *)
Definition span_in (transcript : Transcript) (options : ClipOptions)
    (c : GeneratedClip) : Prop :=
  Clip.endSec c == Clip.startSec c + maxDuration options
  /\ exists seg, In seg (segments transcript)
       /\ Segment.startSec seg < Clip.endSec c
       /\ Clip.startSec c < Segment.endSec seg.

(** Loop invariant for a maximum duration between -5 and 0: every window
    pushed so far runs backwards within a segment, the cursor has moved on
    from each start by at least one step, and each window lies left of the
    ones pushed after it. *)
Definition backwards_so_far (transcript : Transcript) (options : ClipOptions)
    (st : LoopState) : Prop :=
  ForallOrdPairs (fun a b => Clip.startSec a <= Clip.endSec b) (clips st)
  /\ Forall (fun c => span_in transcript options c
                      /\ Clip.startSec c + (maxDuration options + 5)
                         <= currentStart st) (clips st).

(** Loop invariant: the bookkeeping of the counters. *)
Definition counted (st : LoopState) : Prop :=
  (clipIndex st <= 10)%nat
  /\ (List.length (clips st) <= clipIndex st)%nat
  /\ draws st = (3 * List.length (clips st))%nat.

(** Two clips that differ at most in their scores. *)
Definition same_but_scores (a b : GeneratedClip) : Prop :=
  Clip.id a = Clip.id b
  /\ Clip.title a = Clip.title b
  /\ Clip.startSec a = Clip.startSec b
  /\ Clip.endSec a = Clip.endSec b
  /\ Clip.durationSec a = Clip.durationSec b
  /\ Clip.aspectRatio a = Clip.aspectRatio b
  /\ Clip.template a = Clip.template b
  /\ Clip.hasCaptions a = Clip.hasCaptions b
  /\ Clip.hasMemeHook a = Clip.hasMemeHook b
  /\ Clip.captions a = Clip.captions b
  /\ Clip.thumbnailCandidates a = Clip.thumbnailCandidates b.

Definition unit_interval (x : Q) : Prop := 0 <= x /\ x <= 1.

Definition scores_in_unit_interval (c : GeneratedClip) : Prop :=
  unit_interval (Scores.engagement (Clip.scores c))
  /\ unit_interval (Scores.clarity (Clip.scores c))
  /\ unit_interval (Scores.hook (Clip.scores c)).

(** The sub-ranges that the comments of [suggestClips] announce. *)
Definition scores_in_announced_ranges (c : GeneratedClip) : Prop :=
  (5 # 10 <= Scores.engagement (Clip.scores c) <= 1)
  /\ (7 # 10 <= Scores.clarity (Clip.scores c) <= 1)
  /\ (6 # 10 <= Scores.hook (Clip.scores c) <= 1).

(** A caption lies inside the window of its clip. *)
Definition caption_within (c : GeneratedClip) (cap : Caption.t) : Prop :=
  Clip.startSec c <= Caption.startSec cap
  /\ Caption.endSec cap <= Clip.endSec c.

(** A caption overlaps the window of its clip. *)
Definition caption_overlaps (c : GeneratedClip) (cap : Caption.t) : Prop :=
  Caption.startSec cap < Clip.endSec c
  /\ Clip.startSec c < Caption.endSec cap.

(** A caption repeats the timing and text of a transcript segment. *)
Definition caption_of_segment (seg : Segment.t) (cap : Caption.t) : Prop :=
  Caption.startSec cap = Segment.startSec seg
  /\ Caption.endSec cap = Segment.endSec seg
  /\ Caption.text cap = Segment.text seg.

(** Two runs of the loop, with different random draws, in step: same
    cursor, same index, same number of draws, same clips up to scores. *)
Definition lockstep (st1 st2 : LoopState) : Prop :=
  currentStart st1 = currentStart st2
  /\ clipIndex st1 = clipIndex st2
  /\ draws st1 = draws st2
  /\ Forall2 same_but_scores (clips st1) (clips st2).

(** ** Predicates about the pipeline *)

(** The path of the audio artifact of a job. *)
Definition audioPath_of (w : World) (jobId : string) : string :=
  path_join (path_join (path_join (cwd w) "temp") "audio") (jobId ++ ".mp3").

(** The path of the rendered artifact of a clip. *)
Definition clipPath_of (w : World) (clipId : string) : string :=
  path_join (path_join (path_join (cwd w) "temp") "clips") (clipId ++ ".mp4").

(** A computation leaves an observation of the world as it was. *)
Definition stable {A X} (f : World -> X) (m : M A) : Prop :=
  forall w, f (snd (m w)) = f w.

(** What [processVideoAsync] never touches: the job rows, the working
    directory and the environment. *)
Definition job_side (w : World) : list JobRow.t * string * ProcessEnv :=
  (JsonDbShape.jobs (dbData w), cwd w, env w).

(** The status of a job, as [GET /job/:jobId] reports it. *)
Definition job_status (jobId : string) (w : World) : option string :=
  option_map JobRow.status (Db.getJob jobId w).

(** A command is bounded to a time window when it seeks or limits the
    duration. *)
Definition is_window_option (o : FfmpegOption) : bool :=
  match o with
  | SeekInput _ | Duration _ => true
  | _ => false
  end.

Definition bounded_to_window (command : FfmpegCommand) : bool :=
  existsb is_window_option (cmd_options command).

(** No transcript segment overlaps the stretch that the spans of the loop
    can cover: from the window start to the window end plus the minimum
    duration. *)
Definition silent_window (transcript : Transcript) (options : ClipOptions)
  : Prop :=
  forall seg, In seg (segments transcript) ->
    Segment.endSec seg <= Options.timeStartSec options
    \/ Options.timeEndSec options + Qmax 0 (minDuration options)
       <= Segment.startSec seg.

(** ** Predicates about the download handler *)

(** The row that the handler finds for a job and a clip id. *)
Definition find_clip (jobId clipId : string) (w : World) : option Db.RowRef :=
  List.find (has_id clipId) (Db.getClipsByJobId jobId w).

(** The parameters that the handler passes to [createClip]. *)
Definition download_params (w : World) (clipId videoPath : string)
    (clip : ClipRow.t) : ClipParams.t :=
  {| ClipParams.inputPath := videoPath;
     ClipParams.outputPath := clipPath_of w clipId;
     ClipParams.startSec := ClipRow.startSec clip;
     ClipParams.endSec := ClipRow.endSec clip;
     ClipParams.aspectRatio := Some (ClipRow.aspectRatio clip);
     ClipParams.quality := None |}.

(** A change of the row at position [ref], seen on referenced rows. *)
Definition at_row (ref : nat) (g : ClipRow.t -> ClipRow.t) (c : Db.RowRef)
  : Db.RowRef :=
  (fst c, if decide (fst c = ref) then g (snd c) else snd c).
Arguments at_row : simpl never.

(** A change of a row that keeps what the handler searches by. *)
Definition keeps_keys (g : ClipRow.t -> ClipRow.t) : Prop :=
  forall clip,
    ClipRow.id (g clip) = ClipRow.id clip
    /\ ClipRow.jobId (g clip) = ClipRow.jobId clip
    /\ ClipRow.startSec (g clip) = ClipRow.startSec clip.

(** The clip of a job can be rendered on demand: the handler finds the
    row, no artifact is recorded for it or the recorded file is gone, the
    job has a source, and the transcoder succeeds on the command. *)
Definition renderable (ext : Externals) (w : World) (jobId clipId : string)
    (ref : nat) (clip : ClipRow.t) (videoPath : string) : Prop :=
  find_clip jobId clipId w = Some (ref, clip)
  /\ needs_render clip w = true
  /\ (exists job, Db.getJob jobId w = Some job
        /\ js_or_path (JobRow.sourcePath job) (JobRow.sourceUrl job)
           = Some videoPath)
  /\ transcoder ext (createClip_command (download_params w clipId videoPath clip))
     = None.

(** * Concrete inputs used by the examples *)

Definition rand_zero : nat -> Q := fun _ => 0.
Definition rand_half : nat -> Q := fun _ => 1 # 2.
Definition rand_half_then_zero : nat -> Q :=
  fun k => if (k <? 30)%nat then 1 # 2 else 0.

(** Options with the given window and length preset; every toggle but the
    captions is off. *)
Definition options_for (s e : Q) (preset : ClipLengthPreset)
    (minSec maxSec : option Q) : ClipOptions :=
  {| Options.timeStartSec := s;
     Options.timeEndSec := e;
     Options.clipLengthPreset := preset;
     Options.clipLengthMinSec := minSec;
     Options.clipLengthMaxSec := maxSec;
     Options.aspectRatio := ar_9_16;
     Options.template := clean;
     Options.memeHook := false;
     Options.gameMode := false;
     Options.hookTitle := false;
     Options.callToAction := false;
     Options.backgroundMusic := false;
     Options.captionsEnabled := true;
     Options.wordsPerCaption := 5;
     Options.highlightKeywords := false;
     Options.autoThumbnail := false |}.

(** Window [500, 1000), custom preset with maximum length -100. *)
Definition options_negative_max : ClipOptions :=
  options_for 500 1000 custom None (Some (-100)).

(** One segment that covers [0, 1000). *)
Definition transcript_one_long : Transcript :=
  {| segments := [Segment.mk 0 1000 "one long take"] |}.

(** Window [0, 300), preset short. *)
Definition options_short_300 : ClipOptions :=
  options_for 0 300 short None None.

(** One segment [20, 30): it straddles the end of the first span [0, 25). *)
Definition transcript_straddling : Transcript :=
  {| segments := [Segment.mk 20 30 "a sentence across the cut"] |}.

(** Window [0, 300), custom preset with clips of exactly seven seconds. *)
Definition options_custom_7 : ClipOptions :=
  options_for 0 300 custom (Some 7) (Some 7).

(** Window [0, 5), preset short: shorter than the minimum of ten seconds. *)
Definition options_short_5 : ClipOptions :=
  options_for 0 5 short None None.

(** One segment per five seconds over [0, 300). *)
Definition transcript_every_5 : Transcript :=
  {| segments :=
       List.map
         (fun i => Segment.mk (inject_Z (Z.of_nat (5 * i)))
                              (inject_Z (Z.of_nat (5 * i + 5)))
                              "five seconds of speech")
         (seq 0 60) |}.

(** A server that runs in /srv with the Gemini key set, one job that is
    being processed, no clip yet, and the uploaded video on disk. *)
Definition job_1 : JobRow.t :=
  {| JobRow.id := "job-1";
     JobRow.createdAt := "2024-01-01T00:00:00.000Z";
     JobRow.sourceType := "file";
     JobRow.sourcePath := Some "/srv/temp/uploads/talk.mp4";
     JobRow.sourceUrl := None;
     JobRow.options := options_short_300;
     JobRow.videoDurationSec := 300;
     JobRow.providerName := "gemini";
     JobRow.status := "processing" |}.

Definition db_one_job : JsonDbShape :=
  {| JsonDbShape.jobs := [job_1]; JsonDbShape.clips := [] |}.

Definition world_one_job : World :=
  {| cwd := "/srv";
     env := {| AI_PROVIDER := None; GEMINI_API_KEY := Some "key" |};
     dbData := db_one_job;
     dbFile := db_one_job;
     dbFileTorn := false;
     files := {["/srv/temp/uploads/talk.mp4"]};
     ffmpegRuns := [];
     console := [] |}.

Definition metadata_300 : VideoMetadata.t :=
  {| VideoMetadata.durationSec := 300;
     VideoMetadata.width := 1920;
     VideoMetadata.height := 1080;
     VideoMetadata.fps := 30;
     VideoMetadata.bitrate := 2500000;
     VideoMetadata.format := "mov,mp4,m4a,3gp,3g2,mj2" |}.

(** Every transcoder run succeeds and every write of the database file
    succeeds. *)
Definition externals_fine : Externals :=
  {| transcoder := fun _ => None;
     transcoder_leaves_output := fun _ => false;
     writeFileSync_error := fun _ => None;
     writeFileSync_opens := fun _ => false;
     random := rand_half;
     uuidv4 := "job-2";
     now := "2024-01-01T00:00:05.000Z";
     ffprobe := fun _ => OK metadata_300;
     readdirSync := fun _ => OK ["talk.mp4"];
     downloadFromUrl := fun _ downloadPath => OK downloadPath;
     url_hostname := fun _ => OK "video.example" |}.

(** Every transcoder run ends with an error. *)
Definition externals_no_transcoder : Externals :=
  {| transcoder := fun _ => Some "ffmpeg exited with code 1";
     transcoder_leaves_output := fun _ => true;
     writeFileSync_error := fun _ => None;
     writeFileSync_opens := fun _ => false;
     random := rand_half;
     uuidv4 := "job-2";
     now := "2024-01-01T00:00:05.000Z";
     ffprobe := fun _ => OK metadata_300;
     readdirSync := fun _ => OK ["talk.mp4"];
     downloadFromUrl := fun _ downloadPath => OK downloadPath;
     url_hostname := fun _ => OK "video.example" |}.

(** The database file cannot be written. *)
Definition externals_disk_full : Externals :=
  {| transcoder := fun _ => None;
     transcoder_leaves_output := fun _ => false;
     writeFileSync_error := fun _ => Some "ENOSPC: no space left on device";
     writeFileSync_opens := fun _ => true;
     random := rand_half;
     uuidv4 := "job-2";
     now := "2024-01-01T00:00:05.000Z";
     ffprobe := fun _ => OK metadata_300;
     readdirSync := fun _ => OK ["talk.mp4"];
     downloadFromUrl := fun _ downloadPath => OK downloadPath;
     url_hostname := fun _ => OK "video.example" |}.

(** A provider whose transcription service is down. *)
Definition deaf_provider : AIProvider.t :=
  {| AIProvider.transcribe := fun _ _ _ => Throw "speech service unavailable";
     AIProvider.suggestClips :=
       fun rand transcript options => OK (suggestClips rand transcript options) |}.

(** Window [0, 30), custom preset with maximum length -100. *)
Definition options_negative_max_30 : ClipOptions :=
  options_for 0 30 custom None (Some (-100)).

(** Window [0, 30), custom preset with maximum length -3. *)
Definition options_backwards_30 : ClipOptions :=
  options_for 0 30 custom None (Some (-3)).

(** The degenerate window that starts at 100 and ends at 50. *)
Definition options_degenerate : ClipOptions :=
  options_for 100 50 short None None.

(** The same server once the first clip of the job is stored, not yet
    rendered. *)
Definition clip_row_1 : ClipRow.t :=
  {| ClipRow.id := "clip-1";
     ClipRow.jobId := "job-1";
     ClipRow.title := "Clip 1: five seconds of speech...";
     ClipRow.startSec := 0;
     ClipRow.endSec := 25;
     ClipRow.durationSec := 25;
     ClipRow.aspectRatio := ar_9_16;
     ClipRow.template := clean;
     ClipRow.hasCaptions := 1;
     ClipRow.hasMemeHook := 0;
     ClipRow.scores :=
       {| Scores.engagement := 3 # 4; Scores.clarity := 17 # 20;
          Scores.hook := 4 # 5 |};
     ClipRow.captionData := Some [];
     ClipRow.thumbnailTimestamps := Some [5 # 2; 25 # 2; 45 # 2];
     ClipRow.clipFilePath := None |}.

Definition world_one_clip : World :=
  set_dbData world_one_job
    {| JsonDbShape.jobs := [job_1]; JsonDbShape.clips := [clip_row_1] |}.

(** One segment [7, 8), after the end of the window [0, 5). *)
Definition transcript_after_window : Transcript :=
  {| segments := [Segment.mk 7 8 "said after the window"] |}.

(** * Further predicates *)

(** The id of the clip pushed by the iteration with index [k - 1]. *)
Definition clip_id (k : nat) : string := "clip-" ++ string_of_nat k.

(** Loop invariant: the ids pushed so far carry increasing numbers between
    one and the number of iterations made. *)
Definition numbered_so_far (st : LoopState) : Prop :=
  exists ks,
    List.map Clip.id (clips st) = List.map clip_id ks
    /\ StronglySorted lt ks
    /\ Forall (fun k => (1 <= k <= clipIndex st)%nat) ks.

(** A character that [toLowerCase] leaves as it is and that is no white
    space. *)
Definition keyword_char (c : ascii) : Prop :=
  is_space c = false /\ lower_ascii c = c.

(** What [extractKeywords] lets through. *)
Definition keyword (word : string) : Prop :=
  (3 < String.length word)%nat
  /\ ~ In word stopWords
  /\ Forall keyword_char (list_ascii_of_string word).

(** The clips follow one another from [start] on: each one starts five
    seconds after the end of the one before it, the first one at [start]. *)
Fixpoint chained (start : Q) (cs : list GeneratedClip) : Prop :=
  match cs with
  | [] => True
  | c :: cs' => Clip.startSec c = start /\ chained (Clip.endSec c + 5) cs'
  end.

(** Where a further clip of the chain would start. *)
Fixpoint cursor_after (start : Q) (cs : list GeneratedClip) : Q :=
  match cs with
  | [] => start
  | c :: cs' => cursor_after (Clip.endSec c + 5) cs'
  end.

(** Loop invariant on the transcript of the mock: every iteration so far
    has pushed a clip. *)
Definition all_emitted (options : ClipOptions) (st : LoopState) : Prop :=
  List.length (clips st) = clipIndex st
  /\ Options.timeStartSec options <= currentStart st
  /\ chained (Options.timeStartSec options) (clips st)
  /\ currentStart st = cursor_after (Options.timeStartSec options) (clips st).

(** ** Further predicates about the store *)

(** The order of the rows that [getClipsByJobId] returns: by start time,
    and by position in the store among rows with the same start time. *)
Definition row_before (a b : Db.RowRef) : Prop :=
  ClipRow.startSec (snd a) < ClipRow.startSec (snd b)
  \/ (ClipRow.startSec (snd a) == ClipRow.startSec (snd b)
      /\ (fst a < fst b)%nat).

(** The row at position [ref] of [dbData.clips]. *)
Definition row_at (w : World) (ref : nat) : option ClipRow.t :=
  nth_error (JsonDbShape.clips (dbData w)) ref.

(** Two rows that differ at most in their two flags. *)
Definition same_but_flags (a b : ClipRow.t) : Prop :=
  ClipRow.id a = ClipRow.id b
  /\ ClipRow.jobId a = ClipRow.jobId b
  /\ ClipRow.title a = ClipRow.title b
  /\ ClipRow.startSec a = ClipRow.startSec b
  /\ ClipRow.endSec a = ClipRow.endSec b
  /\ ClipRow.durationSec a = ClipRow.durationSec b
  /\ ClipRow.aspectRatio a = ClipRow.aspectRatio b
  /\ ClipRow.template a = ClipRow.template b
  /\ ClipRow.scores a = ClipRow.scores b
  /\ ClipRow.captionData a = ClipRow.captionData b
  /\ ClipRow.thumbnailTimestamps a = ClipRow.thumbnailTimestamps b
  /\ ClipRow.clipFilePath a = ClipRow.clipFilePath b.

(** ** Further predicates about the pipeline *)

(** The row under which [processVideoAsync] stores a generated clip of a
    job, as [createClip] of db.ts leaves it. *)
Definition stored_row (jobId : string) (clip : GeneratedClip) : ClipRow.t :=
  {| ClipRow.id := Clip.id clip;
     ClipRow.jobId := jobId;
     ClipRow.title := Clip.title clip;
     ClipRow.startSec := Clip.startSec clip;
     ClipRow.endSec := Clip.endSec clip;
     ClipRow.durationSec := Clip.durationSec clip;
     ClipRow.aspectRatio := Clip.aspectRatio clip;
     ClipRow.template := Clip.template clip;
     ClipRow.hasCaptions := if Clip.hasCaptions clip then 1%nat else 0%nat;
     ClipRow.hasMemeHook := if Clip.hasMemeHook clip then 1%nat else 0%nat;
     ClipRow.scores := Clip.scores clip;
     ClipRow.captionData := Some (Clip.captions clip);
     ClipRow.thumbnailTimestamps := Some (Clip.thumbnailCandidates clip);
     ClipRow.clipFilePath := None |}.

(** A clip of the answer of [GET /job/:jobId], read as a
    [GeneratedClip]: the fields that the type of types.ts names. *)
Definition generated_of (c : JobClip.t) : GeneratedClip :=
  {| Clip.id := JobClip.id c;
     Clip.title := JobClip.title c;
     Clip.startSec := JobClip.startSec c;
     Clip.endSec := JobClip.endSec c;
     Clip.durationSec := JobClip.durationSec c;
     Clip.aspectRatio := JobClip.aspectRatio c;
     Clip.template := JobClip.template c;
     Clip.hasCaptions := JobClip.hasCaptions c;
     Clip.hasMemeHook := JobClip.hasMemeHook c;
     Clip.scores := JobClip.scores c;
     Clip.captions := JobClip.captions c;
     Clip.thumbnailCandidates := JobClip.thumbnailCandidates c |}.

(** Every write of the database file succeeds. *)
Definition disk_fine (ext : Externals) : Prop :=
  forall d, writeFileSync_error ext d = None.

(** The stages of [processVideoAsync] up to the stored rows succeed: the
    audio is extracted, the provider is made, and it answers with a
    transcript and with [clips]. *)
Definition stages_succeed (factory : ProcessEnv -> Exc AIProvider.t)
    (ext : Externals) (jobId videoPath : string) (options : ClipOptions)
    (w : World) (clips : list GeneratedClip) : Prop :=
  transcoder ext (extractAudio_command videoPath (audioPath_of w jobId)) = None
  /\ exists provider transcript,
       factory (env w) = OK provider
       /\ AIProvider.transcribe provider (audioPath_of w jobId)
            (Options.timeStartSec options) (Options.timeEndSec options)
          = OK transcript
       /\ AIProvider.suggestClips provider (random ext) transcript options
          = OK clips.

(** ** Further predicates about the analyze route *)

(** The request passes the checks of [POST /analyze]: the schema accepts
    it, the source resolves to a video, ffprobe reads it, and the window
    is proper and ends within the video. *)
Definition analyzable (ext : Externals) (source : Source.t)
    (options : ClipOptions) (w w1 : World) (videoPath sourcePlatform : string)
    (metadata : VideoMetadata.t) : Prop :=
  AnalyzeRequestSchema_accepts source options = true
  /\ analyze_resolve ext source (uuidv4 ext) w
     = (OK (inr (videoPath, sourcePlatform)), w1)
  /\ ffprobe ext videoPath = OK metadata
  /\ Options.timeStartSec options < Options.timeEndSec options
  /\ Options.timeEndSec options <= VideoMetadata.durationSec metadata.

(** The job row that [POST /analyze] makes for a request. *)
Definition job_row_of (ext : Externals) (source : Source.t)
    (options : ClipOptions) (w : World) (videoPath : string)
    (metadata : VideoMetadata.t) (row : JobRow.t) : Prop :=
  JobRow.id row = uuidv4 ext
  /\ JobRow.createdAt row = now ext
  /\ JobRow.sourceType row = sourceType_name (Source.type source)
  /\ JobRow.sourcePath row
     = match Source.type source with
       | source_file => Some videoPath
       | source_url => None
       end
  /\ JobRow.sourceUrl row
     = match Source.type source with
       | source_file => None
       | source_url => Source.url source
       end
  /\ JobRow.options row = options
  /\ JobRow.videoDurationSec row = VideoMetadata.durationSec metadata
  /\ JobRow.providerName row = js_or_string (AI_PROVIDER (env w)) "gemini"
  /\ JobRow.status row = "processing".

(** The world with one more job row in memory. *)
Definition with_job (w : World) (row : JobRow.t) : World :=
  set_dbData w
    {| JsonDbShape.jobs := (JsonDbShape.jobs (dbData w) ++ [row])%list;
       JsonDbShape.clips := JsonDbShape.clips (dbData w) |}.

(** What [analyze_resolve] leaves as it was. *)
Definition beside_console (w : World)
  : list FfmpegCommand * JsonDbShape * JsonDbShape * string * ProcessEnv
    * gset string :=
  (ffmpegRuns w, dbData w, dbFile w, cwd w, env w, files w).

(** ** Further predicates about the download handler *)

(** Every file that the server has sent is on disk. *)
Definition sent_files_exist (s : Server) : Prop :=
  forall request path,
    In (request, SendFile path) (responses s) -> path ∈ files (world s).

(** The clip rows without their artifact paths. *)
Definition sans_artifact (rows : list ClipRow.t) : list ClipRow.t :=
  List.map (with_clipFilePath "") rows.

(** What the download handler leaves as it was: the database file, the job
    rows, the clip rows up to their artifact paths, the working directory
    and the environment. *)
Definition beside_artifacts (w : World)
  : JsonDbShape * list JobRow.t * list ClipRow.t * string * ProcessEnv :=
  (dbFile w, JsonDbShape.jobs (dbData w),
   sans_artifact (JsonDbShape.clips (dbData w)), cwd w, env w).

(** The clip of a job is due for a render: the handler finds the row, no
    artifact is recorded for it or the recorded file is gone, and the job
    has a source. *)
Definition render_due (w : World) (jobId clipId : string) (ref : nat)
    (clip : ClipRow.t) (videoPath : string) : Prop :=
  find_clip jobId clipId w = Some (ref, clip)
  /\ needs_render clip w = true
  /\ exists job, Db.getJob jobId w = Some job
       /\ js_or_path (JobRow.sourcePath job) (JobRow.sourceUrl job)
          = Some videoPath.

(** * Further concrete inputs *)

(** A second job, made from a URL. *)
Definition job_2 : JobRow.t :=
  {| JobRow.id := "job-2";
     JobRow.createdAt := "";
     JobRow.sourceType := "url";
     JobRow.sourcePath := None;
     JobRow.sourceUrl := Some "https://video.example/watch/42";
     JobRow.options := options_short_300;
     JobRow.videoDurationSec := 300;
     JobRow.providerName := "gemini";
     JobRow.status := "processing" |}.

(** The same server without the Gemini key. *)
Definition world_no_key : World :=
  {| cwd := "/srv";
     env := {| AI_PROVIDER := Some "Gemini"; GEMINI_API_KEY := None |};
     dbData := db_one_job;
     dbFile := db_one_job;
     dbFileTorn := false;
     files := {["/srv/temp/uploads/talk.mp4"]};
     ffmpegRuns := [];
     console := [] |}.

(** A request for a video of two hours behind a URL, and a world in which
    ffprobe reports that duration. *)
Definition source_long_url : Source.t :=
  {| Source.type := source_url; Source.fileId := None;
     Source.url := Some "https://video.example/watch/42" |}.

Definition metadata_7200 : VideoMetadata.t :=
  {| VideoMetadata.durationSec := 7200;
     VideoMetadata.width := 1920;
     VideoMetadata.height := 1080;
     VideoMetadata.fps := 30;
     VideoMetadata.bitrate := 2500000;
     VideoMetadata.format := "mov,mp4,m4a,3gp,3g2,mj2" |}.

Definition externals_long : Externals :=
  {| transcoder := fun _ => None;
     transcoder_leaves_output := fun _ => false;
     writeFileSync_error := fun _ => None;
     writeFileSync_opens := fun _ => false;
     random := rand_half;
     uuidv4 := "job-2";
     now := "2024-01-01T00:00:05.000Z";
     ffprobe := fun _ => OK metadata_7200;
     readdirSync := fun _ => OK ["talk.mp4"];
     downloadFromUrl := fun _ downloadPath => OK downloadPath;
     url_hostname := fun _ => OK "video.example" |}.

(** Window [3600, 3900), preset short. *)
Definition options_second_hour : ClipOptions :=
  options_for 3600 3900 short None None.

Definition source_talk : Source.t :=
  {| Source.type := source_file; Source.fileId := Some "talk";
     Source.url := None |}.

(** A server without a job, and a disk that cannot be written. *)
Definition world_empty : World :=
  {| cwd := "/srv";
     env := {| AI_PROVIDER := None; GEMINI_API_KEY := Some "key" |};
     dbData := {| JsonDbShape.jobs := []; JsonDbShape.clips := [] |};
     dbFile := {| JsonDbShape.jobs := []; JsonDbShape.clips := [] |};
     dbFileTorn := false;
     files := {["/srv/temp/uploads/talk.mp4"]};
     ffmpegRuns := [];
     console := [] |}.

(** An uploaded file, as multer stored it. *)
Definition file_talk : UploadedFile.t :=
  {| UploadedFile.filename := "talk.mp4";
     UploadedFile.path := "/srv/temp/uploads/talk.mp4";
     UploadedFile.size := 1048576;
     UploadedFile.originalname := "My talk.mp4" |}.

(** ffprobe cannot read any file. *)
Definition externals_no_probe : Externals :=
  {| transcoder := fun _ => None;
     transcoder_leaves_output := fun _ => false;
     writeFileSync_error := fun _ => None;
     writeFileSync_opens := fun _ => false;
     random := rand_half;
     uuidv4 := "job-2";
     now := "2024-01-01T00:00:05.000Z";
     ffprobe := fun _ => Throw "Failed to probe video: Invalid data found";
     readdirSync := fun _ => OK ["talk.mp4"];
     downloadFromUrl := fun _ downloadPath => OK downloadPath;
     url_hostname := fun _ => OK "video.example" |}.

(** A second job whose first clip is stored next to the first clip of
    [job_1]: both clips carry the id [clip-1]. *)
Definition job_3 : JobRow.t :=
  {| JobRow.id := "job-3";
     JobRow.createdAt := "2024-01-02T00:00:00.000Z";
     JobRow.sourceType := "file";
     JobRow.sourcePath := Some "/srv/temp/uploads/lecture.mp4";
     JobRow.sourceUrl := None;
     JobRow.options := options_short_300;
     JobRow.videoDurationSec := 300;
     JobRow.providerName := "gemini";
     JobRow.status := "processing" |}.

Definition clip_row_3 : ClipRow.t :=
  {| ClipRow.id := "clip-1";
     ClipRow.jobId := "job-3";
     ClipRow.title := "Clip 1: a lecture...";
     ClipRow.startSec := 0;
     ClipRow.endSec := 25;
     ClipRow.durationSec := 25;
     ClipRow.aspectRatio := ar_16_9;
     ClipRow.template := clean;
     ClipRow.hasCaptions := 1;
     ClipRow.hasMemeHook := 0;
     ClipRow.scores :=
       {| Scores.engagement := 3 # 4; Scores.clarity := 17 # 20;
          Scores.hook := 4 # 5 |};
     ClipRow.captionData := Some [];
     ClipRow.thumbnailTimestamps := Some [5 # 2; 25 # 2; 45 # 2];
     ClipRow.clipFilePath := None |}.

Definition world_two_jobs : World :=
  set_dbData world_one_job
    {| JsonDbShape.jobs := [job_1; job_3];
       JsonDbShape.clips := [clip_row_1; clip_row_3] |}.

(** The client right after [POST /analyze] answered with the job id. *)
Definition app_waiting (jobId : string) : App.t :=
  {| App.jobId := jobId;
     App.isAnalyzing := true;
     App.clips := [];
     App.success := "" |}.

(** * Properties of the Segmentation Engine *)

(** Closes a comparison between two rational constants. *)
Ltac Qconst :=
  first [ reflexivity
        | vm_compute; discriminate
        | unfold Qle, Qlt; simpl; lia ].

Lemma Qltb_lt (x y : Q) : Qltb x y = true <-> x < y.
Proof.
  unfold Qltb. rewrite negb_true_iff.
  split; intros H.
  - apply Qnot_le_lt. intros Hle. apply Qle_bool_iff in Hle. congruence.
  - destruct (Qle_bool y x) eqn:E; [|reflexivity].
    apply Qle_bool_iff in E. lra.
Qed.

Lemma Qltb_ge (x y : Q) : Qltb x y = false <-> y <= x.
Proof.
  unfold Qltb. rewrite negb_false_iff. apply Qle_bool_iff.
Qed.

(** ** The guard and the filter *)

Lemma loop_guard_index options st :
  loop_guard options st = true -> (clipIndex st < 10)%nat.
Proof.
  unfold loop_guard. intros Hg.
  apply andb_prop in Hg as [_ Hlt]. apply Nat.ltb_lt. assumption.
Qed.

Lemma loop_guard_cursor options st :
  loop_guard options st = true -> currentStart st < Options.timeEndSec options.
Proof.
  unfold loop_guard. intros Hg.
  apply andb_prop in Hg as [Hlt _]. apply Qltb_lt. assumption.
Qed.

Lemma overlaps_spec cur endSec seg :
  overlaps cur endSec seg = true <->
  Segment.startSec seg < endSec /\ cur < Segment.endSec seg.
Proof.
  unfold overlaps. rewrite andb_true_iff, !Qltb_lt. reflexivity.
Qed.

(** ** The loop *)

Lemma suggest_loop_eq rand transcript options st :
  suggest_loop rand transcript options st =
  if loop_guard options st
  then suggest_loop rand transcript options (loop_body rand transcript options st)
  else st.
Proof.
  rewrite suggest_loop_equation_1.
  generalize (inspect (loop_guard options st)). intros [[|] Hg].
  - simpl. rewrite Hg. reflexivity.
  - simpl. rewrite Hg. reflexivity.
Qed.

Section LoopInvariant.
Variable rand : nat -> Q.
Variable transcript : Transcript.
Variable options : ClipOptions.

(** Hoare-style rule for the loop: an invariant that the body preserves
    under the guard holds of the final state, where the guard is false. *)
Lemma suggest_loop_invariant (P : LoopState -> Prop) :
  (forall st, P st -> loop_guard options st = true ->
              P (loop_body rand transcript options st)) ->
  forall st, P st ->
    P (suggest_loop rand transcript options st)
    /\ loop_guard options (suggest_loop rand transcript options st) = false.
Proof.
  intros Hstep st.
  remember (10 - clipIndex st)%nat as n eqn:Hn.
  revert st Hn.
  induction n as [n IH] using lt_wf_ind.
  intros st Hn HP.
  rewrite suggest_loop_eq.
  destruct (loop_guard options st) eqn:Hg.
  - apply (IH (10 - clipIndex (loop_body rand transcript options st))%nat).
    + unfold loop_guard in Hg. apply andb_prop in Hg as [_ Hlt].
      apply Nat.ltb_lt in Hlt. simpl. lia.
    + reflexivity.
    + apply Hstep; assumption.
  - split; assumption.
Qed.
End LoopInvariant.

(** ** The duration formula *)

Section Duration.
Variable options : ClipOptions.
Variable st : LoopState.

Let remaining : Q := Options.timeEndSec options - currentStart st.

Lemma clip_duration_le_max :
  clip_duration options st <= maxDuration options.
Proof. unfold clip_duration. apply Q.le_min_l. Qed.

Lemma clip_duration_ge_min :
  minDuration options <= maxDuration options ->
  minDuration options <= clip_duration options st.
Proof.
  intros Hband. unfold clip_duration.
  apply Q.min_glb; [assumption | apply Q.le_max_l].
Qed.

Lemma clip_duration_pos :
  0 < maxDuration options ->
  loop_guard options st = true ->
  0 < clip_duration options st.
Proof.
  intros Hmax Hg. unfold loop_guard in Hg.
  apply andb_prop in Hg as [Hlt _]. apply Qltb_lt in Hlt.
  unfold clip_duration. apply Q.min_glb_lt; [assumption|].
  pose proof (Q.le_max_r (minDuration options)
                (Options.timeEndSec options - currentStart st)).
  lra.
Qed.

(** The remaining window is shorter than the minimum: the clip is not
    shortened to it, it keeps the minimum duration. *)
Lemma clip_duration_short_window :
  minDuration options <= maxDuration options ->
  remaining < minDuration options ->
  clip_duration options st == minDuration options.
Proof.
  unfold remaining, clip_duration. intros Hband Hrem.
  rewrite Q.max_l by lra. apply Q.min_r. assumption.
Qed.
End Duration.

(** ** Termination: ten units of fuel are always enough *)

Lemma run_loop_enough rand transcript options fuel :
  forall st, (10 - clipIndex st <= fuel)%nat ->
    run_loop fuel rand transcript options st
    = Some (suggest_loop rand transcript options st).
Proof.
  induction fuel as [|fuel IH]; intros st Hfuel;
    rewrite suggest_loop_eq; simpl;
    destruct (loop_guard options st) eqn:Hg; try reflexivity.
  - apply loop_guard_index in Hg. lia.
  - apply IH. apply loop_guard_index in Hg. simpl. lia.
Qed.

Lemma counted_init options : counted (loop_init options).
Proof. repeat split; simpl; lia. Qed.

Lemma counted_step rand transcript options st :
  counted st -> loop_guard options st = true ->
  counted (loop_body rand transcript options st).
Proof.
  intros (Hidx & Hlen & Hdraws) Hg. apply loop_guard_index in Hg.
  unfold counted, loop_body; simpl.
  destruct (0 <? List.length _)%nat; simpl.
  - rewrite length_app. simpl. lia.
  - lia.
Qed.

(** ** Where an emitted clip comes from *)

Section Provenance.
Variable rand : nat -> Q.
Variable transcript : Transcript.
Variable options : ClipOptions.

Lemma loop_body_clips st :
  clips (loop_body rand transcript options st) =
  if (0 <? List.length (relevantSegments transcript options st))%nat
  then (clips st
        ++ [make_clip rand options st (relevantSegments transcript options st)])%list
  else clips st.
Proof. reflexivity. Qed.

Lemma loop_body_clips_In st c :
  In c (clips (loop_body rand transcript options st)) ->
  loop_guard options st = true ->
  In c (clips st) \/ emitted_at rand transcript options st c.
Proof.
  rewrite loop_body_clips. intros Hin Hg.
  destruct (relevantSegments transcript options st) as [|seg rel] eqn:Hrel;
    simpl in Hin.
  - left. assumption.
  - apply in_app_or in Hin as [Hin | Hin].
    + left. assumption.
    + right. destruct Hin as [Heq | []].
      unfold emitted_at. rewrite Hrel.
      repeat split; [assumption | discriminate | congruence].
Qed.

Lemma provenance_init : provenance rand transcript options (loop_init options).
Proof.
  split; simpl.
  - intros _. lra.
  - constructor.
Qed.

Lemma provenance_step st :
  provenance rand transcript options st ->
  loop_guard options st = true ->
  provenance rand transcript options (loop_body rand transcript options st).
Proof.
  intros [Hcur Hall] Hg. split.
  - intros Hmax. simpl.
    pose proof (clip_duration_pos options st Hmax Hg).
    specialize (Hcur Hmax). lra.
  - apply List.Forall_forall. intros c Hin.
    apply loop_body_clips_In in Hin as [Hin | Hem]; [| |assumption].
    + rewrite List.Forall_forall in Hall. apply Hall. assumption.
    + exists st. split; assumption.
Qed.

Lemma suggestClips_provenance c :
  In c (suggestClips rand transcript options) ->
  exists st0, emitted_at rand transcript options st0 c
    /\ (0 < maxDuration options ->
          Options.timeStartSec options <= currentStart st0).
Proof.
  unfold suggestClips. intros Hin.
  destruct (suggest_loop_invariant rand transcript options
              (provenance rand transcript options)
              provenance_step (loop_init options) provenance_init)
    as [[_ Hall] _].
  rewrite List.Forall_forall in Hall. apply Hall. assumption.
Qed.
End Provenance.

(** ** Order of the emitted clips *)

Lemma ForallOrdPairs_snoc {A} (R : A -> A -> Prop) (l : list A) (x : A) :
  ForallOrdPairs R l -> Forall (fun a => R a x) l ->
  ForallOrdPairs R (l ++ [x]).
Proof.
  induction 1 as [|a l Ha Hl IH]; intros Hx; simpl.
  - constructor; constructor.
  - inversion Hx; subst. constructor.
    + apply Forall_app. split; [assumption|]. constructor; [assumption|constructor].
    + apply IH. assumption.
Qed.

Lemma gap_separated_sorted cs :
  gap_separated cs ->
  Forall (fun c => Clip.startSec c < Clip.endSec c) cs ->
  sorted_by_start cs.
Proof.
  induction 1 as [|a l Ha Hl IH]; intros Hproper.
  - constructor.
  - inversion Hproper as [|? ? Hpa Hpl]; subst. constructor.
    + apply IH. assumption.
    + eapply List.Forall_impl; [|exact Ha]. simpl. intros b Hab. lra.
Qed.

(** Takes the case distinctions of every [Qmin] and [Qmax] in sight and
    leaves the rest to linear arithmetic. *)
Ltac Qminmax :=
  unfold window_from, window_to in *;
  repeat match goal with
  | H : context [Qmin ?x ?y] |- _ =>
      let m := fresh "m" in
      destruct (Q.min_spec x y) as [[? ?] | [? ?]];
      set (m := Qmin x y) in *; clearbody m
  | |- context [Qmin ?x ?y] =>
      let m := fresh "m" in
      destruct (Q.min_spec x y) as [[? ?] | [? ?]];
      set (m := Qmin x y) in *; clearbody m
  | H : context [Qmax ?x ?y] |- _ =>
      let m := fresh "m" in
      destruct (Q.max_spec x y) as [[? ?] | [? ?]];
      set (m := Qmax x y) in *; clearbody m
  | |- context [Qmax ?x ?y] =>
      let m := fresh "m" in
      destruct (Q.max_spec x y) as [[? ?] | [? ?]];
      set (m := Qmax x y) in *; clearbody m
  end;
  try lra.

(** Two windows with start before end overlap exactly when each starts
    before the other ends. *)
Lemma windows_overlap_proper a b :
  Clip.startSec a <= Clip.endSec a -> Clip.startSec b <= Clip.endSec b ->
  windows_overlap a b
  <-> Clip.startSec a < Clip.endSec b /\ Clip.startSec b < Clip.endSec a.
Proof.
  intros Ha Hb. unfold windows_overlap. split; intros [H1 H2]; split; Qminmax.
Qed.

Lemma gap_separated_non_overlapping cs :
  gap_separated cs ->
  Forall (fun c => Clip.startSec c < Clip.endSec c) cs ->
  non_overlapping cs.
Proof.
  induction 1 as [|a l Ha Hl IH]; intros Hproper.
  - constructor.
  - inversion Hproper as [|? ? Hpa Hpl]; subst.
    constructor; [|apply IH; exact Hpl].
    rewrite List.Forall_forall in *. intros b Hb.
    specialize (Ha b Hb). specialize (Hpl b Hb). simpl in *.
    intros [_ Hov]. Qminmax.
Qed.

Section Ordering.
Variable rand : nat -> Q.
Variable transcript : Transcript.
Variable options : ClipOptions.
Hypothesis Hmax : 0 < maxDuration options.

Lemma ordered_init : ordered_so_far (loop_init options).
Proof. split; constructor. Qed.

Lemma ordered_step st :
  ordered_so_far st -> loop_guard options st = true ->
  ordered_so_far (loop_body rand transcript options st).
Proof.
  intros [Hgap Hall] Hg.
  pose proof (clip_duration_pos options st Hmax Hg) as Hpos.
  unfold ordered_so_far. rewrite loop_body_clips. simpl currentStart.
  assert (Hold : Forall (fun c => Clip.startSec c < Clip.endSec c
              /\ Clip.endSec c + 5
                 <= currentStart st + clip_duration options st + 5) (clips st)).
  { eapply List.Forall_impl; [|exact Hall]. simpl. intros c [? ?]. split; lra. }
  destruct (0 <? List.length _)%nat.
  - split.
    + apply ForallOrdPairs_snoc; [assumption|].
      eapply List.Forall_impl; [|exact Hall]. simpl. intros c [_ ?]. assumption.
    + apply Forall_app. split; [assumption|].
      constructor; [|constructor]. simpl. split; lra.
  - split; assumption.
Qed.

Lemma suggestClips_gap_separated :
  gap_separated (suggestClips rand transcript options)
  /\ Forall (fun c => Clip.startSec c < Clip.endSec c)
       (suggestClips rand transcript options).
Proof.
  destruct (suggest_loop_invariant rand transcript options ordered_so_far
              ordered_step (loop_init options) ordered_init)
    as [[Hgap Hall] _].
  split; [exact Hgap|].
  eapply List.Forall_impl; [|exact Hall]. simpl. intros c [? _]. assumption.
Qed.
End Ordering.

(** *** A negative maximum duration *)

Lemma maxDuration_nonzero options : ~ maxDuration options == 0.
Proof.
  unfold maxDuration.
  destruct (Options.clipLengthPreset options); try (intros H; discriminate H).
  unfold js_or. destruct (Options.clipLengthMaxSec options) as [v|].
  - destruct (Qeq_bool v 0) eqn:Hv.
    + intros H; discriminate H.
    + apply Qeq_bool_neq. exact Hv.
  - intros H; discriminate H.
Qed.

(** With a negative maximum every span has that maximum as its length. *)
Lemma clip_duration_negative options st :
  maxDuration options < 0 ->
  loop_guard options st = true ->
  clip_duration options st == maxDuration options.
Proof.
  intros Hmax Hg. apply loop_guard_cursor in Hg.
  unfold clip_duration. apply Q.min_l.
  pose proof (Q.le_max_r (minDuration options)
                (Options.timeEndSec options - currentStart st)).
  lra.
Qed.

Lemma ForallOrdPairs_StronglySorted {A} (R : A -> A -> Prop) (l : list A) :
  ForallOrdPairs R l -> StronglySorted R l.
Proof. induction 1; constructor; assumption. Qed.

(** Windows that run backwards, each left of the ones after it, are sorted
    by their starts and do not overlap. *)
Lemma backwards_sorted_non_overlapping cs :
  ForallOrdPairs (fun a b => Clip.startSec a <= Clip.endSec b) cs ->
  Forall (fun c => Clip.endSec c <= Clip.startSec c) cs ->
  sorted_by_start cs /\ non_overlapping cs.
Proof.
  induction 1 as [|a l Ha Hl IH]; intros Hback.
  - split; constructor.
  - inversion Hback as [|? ? Hba Hbl]; subst.
    destruct (IH Hbl) as [Hs Hn].
    rewrite List.Forall_forall in Ha, Hbl.
    split; constructor; try assumption; rewrite List.Forall_forall;
      intros b Hb; specialize (Ha b Hb); specialize (Hbl b Hb); simpl in *.
    + lra.
    + intros [_ Hov]. Qminmax.
Qed.

Section NegativeMaximum.
Variable rand : nat -> Q.
Variable transcript : Transcript.
Variable options : ClipOptions.
Hypothesis Hneg : maxDuration options < 0.

(** At most -5: the cursor never moves right, and a transcript that is
    restricted to the window is never met. *)
Lemma suggestClips_backwards_empty :
  maxDuration options <= -5 ->
  starts_in_window transcript options ->
  suggestClips rand transcript options = [].
Proof.
  intros Hfar Hstarts. unfold suggestClips.
  destruct (suggest_loop_invariant rand transcript options
              (fun st => clips st = []
                         /\ currentStart st <= Options.timeStartSec options))
    with (st := loop_init options) as [[Hnil _] _].
  - intros st [Hnil Hcur] Hg.
    pose proof (clip_duration_negative options st Hneg Hg) as Hdur.
    split.
    + rewrite loop_body_clips.
      assert (Hrel : relevantSegments transcript options st = []).
      { unfold relevantSegments.
        rewrite (List.filter_ext_in _ (fun _ => false));
          [apply List.filter_false|].
        intros seg Hseg.
        destruct (overlaps _ _ seg) eqn:Hov; [|reflexivity].
        apply overlaps_spec in Hov as [Hov _].
        specialize (Hstarts seg Hseg). lra. }
      rewrite Hrel. exact Hnil.
    + simpl. lra.
  - split; [reflexivity | simpl; lra].
  - exact Hnil.
Qed.

(** Between -5 and 0, on a transcript of short segments that lie apart:
    the cursor moves right by less than five seconds, each window runs
    backwards inside one segment, and no segment holds two windows. *)
Lemma backwards_init : backwards_so_far transcript options (loop_init options).
Proof. split; constructor. Qed.

Lemma backwards_step st :
  -5 < maxDuration options ->
  short_apart transcript ->
  backwards_so_far transcript options st -> loop_guard options st = true ->
  backwards_so_far transcript options (loop_body rand transcript options st).
Proof.
  intros Hnear [Hshort Hapart] [Hord Hall] Hg.
  pose proof (clip_duration_negative options st Hneg Hg) as Hdur.
  unfold backwards_so_far. rewrite loop_body_clips. simpl currentStart.
  assert (Hold : Forall (fun c => span_in transcript options c
              /\ Clip.startSec c + (maxDuration options + 5)
                 <= currentStart st + clip_duration options st + 5) (clips st)).
  { eapply List.Forall_impl; [|exact Hall]. simpl. intros c [? ?].
    split; [assumption|lra]. }
  destruct (relevantSegments transcript options st) as [|heard rest] eqn:Hrel;
    [split; assumption|].
  assert (Hheard : In heard (segments transcript)
                   /\ Segment.startSec heard
                        < currentStart st + clip_duration options st
                   /\ currentStart st < Segment.endSec heard).
  { assert (Hin : In heard (relevantSegments transcript options st))
      by (rewrite Hrel; left; reflexivity).
    unfold relevantSegments in Hin. apply List.filter_In in Hin as [Hin Hov].
    apply overlaps_spec in Hov. split; [exact Hin | exact Hov]. }
  destruct Hheard as (Hin & Hleft & Hright).
  cbn [List.length Nat.ltb Nat.leb]. split.
  - apply ForallOrdPairs_snoc; [assumption|].
    eapply List.Forall_impl; [|exact Hall]. simpl.
    intros c [[Hspan (seg & Hseg & Hsl & Hsr)] Hmoved].
    destruct (Qlt_le_dec (currentStart st + clip_duration options st)
                (Clip.startSec c)) as [Hcross|]; [exfalso|assumption].
    pose proof (Hshort heard Hin) as Hlen.
    destruct (Hapart seg heard Hseg Hin) as [-> | [Hbefore | Hafter]]; lra.
  - apply Forall_app. split; [assumption|].
    constructor; [|constructor]. split; [|simpl; lra].
    unfold span_in. simpl. split; [lra|].
    exists heard. repeat split; assumption.
Qed.

Lemma suggestClips_backwards_apart :
  -5 < maxDuration options ->
  short_apart transcript ->
  sorted_by_start (suggestClips rand transcript options)
  /\ non_overlapping (suggestClips rand transcript options).
Proof.
  intros Hnear Hshort.
  destruct (suggest_loop_invariant rand transcript options
              (backwards_so_far transcript options)
              (fun st => backwards_step st Hnear Hshort)
              (loop_init options) backwards_init)
    as [[Hord Hall] _].
  apply backwards_sorted_non_overlapping; [exact Hord|].
  eapply List.Forall_impl; [|exact Hall]. simpl. intros c [[Hspan _] _].
  lra.
Qed.
End NegativeMaximum.

(** *** The transcript that the pipeline passes *)

Lemma mock_segment_In startSec endSec seg :
  In seg (segments (transcribe_mock startSec endSec)) ->
  exists i, seg = mockSegment startSec endSec i.
Proof.
  unfold transcribe_mock. cbn [segments]. intros Hin.
  apply List.in_map_iff in Hin as (i & <- & _). exists i. reflexivity.
Qed.

(** No segment of the mock starts before the window start. *)
Lemma mock_starts_in_window options :
  starts_in_window
    (transcribe_mock (Options.timeStartSec options)
       (Options.timeEndSec options)) options.
Proof.
  intros seg Hin. apply mock_segment_In in Hin as [i ->].
  cbn [mockSegment Segment.startSec]. unfold segmentDuration.
  assert (Hi : inject_Z 0 <= inject_Z (Z.of_nat i))
    by (rewrite <- Zle_Qle; lia).
  change (inject_Z 0) with 0 in Hi. lra.
Qed.

(** The segments of the mock last at most five seconds and lie apart. *)
Lemma mock_short_apart startSec endSec :
  short_apart (transcribe_mock startSec endSec).
Proof.
  assert (Hnext : forall i j, (i < j)%nat ->
    Segment.endSec (mockSegment startSec endSec i)
    <= Segment.startSec (mockSegment startSec endSec j)).
  { intros i j Hij. cbn [mockSegment Segment.startSec Segment.endSec].
    unfold segmentDuration.
    assert (Hz : inject_Z (Z.of_nat i + 1) <= inject_Z (Z.of_nat j))
      by (rewrite <- Zle_Qle; lia).
    rewrite inject_Z_plus in Hz. change (inject_Z 1) with 1 in Hz.
    pose proof (Q.le_min_l
                  (startSec + inject_Z (Z.of_nat i) * 5 + 5) endSec).
    lra. }
  split.
  - intros seg Hin. apply mock_segment_In in Hin as [i ->].
    cbn [mockSegment Segment.startSec Segment.endSec].
    unfold segmentDuration. apply Q.le_min_l.
  - intros a b Ha Hb.
    apply mock_segment_In in Ha as [i ->].
    apply mock_segment_In in Hb as [j ->].
    destruct (Nat.lt_trichotomy i j) as [Hij | [-> | Hji]].
    + right. left. apply Hnext. exact Hij.
    + left. reflexivity.
    + right. right. apply Hnext. exact Hji.
Qed.

(** ** C1: order and disjointness of the emitted windows *)

Lemma suggestClips_forward_apart rand transcript options :
  0 < maxDuration options ->
  sorted_by_start (suggestClips rand transcript options)
  /\ non_overlapping (suggestClips rand transcript options).
Proof.
  intros Hmax.
  destruct (suggestClips_gap_separated rand transcript options Hmax)
    as [Hgap Hproper].
  split.
  - apply gap_separated_sorted; assumption.
  - apply gap_separated_non_overlapping; assumption.
Qed.



(** Where the two parts of the theorem end.  A custom maximum may be
    negative: the schema of the request puts no bound on it and nothing
    clamps it.  The windows then run backwards.  On the transcript of the
    pipeline each of them lies inside one segment of five seconds, and no
    segment holds two: for the window [0, 30) and the maximum -3 they are
    (4, 1) and (14, 11).  A single segment from 0 to 30, which the
    pipeline never passes, holds (4, 1), (6, 3) and more, and these
    overlap. *)
Example suggestClips_backwards_in_long_segment :
  let cs :=
    suggestClips rand_half {| segments := [Segment.mk 0 30 "one sentence"] |}
      options_backwards_30 in
  let mocked :=
    suggestClips rand_half (transcribe_mock 0 30) options_backwards_30 in
  List.map (fun c => (Clip.startSec c, Clip.endSec c)) (firstn 2 cs)
  = [(4, 1); (6, 3)]
  /\ ~ non_overlapping cs
  /\ List.map (fun c => (Clip.startSec c, Clip.endSec c)) (firstn 2 mocked)
     = [(4, 1); (14, 11)].
Proof.
  split; [vm_compute; reflexivity|]. split; [|vm_compute; reflexivity].
  intros Hno.
  assert (Hcs : exists a b rest,
    suggestClips rand_half {| segments := [Segment.mk 0 30 "one sentence"] |}
      options_backwards_30 = a :: b :: rest
    /\ (Clip.startSec a, Clip.endSec a) = (4, 1)
    /\ (Clip.startSec b, Clip.endSec b) = (6, 3)).
  { eexists _, _, _. split; [vm_compute; reflexivity|]. split; reflexivity. }
  destruct Hcs as (a & b & rest & Hcs & Ha & Hb).
  cbv zeta in Hno. rewrite Hcs in Hno.
  inversion Hno as [|? ? Hfirst _]; subst.
  inversion Hfirst as [|? ? Hab _]; subst.
  injection Ha as Ha1 Ha2. injection Hb as Hb1 Hb2.
  apply Hab. unfold windows_overlap, window_from, window_to.
  rewrite Ha1, Ha2, Hb1, Hb2. split; reflexivity.
Qed.

(** ** C2: duration band and window bounds *)

(** A window shorter than the minimum duration: one iteration, which keeps
    the minimum duration, and the cursor is then past the window end. *)
Lemma suggestClips_short_window rand transcript options :
  Options.timeStartSec options < Options.timeEndSec options ->
  Options.timeEndSec options - Options.timeStartSec options
    < minDuration options ->
  minDuration options <= maxDuration options ->
  suggestClips rand transcript options
  = if (0 <? List.length
               (relevantSegments transcript options (loop_init options)))%nat
    then [make_clip rand options (loop_init options)
            (relevantSegments transcript options (loop_init options))]
    else [].
Proof.
  intros Hwin Hshort Hband.
  pose proof (clip_duration_short_window options (loop_init options)
                Hband Hshort) as Hdur.
  unfold suggestClips.
  rewrite suggest_loop_eq.
  assert (Hg : loop_guard options (loop_init options) = true).
  { unfold loop_guard. simpl. rewrite andb_true_r. apply Qltb_lt. assumption. }
  rewrite Hg. rewrite suggest_loop_eq.
  assert (Hg' : loop_guard options
                  (loop_body rand transcript options (loop_init options))
                = false).
  { unfold loop_guard. apply andb_false_iff. left. apply Qltb_ge.
    simpl currentStart in *. lra. }
  rewrite Hg'. rewrite loop_body_clips.
  destruct (0 <? List.length _)%nat; reflexivity.
Qed.

(** C2, as amended.  Every emitted clip ends at its start plus its
    duration, and its duration is the remaining window at its start,
    raised to [minDuration] and then cut to [maxDuration].  So it is at
    most [maxDuration] long and, when the band is not reversed, at least
    [minDuration] long, with no exception: where the remaining window is
    shorter than [minDuration] the clip keeps the minimum duration, and its
    end is not before the window end.  Its start lies before the window
    end, and not before the window start for a positive maximum; of its
    end nothing more is promised.  A window shorter than [minDuration]
    yields at most one clip, which starts at the window start and has the
    minimum duration. *)
Theorem suggestClips_duration_and_window :
  forall (rand : nat -> Q) (transcript : Transcript) (options : ClipOptions),
    let s := Options.timeStartSec options in
    let e := Options.timeEndSec options in
    let minDur := minDuration options in
    let maxDur := maxDuration options in
    (forall c, In c (suggestClips rand transcript options) ->
       Clip.endSec c = Clip.startSec c + Clip.durationSec c
       /\ Clip.durationSec c
          = Qmin maxDur (Qmax minDur (e - Clip.startSec c))
       /\ Clip.durationSec c <= maxDur
       /\ (minDur <= maxDur -> minDur <= Clip.durationSec c)
       /\ Clip.startSec c < e
       /\ (0 < maxDur -> s <= Clip.startSec c)
       /\ (minDur <= maxDur -> e - Clip.startSec c < minDur ->
             Clip.durationSec c == minDur /\ e <= Clip.endSec c))
    /\ (s < e -> e - s < minDur -> minDur <= maxDur ->
          (List.length (suggestClips rand transcript options) <= 1)%nat
          /\ forall c, In c (suggestClips rand transcript options) ->
               Clip.startSec c = s
               /\ Clip.durationSec c == minDur
               /\ e <= Clip.endSec c).
Proof.
  intros rand transcript options s e minDur maxDur.
  assert (Hall : forall c, In c (suggestClips rand transcript options) ->
       Clip.endSec c = Clip.startSec c + Clip.durationSec c
       /\ Clip.durationSec c
          = Qmin maxDur (Qmax minDur (e - Clip.startSec c))
       /\ Clip.durationSec c <= maxDur
       /\ (minDur <= maxDur -> minDur <= Clip.durationSec c)
       /\ Clip.startSec c < e
       /\ (0 < maxDur -> s <= Clip.startSec c)
       /\ (minDur <= maxDur -> e - Clip.startSec c < minDur ->
             Clip.durationSec c == minDur /\ e <= Clip.endSec c)).
  { intros c Hin.
    apply suggestClips_provenance in Hin as (st & (Hg & _ & ->) & Hstart).
    simpl. repeat split.
    - apply clip_duration_le_max.
    - apply clip_duration_ge_min.
    - apply loop_guard_cursor. assumption.
    - exact Hstart.
    - apply clip_duration_short_window; assumption.
    - match goal with
      | Hband : minDur <= maxDur, Hshort : e - _ < minDur |- _ =>
          pose proof (clip_duration_short_window options st Hband Hshort)
      end.
      subst e minDur. lra. }
  split; [exact Hall|].
  intros Hwin Hshort Hband. split.
  - rewrite (suggestClips_short_window rand transcript options Hwin Hshort Hband).
    destruct (0 <? List.length _)%nat; simpl; lia.
  - intros c Hin.
    rewrite (suggestClips_short_window rand transcript options Hwin Hshort Hband)
      in Hin.
    destruct (0 <? List.length _)%nat; simpl in Hin; [|contradiction].
    destruct Hin as [<- | []]. simpl.
    split; [reflexivity|].
    pose proof (clip_duration_short_window options (loop_init options)
                  Hband Hshort) as Hdur.
    simpl in Hdur. split; [exact Hdur|].
    subst e s minDur. simpl in *. lra.
Qed.

Lemma suggestClips_duration_and_window_witness :
  (List.length
     (suggestClips rand_half (transcribe_mock 0 5) options_short_5) <= 1)%nat
  /\ forall c,
       In c (suggestClips rand_half (transcribe_mock 0 5) options_short_5) ->
       Clip.startSec c = 0
       /\ Clip.durationSec c == 10
       /\ 5 <= Clip.endSec c.
Proof.
  apply (proj2 (suggestClips_duration_and_window
                  rand_half (transcribe_mock 0 5) options_short_5));
    Qconst.
Defined.

(** C2 fails as stated: on the window [0, 5) with preset short and the
    transcript that [transcribe] makes for it, the single clip is [0, 10);
    it neither spans the window nor ends inside it. *)
Lemma suggestClips_window_counterexample :
  exists c,
    suggestClips rand_half (transcribe_mock 0 5) options_short_5 = [c]
    /\ Options.timeEndSec options_short_5 - Options.timeStartSec options_short_5
         < minDuration options_short_5
    /\ Clip.startSec c = 0
    /\ Clip.endSec c == 10
    /\ ~ (Clip.durationSec c
          == Options.timeEndSec options_short_5
             - Options.timeStartSec options_short_5)
    /\ ~ (Clip.endSec c <= Options.timeEndSec options_short_5).
Proof.
  eexists. split; [vm_compute; reflexivity|].
  split; [reflexivity|]. split; [reflexivity|]. split; [reflexivity|].
  split; intros H; vm_compute in H.
  - discriminate H.
  - apply H. reflexivity.
Qed.

(** ** C5: captions *)

Lemma generateCaptions_In segs options cap :
  In cap (generateCaptions segs options) ->
  exists seg, In seg segs /\ caption_of_segment seg cap.
Proof.
  unfold generateCaptions. intros Hin.
  apply in_map_iff in Hin as (seg & <- & Hseg).
  exists seg. split; [assumption|]. repeat split.
Qed.

(** C5, as amended.  A caption attached to an emitted clip repeats,
    unchanged, the start, end and text of a transcript segment that
    overlaps the clip's window: [caption.start < clip.end] and
    [caption.end > clip.start].  It is not cut to the window, so it lies
    inside the window exactly when its segment does.  Captions are attached
    only when captions are enabled. *)
Theorem suggestClips_captions_overlap :
  forall (rand : nat -> Q) (transcript : Transcript) (options : ClipOptions)
         (c : GeneratedClip) (cap : Caption.t),
    In c (suggestClips rand transcript options) ->
    In cap (Clip.captions c) ->
    Options.captionsEnabled options = true
    /\ caption_overlaps c cap
    /\ exists seg, In seg (segments transcript)
         /\ caption_of_segment seg cap
         /\ (caption_within c cap <->
             Clip.startSec c <= Segment.startSec seg
             /\ Segment.endSec seg <= Clip.endSec c).
Proof.
  intros rand transcript options c cap Hc Hcap.
  apply suggestClips_provenance in Hc as (st & (_ & _ & ->) & _).
  simpl in Hcap.
  destruct (Options.captionsEnabled options); [|contradiction].
  apply generateCaptions_In in Hcap as (seg & Hseg & Hcs).
  unfold relevantSegments in Hseg. apply filter_In in Hseg as [Hseg Hov].
  apply overlaps_spec in Hov as [Hov1 Hov2].
  destruct Hcs as (Hs & He & Ht).
  split; [reflexivity|]. split.
  - unfold caption_overlaps. simpl. rewrite Hs, He. split; assumption.
  - exists seg. split; [assumption|]. split; [repeat split; assumption|].
    unfold caption_within. rewrite Hs, He. reflexivity.
Qed.

Lemma suggestClips_captions_overlap_witness :
  exists c cap,
    In c (suggestClips rand_half transcript_straddling options_short_300)
    /\ In cap (Clip.captions c)
    /\ caption_overlaps c cap.
Proof.
  eexists. eexists.
  assert (Hc : In (nth 0 (suggestClips rand_half transcript_straddling
                            options_short_300)
                     (make_clip rand_half options_short_300
                        (loop_init options_short_300) []))
                  (suggestClips rand_half transcript_straddling
                     options_short_300)).
  { vm_compute. left. reflexivity. }
  assert (Hcap : In {| Caption.startSec := 20; Caption.endSec := 30;
                       Caption.text := "a sentence across the cut";
                       Caption.keywords := None |}
                    (Clip.captions
                       (nth 0 (suggestClips rand_half transcript_straddling
                                 options_short_300)
                          (make_clip rand_half options_short_300
                             (loop_init options_short_300) [])))).
  { vm_compute. left. reflexivity. }
  split; [exact Hc|]. split; [exact Hcap|].
  exact (proj1 (proj2 (suggestClips_captions_overlap _ _ _ _ _ Hc Hcap))).
Defined.

(** C5 fails as stated.  On the window [0, 300) with preset short, the
    segment [20, 30) overlaps the first clip [0, 25) and becomes a caption
    that ends five seconds after the clip does.  The same happens with the
    mock transcript of the repository and clips of seven seconds: the
    segment [5, 10) is a caption of the clip [0, 7). *)
Lemma suggestClips_captions_counterexample :
  (exists c cap,
     In c (suggestClips rand_half transcript_straddling options_short_300)
     /\ In cap (Clip.captions c)
     /\ ~ caption_within c cap)
  /\ (exists c cap,
        In c (suggestClips rand_half (transcribe_mock 0 300) options_custom_7)
        /\ In cap (Clip.captions c)
        /\ Clip.endSec c == 7 /\ Caption.endSec cap == 10
        /\ ~ caption_within c cap).
Proof.
  split.
  - eexists. eexists.
    split; [vm_compute; left; reflexivity|].
    split; [vm_compute; left; reflexivity|].
    intros [_ Hend]. vm_compute in Hend. apply Hend. reflexivity.
  - eexists. eexists.
    split; [vm_compute; left; reflexivity|].
    split; [vm_compute; right; left; reflexivity|].
    split; [reflexivity|]. split; [reflexivity|].
    intros [_ Hend]. vm_compute in Hend. apply Hend. reflexivity.
Qed.

(** ** C9: ranges of the scores *)

Lemma emitted_scores_in_ranges rand transcript options c :
  (forall k, 0 <= rand k /\ rand k < 1) ->
  In c (suggestClips rand transcript options) ->
  scores_in_announced_ranges c.
Proof.
  intros Hrand Hc.
  apply suggestClips_provenance in Hc as (st & (_ & _ & ->) & _).
  unfold scores_in_announced_ranges. simpl.
  pose proof (Hrand (draws st)).
  pose proof (Hrand (S (draws st))).
  pose proof (Hrand (S (S (draws st)))).
  repeat split; lra.
Qed.

(** C9.  When every random draw lies in [0, 1), every emitted clip has its
    engagement in [0.5, 1], its clarity in [0.7, 1] and its hook in
    [0.6, 1]. *)
Theorem suggestClips_score_ranges :
  forall (rand : nat -> Q) (transcript : Transcript) (options : ClipOptions),
    (forall k, 0 <= rand k /\ rand k < 1) ->
    Forall scores_in_announced_ranges (suggestClips rand transcript options).
Proof.
  intros rand transcript options Hrand.
  apply List.Forall_forall. intros c Hc.
  apply (emitted_scores_in_ranges rand transcript options); assumption.
Qed.

Lemma suggestClips_score_ranges_witness :
  Forall scores_in_announced_ranges
    (suggestClips rand_half transcript_every_5 options_short_300).
Proof.
  apply (suggestClips_score_ranges rand_half transcript_every_5
           options_short_300).
  intros k. unfold rand_half. split; Qconst.
Defined.

(** ** C10: termination and the cap on the number of clips *)

(** C10.  For every input the loop stops: the index grows by one in each
    iteration, ten iterations are always enough, the guard is false in the
    final state, and at most ten clips are returned. *)
Theorem suggestClips_terminates :
  forall (rand : nat -> Q) (transcript : Transcript) (options : ClipOptions),
    let final := suggest_loop rand transcript options (loop_init options) in
    (forall st, clipIndex (loop_body rand transcript options st)
                = S (clipIndex st))
    /\ (forall fuel, (10 <= fuel)%nat ->
          run_loop fuel rand transcript options (loop_init options)
          = Some final)
    /\ loop_guard options final = false
    /\ (clipIndex final <= 10)%nat
    /\ (List.length (suggestClips rand transcript options) <= 10)%nat.
Proof.
  intros rand transcript options final.
  destruct (suggest_loop_invariant rand transcript options counted
              (counted_step rand transcript options)
              (loop_init options) (counted_init options))
    as [(Hidx & Hlen & _) Hguard].
  split; [reflexivity|].
  split; [|split; [exact Hguard|split; [exact Hidx|]]].
  - intros fuel Hfuel. apply run_loop_enough. simpl. lia.
  - unfold suggestClips. lia.
Qed.

(** The cursor of this run moves backwards, away from the window end, and
    the loop still stops after ten iterations. *)
Lemma suggestClips_terminates_witness :
  run_loop 10 rand_half transcript_one_long options_negative_max
    (loop_init options_negative_max)
  = Some (suggest_loop rand_half transcript_one_long options_negative_max
            (loop_init options_negative_max))
  /\ currentStart (suggest_loop rand_half transcript_one_long
                     options_negative_max (loop_init options_negative_max))
     < Options.timeStartSec options_negative_max.
Proof.
  split.
  - apply (proj1 (proj2 (suggestClips_terminates rand_half transcript_one_long
                           options_negative_max))).
    lia.
  - vm_compute. reflexivity.
Defined.

(** ** C8: what the scores depend on *)

Section TwoRuns.
Variable rand1 rand2 : nat -> Q.
Variable transcript : Transcript.
Variable options : ClipOptions.

(** Relational rule for two runs of the loop on the same transcript and
    options: a relation that forces equal guards and is preserved by the
    two bodies relates the two final states. *)
Lemma suggest_loop_relation (R : LoopState -> LoopState -> Prop) :
  (forall a b, R a b ->
     loop_guard options a = loop_guard options b
     /\ clipIndex a = clipIndex b) ->
  (forall a b, R a b -> loop_guard options a = true ->
     R (loop_body rand1 transcript options a)
       (loop_body rand2 transcript options b)) ->
  forall a b, R a b ->
    R (suggest_loop rand1 transcript options a)
      (suggest_loop rand2 transcript options b).
Proof.
  intros Hguard Hstep a.
  remember (10 - clipIndex a)%nat as n eqn:Hn.
  revert a Hn.
  induction n as [n IH] using lt_wf_ind.
  intros a Hn b HR.
  rewrite (suggest_loop_eq rand1), (suggest_loop_eq rand2).
  destruct (Hguard a b HR) as [Hg _]. rewrite <- Hg.
  destruct (loop_guard options a) eqn:Ha; [|exact HR].
  apply (IH (10 - clipIndex (loop_body rand1 transcript options a))%nat).
  - apply loop_guard_index in Ha. simpl. lia.
  - reflexivity.
  - apply Hstep; assumption.
Qed.

Lemma make_clip_same_but_scores a b segs :
  currentStart a = currentStart b -> clipIndex a = clipIndex b ->
  same_but_scores (make_clip rand1 options a segs)
                  (make_clip rand2 options b segs).
Proof.
  intros Hcur Hidx. unfold same_but_scores, make_clip, clip_duration; simpl.
  rewrite Hcur, Hidx. repeat split.
Qed.

Lemma lockstep_guard a b :
  lockstep a b ->
  loop_guard options a = loop_guard options b /\ clipIndex a = clipIndex b.
Proof.
  intros (Hcur & Hidx & _). unfold loop_guard. rewrite Hcur, Hidx.
  split; reflexivity.
Qed.

Lemma lockstep_step a b :
  lockstep a b -> loop_guard options a = true ->
  lockstep (loop_body rand1 transcript options a)
           (loop_body rand2 transcript options b).
Proof.
  intros (Hcur & Hidx & Hdraws & Hclips) _.
  unfold lockstep. rewrite !loop_body_clips. simpl.
  unfold relevantSegments, clip_duration. rewrite Hcur, Hidx, Hdraws.
  repeat split.
  destruct (0 <? List.length _)%nat; [|exact Hclips].
  apply Forall2_app; [exact Hclips|].
  constructor; [|constructor].
  apply make_clip_same_but_scores; assumption.
Qed.

(** While the counters are consistent, an iteration only reads draws
    number 0 to 29. *)
Lemma loop_body_agree st :
  (forall k, (k < 30)%nat -> rand1 k = rand2 k) ->
  counted st -> loop_guard options st = true ->
  loop_body rand1 transcript options st = loop_body rand2 transcript options st.
Proof.
  intros Hagree (_ & Hlen & Hdraws) Hg. apply loop_guard_index in Hg.
  unfold loop_body, make_clip. simpl.
  rewrite !(Hagree (draws st)), !(Hagree (S (draws st))),
    !(Hagree (S (S (draws st)))) by lia.
  reflexivity.
Qed.
End TwoRuns.

(** C8, as amended.  The scores are not a function of the transcript and
    the options: each is an affine image of a fresh [Math.random()] draw.
    Two invocations on the same transcript and options return the same
    clips up to the scores; they return identical score triples when their
    first thirty draws coincide; and every score component lies in [0, 1]
    when the draws lie in [0, 1). *)
Theorem suggestClips_scores_follow_draws :
  forall (rand1 rand2 : nat -> Q) (transcript : Transcript)
         (options : ClipOptions),
    Forall2 same_but_scores
      (suggestClips rand1 transcript options)
      (suggestClips rand2 transcript options)
    /\ ((forall k, (k < 30)%nat -> rand1 k = rand2 k) ->
        suggestClips rand1 transcript options
        = suggestClips rand2 transcript options)
    /\ ((forall k, 0 <= rand1 k /\ rand1 k < 1) ->
        Forall scores_in_unit_interval (suggestClips rand1 transcript options)).
Proof.
  intros rand1 rand2 transcript options. split; [|split].
  - unfold suggestClips.
    apply (suggest_loop_relation rand1 rand2 transcript options lockstep
             (lockstep_guard options)
             (lockstep_step rand1 rand2 transcript options)).
    repeat split. constructor.
  - intros Hagree. unfold suggestClips. f_equal.
    apply (suggest_loop_relation rand1 rand2 transcript options
             (fun a b => a = b /\ counted a)).
    + intros a b [-> _]. split; reflexivity.
    + intros a b [<- Hc] Hg. split.
      * apply loop_body_agree; assumption.
      * apply counted_step; assumption.
    + split; [reflexivity | apply counted_init].
  - intros Hrand. apply List.Forall_forall. intros c Hin.
    destruct (emitted_scores_in_ranges rand1 transcript options c Hrand Hin)
      as (He & Hc & Hh).
    unfold scores_in_unit_interval, unit_interval. repeat split; lra.
Qed.

Lemma suggestClips_scores_follow_draws_witness :
  suggestClips rand_half transcript_every_5 options_short_300
  = suggestClips rand_half_then_zero transcript_every_5 options_short_300
  /\ Forall scores_in_unit_interval
       (suggestClips rand_half transcript_every_5 options_short_300).
Proof.
  destruct (suggestClips_scores_follow_draws rand_half rand_half_then_zero
              transcript_every_5 options_short_300) as (_ & Hsame & Hunit).
  split.
  - apply Hsame. intros k Hk. unfold rand_half, rand_half_then_zero.
    destruct (Nat.ltb_spec k 30); [reflexivity | lia].
  - apply Hunit. intros k. unfold rand_half. split; Qconst.
Defined.

(** C8 fails as stated: two invocations on the same transcript and
    options, one drawing 0 and one drawing 1/2 every time, score the first
    clip 0.5 and 0.75 for engagement. *)
Lemma suggestClips_scores_counterexample :
  exists c1 c2,
    nth_error (suggestClips rand_zero transcript_every_5 options_short_300) 0
      = Some c1
    /\ nth_error (suggestClips rand_half transcript_every_5 options_short_300) 0
      = Some c2
    /\ (forall k, 0 <= rand_zero k /\ rand_zero k < 1)
    /\ (forall k, 0 <= rand_half k /\ rand_half k < 1)
    /\ ~ (Scores.engagement (Clip.scores c1)
          == Scores.engagement (Clip.scores c2)).
Proof.
  eexists. eexists.
  split; [vm_compute; reflexivity|].
  split; [vm_compute; reflexivity|].
  split; [intros k; split; Qconst|].
  split; [intros k; split; Qconst|].
  intros H. vm_compute in H. discriminate H.
Qed.

(** ** A window in which nothing is said *)

Lemma relevantSegments_silent transcript options st :
  0 < maxDuration options ->
  silent_window transcript options ->
  Options.timeStartSec options <= currentStart st ->
  loop_guard options st = true ->
  relevantSegments transcript options st = [].
Proof.
  intros Hmax Hsilent Hstart Hg.
  apply loop_guard_cursor in Hg.
  unfold relevantSegments.
  rewrite (List.filter_ext_in _ (fun _ => false)); [apply List.filter_false|].
  intros seg Hseg.
  destruct (overlaps _ _ seg) eqn:Hov; [|reflexivity].
  apply overlaps_spec in Hov as [Hov1 Hov2].
  assert (Hdur : clip_duration options st
                 <= Qmax (minDuration options)
                      (Options.timeEndSec options - currentStart st))
    by (unfold clip_duration; apply Q.le_min_r).
  destruct (Hsilent seg Hseg) as [Hleft | Hright]; [lra|].
  destruct (Q.max_spec (minDuration options)
              (Options.timeEndSec options - currentStart st)) as [[_ Hm]|[_ Hm]];
  destruct (Q.max_spec 0 (minDuration options)) as [[? Hz]|[? Hz]];
    rewrite Hm in Hdur; rewrite Hz in Hright; lra.
Qed.

Lemma suggestClips_silent rand transcript options :
  0 < maxDuration options ->
  silent_window transcript options ->
  suggestClips rand transcript options = [].
Proof.
  intros Hmax Hsilent. unfold suggestClips.
  destruct (suggest_loop_invariant rand transcript options
              (fun st => clips st = []
                         /\ Options.timeStartSec options <= currentStart st))
    with (st := loop_init options) as [[Hnil _] _].
  - intros st [Hnil Hstart] Hg. split.
    + rewrite loop_body_clips.
      rewrite (relevantSegments_silent transcript options st Hmax Hsilent
                 Hstart Hg).
      exact Hnil.
    + pose proof (clip_duration_pos options st Hmax Hg). simpl. lra.
  - split; [reflexivity | simpl; lra].
  - exact Hnil.
Qed.

(** The span of a short window reaches past the window end, so a segment
    that lies wholly after the window still yields a clip. *)
Example suggestClips_overshoot_catches_segment :
  List.map (fun c => (Clip.startSec c, Clip.endSec c))
    (suggestClips rand_half transcript_after_window options_short_5)
  = [(0, 10)].
Proof. vm_compute. reflexivity. Qed.

(** The scenario of the specification: window [0, 300), preset short, one
    segment per five seconds.  Ten clips of 25 seconds, five seconds
    apart. *)
Example suggestClips_scenario_short_300 :
  List.map (fun c => (Clip.id c, Clip.startSec c, Clip.endSec c))
    (suggestClips rand_half transcript_every_5 options_short_300)
  = [("clip-1", 0, 25); ("clip-2", 30, 55); ("clip-3", 60, 85);
     ("clip-4", 90, 115); ("clip-5", 120, 145); ("clip-6", 150, 175);
     ("clip-7", 180, 205); ("clip-8", 210, 235); ("clip-9", 240, 265);
     ("clip-10", 270, 295)].
Proof. vm_compute. reflexivity. Qed.

(** ** The mock transcript always yields a clip *)

Lemma transcribe_mock_first startSec endSec :
  startSec < endSec ->
  exists rest,
    segments (transcribe_mock startSec endSec)
    = mockSegment startSec endSec 0 :: rest.
Proof.
  intros Hwin. unfold transcribe_mock. cbn [segments].
  set (count := Qceiling ((endSec - startSec) / segmentDuration)).
  assert (Hn : (0 < count)%Z).
  { rewrite Zlt_Qlt.
    apply Qlt_le_trans with ((endSec - startSec) / segmentDuration).
    - change (inject_Z 0) with 0. unfold segmentDuration.
      apply Qlt_shift_div_l; lra.
    - apply Qle_ceiling. }
  destruct (Z.to_nat count) as [|n] eqn:Hceil; [lia|].
  cbn [seq List.map]. eexists. reflexivity.
Qed.

(** With the mock transcript, a proper window and a positive maximum
    duration, the first iteration emits a clip: the pipeline of the
    repository never ends with an empty clip list on such an input. *)
Lemma suggestClips_mock_not_empty rand options :
  Options.timeStartSec options < Options.timeEndSec options ->
  0 < maxDuration options ->
  suggestClips rand
    (transcribe_mock (Options.timeStartSec options) (Options.timeEndSec options))
    options
  <> [].
Proof.
  intros Hwin Hmax.
  set (transcript := transcribe_mock _ _).
  assert (Hg : loop_guard options (loop_init options) = true).
  { unfold loop_guard. simpl. rewrite andb_true_r. apply Qltb_lt. exact Hwin. }
  unfold suggestClips. rewrite suggest_loop_eq, Hg.
  apply (suggest_loop_invariant rand transcript options
           (fun st => clips st <> [])).
  - intros st Hne _. rewrite loop_body_clips.
    destruct (0 <? List.length _)%nat; [|exact Hne].
    intros Happ. apply app_eq_nil in Happ as [_ Hnil]. discriminate Hnil.
  - rewrite loop_body_clips.
    destruct (transcribe_mock_first _ _ Hwin) as [rest Hsegs].
    pose proof (clip_duration_pos options (loop_init options) Hmax Hg) as Hpos.
    assert (Hov : overlaps (Options.timeStartSec options)
                    (Options.timeStartSec options
                     + clip_duration options (loop_init options))
                    (mockSegment (Options.timeStartSec options)
                       (Options.timeEndSec options) 0) = true).
    { apply overlaps_spec. unfold mockSegment, segmentDuration. simpl.
      change (inject_Z (Z.of_nat 0)) with 0.
      split; [lra|]. apply Q.min_glb_lt; lra. }
    unfold relevantSegments. fold transcript in Hsegs. rewrite Hsegs.
    simpl List.filter. simpl currentStart. rewrite Hov. simpl.
    intros Happ. discriminate Happ.
Qed.

(** * Properties of the pipeline *)

(** ** Running the monad *)

Lemma bind_OK {A B} (m : M A) (k : A -> M B) w a w' :
  m w = (OK a, w') -> bind m k w = k a w'.
Proof. unfold bind. intros ->. reflexivity. Qed.

Section Stable.
Context {X : Type} (f : World -> X).

Lemma stable_ret {A} (a : A) : stable f (ret a).
Proof. intros w. reflexivity. Qed.

Lemma stable_lift {A} (r : Exc A) : stable f (lift r).
Proof. intros w. reflexivity. Qed.

Lemma stable_reads {A} (g : World -> A) : stable f (reads g).
Proof. intros w. reflexivity. Qed.

Lemma stable_effect (g : World -> World) :
  (forall w, f (g w) = f w) -> stable f (effect g).
Proof. intros Hg w. apply Hg. Qed.

Lemma stable_bind {A B} (m : M A) (k : A -> M B) :
  stable f m -> (forall a, stable f (k a)) -> stable f (bind m k).
Proof.
  intros Hm Hk w. unfold bind.
  specialize (Hm w). destruct (m w) as [[a|message] w']; simpl in *.
  - rewrite Hk. exact Hm.
  - exact Hm.
Qed.

Lemma stable_try_catch {A} (body : M A) (handler : string -> M A) :
  stable f body -> (forall message, stable f (handler message)) ->
  stable f (try_catch body handler).
Proof.
  intros Hb Hh w. unfold try_catch.
  specialize (Hb w). destruct (body w) as [[a|message] w']; simpl in *.
  - exact Hb.
  - rewrite Hh. exact Hb.
Qed.

Lemma stable_for_of {A} (xs : list A) (body : A -> M unit) :
  (forall x, stable f (body x)) -> stable f (for_of xs body).
Proof.
  intros Hbody. induction xs as [|x xs IH]; simpl.
  - apply stable_ret.
  - apply stable_bind; [apply Hbody | intros _; exact IH].
Qed.

Lemma stable_run_finish ext command outputPath done failed rejected :
  (forall w fs, f (set_files w fs) = f w) ->
  (forall w line, f (printed w line) = f w) ->
  stable f (VideoProcessor.run_finish ext command outputPath done failed rejected).
Proof.
  intros Hfiles Hprinted w. unfold VideoProcessor.run_finish.
  destruct (transcoder ext command); simpl.
  - rewrite Hprinted.
    destruct (transcoder_leaves_output ext command); [apply Hfiles | reflexivity].
  - rewrite Hprinted. apply Hfiles.
Qed.

Lemma stable_cleanup filePath :
  (forall w fs, f (set_files w fs) = f w) ->
  (forall w line, f (printed w line) = f w) ->
  stable f (VideoProcessor.cleanup filePath).
Proof.
  intros Hfiles Hprinted. apply stable_effect. intros w.
  destruct (decide (filePath ∈ files w)); [|reflexivity].
  rewrite Hprinted. apply Hfiles.
Qed.

Lemma stable_save ext :
  (forall w d, f (set_dbFile w d) = f w) ->
  (forall w, f (tear_dbFile w) = f w) ->
  stable f (Db.save ext).
Proof.
  intros Hfile Htorn w. unfold Db.save.
  destruct (writeFileSync_error ext (dbData w)); simpl.
  - destruct (writeFileSync_opens ext (dbData w)); [apply Htorn | reflexivity].
  - apply Hfile.
Qed.
End Stable.

Lemma bind_snd_stable {A B X} (f : World -> X) (m : M A) (k : A -> M B) w :
  (forall a, stable f (k a)) -> f (snd (bind m k w)) = f (snd (m w)).
Proof.
  intros Hk. unfold bind. destruct (m w) as [[a|message] w']; simpl.
  - apply Hk.
  - reflexivity.
Qed.

(** Decomposes a goal [stable f m] along the structure of [m]. *)
Ltac stable_steps :=
  repeat first
    [ apply stable_bind; [|intros ?]
    | apply stable_reads
    | apply stable_lift
    | apply stable_effect; intros ?; reflexivity
    | apply stable_run_finish; intros; reflexivity
    | apply stable_cleanup; intros; reflexivity
    | apply stable_for_of; intros ?; unfold Db.createClip
    | apply stable_save; intros; reflexivity
    | (intros ?; reflexivity) ].

(** ** What [processVideoAsync] leaves alone *)

Lemma processVideo_body_job_side factory ext jobId videoPath options :
  stable job_side (processVideo_body factory ext jobId videoPath options).
Proof.
  unfold processVideo_body, VideoProcessor.extractAudio, console_log.
  stable_steps.
Qed.

Lemma processVideoAsync_job_side factory ext jobId videoPath options metadata
    sourcePlatform :
  stable job_side
    (processVideoAsync_with factory ext jobId videoPath options metadata
       sourcePlatform).
Proof.
  unfold processVideoAsync_with. apply stable_try_catch.
  - apply processVideo_body_job_side.
  - intros message. apply stable_effect. intros w. reflexivity.
Qed.

(** The promise of [processVideoAsync] never rejects. *)
Lemma processVideoAsync_never_throws factory ext jobId videoPath options
    metadata sourcePlatform w :
  fst (processVideoAsync_with factory ext jobId videoPath options metadata
         sourcePlatform w) = OK tt.
Proof.
  unfold processVideoAsync_with, try_catch.
  destruct (processVideo_body factory ext jobId videoPath options w)
    as [[[]|message] w']; reflexivity.
Qed.

(** The job rows, and so the status of every job, are the same before and
    after [processVideoAsync], whatever happened in between. *)
Lemma processVideoAsync_keeps_status factory ext jobId videoPath options
    metadata sourcePlatform w someJob :
  job_status someJob
    (snd (processVideoAsync_with factory ext jobId videoPath options metadata
            sourcePlatform w))
  = job_status someJob w.
Proof.
  pose proof (processVideoAsync_job_side factory ext jobId videoPath options
                metadata sourcePlatform w) as Hside.
  unfold job_side in Hside. injection Hside as Hjobs _ _.
  unfold job_status, Db.getJob. rewrite Hjobs. reflexivity.
Qed.

(** ** C3: a job whose window yields no clip *)

(** The run of [processVideoAsync] when the extraction succeeds, the
    provider is made, the transcript arrives and no clip is suggested. *)
Lemma processVideo_body_no_clip factory ext jobId videoPath options w
    provider transcript :
  transcoder ext (extractAudio_command videoPath (audioPath_of w jobId)) = None ->
  factory (env w) = OK provider ->
  AIProvider.transcribe provider (audioPath_of w jobId)
    (Options.timeStartSec options) (Options.timeEndSec options)
  = OK transcript ->
  AIProvider.suggestClips provider (random ext) transcript options = OK [] ->
  exists w',
    processVideo_body factory ext jobId videoPath options w = (OK tt, w')
    /\ dbData w' = dbData w
    /\ dbFile w' = dbFile w
    /\ files w' = (files w ∪ {[audioPath_of w jobId]}) ∖ {[audioPath_of w jobId]}
    /\ last (console w')
       = Some (Log ("Video processing completed for job " ++ jobId)).
Proof.
  intros Hrun Hfactory Htranscribe Hsuggest.
  unfold processVideo_body, VideoProcessor.extractAudio,
    VideoProcessor.run_finish, VideoProcessor.cleanup, console_log, effect,
    reads, lift, bind.
  cbn [fst snd cwd env files dbData dbFile console printed set_files started
       VideoProcessor.run_start].
  fold (audioPath_of w jobId).
  rewrite Hrun.
  cbn [fst snd cwd env files dbData dbFile console printed set_files started
       VideoProcessor.run_start].
  rewrite Hfactory, Htranscribe, Hsuggest.
  cbn [for_of ret fst snd cwd env files dbData dbFile console printed
       set_files started VideoProcessor.run_start].
  destruct (decide _) as [_|Hnot]; [|exfalso; apply Hnot; set_solver].
  eexists. split; [reflexivity|].
  cbn [dbData dbFile files console printed set_files started].
  repeat split. apply last_snoc.
Qed.



(** The same through the routes: [POST /analyze] accepts the request and
    runs the processing, and [GET /job/:jobId] then reports the job as
    [processing] with an empty clip list. *)
Example analyze_no_clip_stays_processing :
  let accepted :=
    analyze externals_fine source_talk options_negative_max_30 world_empty in
  let reported := job_handler externals_fine "job-2" (snd accepted) in
  (exists body,
     fst accepted = JsonAnalyze body /\ AnalyzeResponse.jobId body = "job-2")
  /\ last (console (snd accepted))
     = Some (Log "Video processing completed for job job-2")
  /\ exists body,
       fst reported = JobJson body
       /\ JobStatus.status body = "processing"
       /\ JobStatus.clips body = [].
Proof.
  split; [eexists; split; vm_compute; reflexivity|].
  split; [vm_compute; reflexivity|].
  eexists. split; [vm_compute; reflexivity|]. split; reflexivity.
Qed.

(** ** C4: a stage that fails *)

(** C4, at the code.  When a stage of [processVideoAsync] throws, the
    [catch] block prints one line and nothing else: the promise does not
    reject and the later stages have not run, but the status of the job is
    what it was, so a job that was [processing] is not [failed], and no
    reason is recorded in the store. *)
Theorem processVideo_failure_not_recorded :
  forall (factory : ProcessEnv -> Exc AIProvider.t) (ext : Externals)
         (jobId videoPath : string) (options : ClipOptions)
         (metadata : VideoMetadata.t) (sourcePlatform : string)
         (w w1 : World) (message : string),
    let result :=
      processVideoAsync_with factory ext jobId videoPath options metadata
        sourcePlatform w in
    processVideo_body factory ext jobId videoPath options w
      = (Throw message, w1) ->
    fst result = OK tt
    /\ dbData (snd result) = dbData w1
    /\ job_status jobId (snd result) = job_status jobId w
    /\ last (console (snd result))
       = Some (Error ("Video processing failed for job " ++ jobId ++ ": "
                        ++ message)).
Proof.
  intros factory ext jobId videoPath options metadata sourcePlatform w w1
    message result Hbody.
  split; [apply processVideoAsync_never_throws|].
  split; [|split].
  - unfold result, processVideoAsync_with, try_catch. rewrite Hbody.
    reflexivity.
  - apply processVideoAsync_keeps_status.
  - unfold result, processVideoAsync_with, try_catch. rewrite Hbody.
    unfold processVideo_catch, console_error, effect. simpl.
    apply last_snoc.
Qed.

(** The transcoder fails while the audio is extracted: no clip is stored,
    the job is still [processing]. *)
Lemma processVideo_failure_not_recorded_witness :
  let result :=
    processVideoAsync externals_no_transcoder "job-1"
      "/srv/temp/uploads/talk.mp4" options_short_300 metadata_300 "file"
      world_one_job in
  fst result = OK tt
  /\ JsonDbShape.clips (dbData (snd result)) = []
  /\ job_status "job-1" (snd result) = Some "processing"
  /\ last (console (snd result))
     = Some (Error "Video processing failed for job job-1: Failed to extract audio: ffmpeg exited with code 1").
Proof.
  destruct (processVideo_failure_not_recorded createAIProvider
              externals_no_transcoder "job-1" "/srv/temp/uploads/talk.mp4"
              options_short_300 metadata_300 "file" world_one_job
              (snd (processVideo_body createAIProvider externals_no_transcoder
                      "job-1" "/srv/temp/uploads/talk.mp4" options_short_300
                      world_one_job))
              "Failed to extract audio: ffmpeg exited with code 1")
    as (Hok & Hdb & Hstatus & Hlast).
  - vm_compute. reflexivity.
  - split; [exact Hok|]. split; [|split].
    + unfold processVideoAsync. rewrite Hdb. vm_compute. reflexivity.
    + exact Hstatus.
    + exact Hlast.
Defined.

(** The same for a provider whose transcription fails, for a missing key,
    and for a database file that cannot be written. *)
Example processVideo_other_failures :
  job_status "job-1"
    (snd (processVideoAsync_with (fun _ => OK deaf_provider) externals_fine
            "job-1" "/srv/temp/uploads/talk.mp4" options_short_300
            metadata_300 "file" world_one_job))
  = Some "processing"
  /\ job_status "job-1"
       (snd (processVideoAsync externals_disk_full "job-1"
               "/srv/temp/uploads/talk.mp4" options_short_300 metadata_300
               "file" world_one_job))
     = Some "processing"
  /\ last (console
             (snd (processVideoAsync externals_disk_full "job-1"
                     "/srv/temp/uploads/talk.mp4" options_short_300
                     metadata_300 "file" world_one_job)))
     = Some (Error "Video processing failed for job job-1: ENOSPC: no space left on device").
Proof. repeat split; vm_compute; reflexivity. Qed.

(** ** C7: the extraction and the time window *)

(** The only transcoder run of [processVideoAsync] is the extraction, and
    its command depends on the two paths alone. *)
Lemma processVideoAsync_runs factory ext jobId videoPath options metadata
    sourcePlatform w :
  ffmpegRuns
    (snd (processVideoAsync_with factory ext jobId videoPath options metadata
            sourcePlatform w))
  = (ffmpegRuns w ++ [extractAudio_command videoPath (audioPath_of w jobId)])%list.
Proof.
  unfold processVideoAsync_with, try_catch.
  assert (Hbody :
    ffmpegRuns (snd (processVideo_body factory ext jobId videoPath options w))
    = (ffmpegRuns w
       ++ [extractAudio_command videoPath (audioPath_of w jobId)])%list).
  { unfold processVideo_body.
    rewrite (bind_OK _ _ w tt
               (printed w (Log ("Starting video processing for job " ++ jobId))))
      by reflexivity.
    rewrite (bind_OK _ _ _ (path_join (path_join (cwd w) "temp") "audio")
               (printed w (Log ("Starting video processing for job " ++ jobId))))
      by reflexivity.
    rewrite bind_snd_stable.
    - unfold VideoProcessor.extractAudio, VideoProcessor.run_finish, bind,
        effect. simpl.
      destruct (transcoder ext _);
        [destruct (transcoder_leaves_output ext _)|]; reflexivity.
    - intros _. unfold console_log. stable_steps. }
  destruct (processVideo_body factory ext jobId videoPath options w)
    as [[[]|message] w1]; simpl in *; exact Hbody.
Qed.

(** *** What the analyze route does with a degenerate window *)

Lemma analyze_resolve_stable ext source jobId :
  stable (fun w => (ffmpegRuns w, dbData w)) (analyze_resolve ext source jobId).
Proof.
  unfold analyze_resolve. destruct (Source.type source).
  - apply stable_bind; [apply stable_reads | intros uploadDir].
    apply stable_bind; [apply stable_lift | intros names].
    destruct (List.filter _ names); apply stable_ret.
  - apply stable_bind; [apply stable_reads | intros downloadDir].
    apply stable_try_catch.
    + unfold console_error. stable_steps.
    + intros message. unfold console_error. stable_steps.
Qed.

Lemma analyze_resolve_answer ext source jobId w response w1 :
  analyze_resolve ext source jobId w = (OK (inl response), w1) ->
  exists status error, response = Json status error.
Proof.
  unfold analyze_resolve, bind, reads, lift, try_catch, console_error, effect,
    ret.
  destruct (Source.type source).
  - destruct (readdirSync ext _) as [names|message]; [|discriminate].
    destruct (List.filter _ names); intros Heq; [|discriminate].
    injection Heq as <- _. eexists. eexists. reflexivity.
  - destruct (downloadFromUrl ext _ _) as [videoPath|message].
    + destruct (url_hostname ext _); intros Heq; [discriminate|].
      injection Heq as <- _. eexists. eexists. reflexivity.
    + intros Heq. injection Heq as <- _. eexists. eexists. reflexivity.
Qed.

(** A window with [timeEndSec <= timeStartSec] never gets past the
    validation of the route: no job is created and no transcoder is run,
    and once the source and its metadata are there the answer is
    400 [INVALID_SOURCE]. *)
Lemma analyze_rejects_degenerate ext source options w :
  Options.timeEndSec options <= Options.timeStartSec options ->
  let result := analyze ext source options w in
  ffmpegRuns (snd result) = ffmpegRuns w
  /\ dbData (snd result) = dbData w
  /\ (forall body, fst result <> JsonAnalyze body)
  /\ (forall videoPath sourcePlatform metadata w1,
        AnalyzeRequestSchema_accepts source options = true ->
        analyze_resolve ext source (uuidv4 ext) w
          = (OK (inr (videoPath, sourcePlatform)), w1) ->
        ffprobe ext videoPath = OK metadata ->
        fst result
        = Json 400 {| errorCode := INVALID_SOURCE;
                      message := "Invalid time range specified" |}).
Proof.
  intros Hdegenerate result. apply Qle_bool_iff in Hdegenerate.
  unfold result, analyze, analyze_body.
  destruct (AnalyzeRequestSchema_accepts source options);
    [|simpl; repeat split; discriminate].
  pose proof (analyze_resolve_stable ext source (uuidv4 ext) w) as Hstable.
  pose proof (analyze_resolve_answer ext source (uuidv4 ext) w) as Hanswer.
  unfold bind.
  destruct (analyze_resolve ext source (uuidv4 ext) w)
    as [[[response | [videoPath sourcePlatform]] | message] w1];
    simpl in Hstable; injection Hstable as Hruns Hdb.
  - destruct (Hanswer response w1 eq_refl) as (status & error & ->).
    simpl. repeat split; try assumption; discriminate.
  - unfold lift. rewrite Hdegenerate.
    destruct (ffprobe ext videoPath) as [metadata | message] eqn:Hprobe;
      simpl; (split; [assumption|]); (split; [assumption|]);
      (split; [discriminate|]).
    + intros ? ? ? ? _ _ _. reflexivity.
    + intros vp sp md w2 _ Hresolved Hprobe'.
      injection Hresolved as <- _ _. rewrite Hprobe in Hprobe'.
      discriminate Hprobe'.
  - simpl. repeat split; try assumption; discriminate.
Qed.

(** C7, as amended.  [extractAudio] is given the source and the output
    path and no time window.  The command it runs, which is the only
    transcoder run of [processVideoAsync] whatever the options say, neither
    seeks nor limits the duration, so the audio artifact covers the whole
    source.  The promise resolves, with the artifact written, when the
    transcoder ends without an error, and rejects with
    [Failed to extract audio: ...] when the transcoder reports an error;
    the output file exists then if the run had created it, and nothing
    removes it.  The window plays no part.  A request with a degenerate
    window never reaches the extraction: the analyze route creates no job
    and runs no transcoder for it, and once the request has passed the
    schema and the source and its metadata are there, the answer is
    400 [INVALID_SOURCE] with the message [Invalid time range specified]. *)
Theorem extractAudio_ignores_window :
  forall (factory : ProcessEnv -> Exc AIProvider.t) (ext : Externals)
         (jobId videoPath : string) (options : ClipOptions)
         (metadata : VideoMetadata.t) (sourcePlatform : string)
         (w : World),
    let audioPath := audioPath_of w jobId in
    let command := extractAudio_command videoPath audioPath in
    let extraction := VideoProcessor.extractAudio ext videoPath audioPath w in
    ffmpegRuns
      (snd (processVideoAsync_with factory ext jobId videoPath options
              metadata sourcePlatform w))
    = (ffmpegRuns w ++ [command])%list
    /\ cmd_input command = videoPath
    /\ cmd_options command
       = [NoVideo; AudioCodec "mp3"; AudioBitrate "128k"; Output audioPath]
    /\ bounded_to_window command = false
    /\ (transcoder ext command = None ->
        fst extraction = OK tt
        /\ files (snd extraction) = files w ∪ {[audioPath]})
    /\ (forall message, transcoder ext command = Some message ->
        fst extraction = Throw ("Failed to extract audio: " ++ message)
        /\ files (snd extraction)
           = if transcoder_leaves_output ext command
             then files w ∪ {[audioPath]} else files w)
    /\ (forall source,
        Options.timeEndSec options <= Options.timeStartSec options ->
        let result := analyze ext source options w in
        ffmpegRuns (snd result) = ffmpegRuns w
        /\ dbData (snd result) = dbData w
        /\ (forall body, fst result <> JsonAnalyze body)
        /\ (forall source_path source_platform source_metadata w1,
              AnalyzeRequestSchema_accepts source options = true ->
              analyze_resolve ext source (uuidv4 ext) w
                = (OK (inr (source_path, source_platform)), w1) ->
              ffprobe ext source_path = OK source_metadata ->
              fst result
              = Json 400 {| errorCode := INVALID_SOURCE;
                            message := "Invalid time range specified" |})).
Proof.
  intros factory ext jobId videoPath options metadata sourcePlatform w
    audioPath command extraction.
  split; [apply processVideoAsync_runs|].
  split; [reflexivity|]. split; [reflexivity|]. split; [reflexivity|].
  unfold extraction, VideoProcessor.extractAudio, VideoProcessor.run_finish,
    bind, effect. simpl. fold audioPath. fold command.
  split; [|split].
  - intros ->. simpl. split; reflexivity.
  - intros message ->. simpl. split; [reflexivity|].
    destruct (transcoder_leaves_output ext command); reflexivity.
  - intros source Hdegenerate.
    exact (analyze_rejects_degenerate ext source options w Hdegenerate).
Qed.

Lemma extractAudio_ignores_window_witness :
  let extraction :=
    VideoProcessor.extractAudio externals_fine "/srv/temp/uploads/talk.mp4"
      "/srv/temp/audio/job-1.mp3" world_one_job in
  fst extraction = OK tt
  /\ files (snd extraction)
     = files world_one_job ∪ {["/srv/temp/audio/job-1.mp3"]}.
Proof.
  apply (extractAudio_ignores_window createAIProvider externals_fine "job-1"
           "/srv/temp/uploads/talk.mp4" options_short_300 metadata_300 "file"
           world_one_job).
  reflexivity.
Defined.

(** C7 fails as stated.  A request for the window from 3600 to 3900 of a
    video of two hours is accepted, and the one transcoder run that it
    causes is the extraction, with a command that is not bounded to any
    window.  A request for the degenerate window that starts at 100 and
    ends at 50 is answered with 400 [INVALID_SOURCE] before any extraction
    is tried: no transcoder run, and no extraction that fails. *)
Lemma extractAudio_unbounded_counterexample :
  let accepted :=
    analyze externals_long source_long_url options_second_hour
      world_one_job in
  let refused :=
    analyze externals_fine source_talk options_degenerate world_one_job in
  let command :=
    extractAudio_command "/srv/temp/downloads/job-2.mp4"
      "/srv/temp/audio/job-2.mp3" in
  (exists body, fst accepted = JsonAnalyze body)
  /\ ffmpegRuns (snd accepted) = [command]
  /\ bounded_to_window command = false
  /\ Options.timeEndSec options_degenerate
       <= Options.timeStartSec options_degenerate
  /\ fst refused
     = Json 400 {| errorCode := INVALID_SOURCE;
                   message := "Invalid time range specified" |}
  /\ ffmpegRuns (snd refused) = [].
Proof.
  split; [eexists; vm_compute; reflexivity|].
  split; [vm_compute; reflexivity|].
  split; [reflexivity|].
  split; [Qconst|].
  split; vm_compute; reflexivity.
Qed.

(** The scenario of the specification: the window that starts at 100 and
    ends at 50 is answered with 400 [INVALID_SOURCE]; the store and the
    transcoder are not touched. *)
Example analyze_degenerate_window :
  let result :=
    analyze externals_fine
      {| Source.type := source_file; Source.fileId := Some "talk";
         Source.url := None |}
      options_degenerate world_one_job in
  fst result
  = Json 400 {| errorCode := INVALID_SOURCE;
                message := "Invalid time range specified" |}
  /\ dbData (snd result) = dbData world_one_job
  /\ ffmpegRuns (snd result) = [].
Proof. repeat split; vm_compute; reflexivity. Qed.

(** A proper request creates the job with status [processing]; after the
    processing that it starts, the clips are stored and the status is
    what it was. *)
Example analyze_then_status :
  let result :=
    analyze externals_fine
      {| Source.type := source_file; Source.fileId := Some "talk";
         Source.url := None |}
      options_short_300 world_one_job in
  job_status "job-2" (snd result) = Some "processing"
  /\ List.length (Db.getClipsByJobId "job-2" (snd result)) = 10%nat
  /\ last (console (snd result))
     = Some (Log "Video processing completed for job job-2").
Proof. repeat split; vm_compute; reflexivity. Qed.

(** * Properties of the download handler *)

(** ** A change of one row and the search for a clip *)

Section RowChange.
Variable ref : nat.
Variable g : ClipRow.t -> ClipRow.t.
Hypothesis Hkeys : keeps_keys g.

Lemma at_row_keys (c : Db.RowRef) :
  ClipRow.id (snd (at_row ref g c)) = ClipRow.id (snd c)
  /\ ClipRow.jobId (snd (at_row ref g c)) = ClipRow.jobId (snd c)
  /\ ClipRow.startSec (snd (at_row ref g c)) = ClipRow.startSec (snd c).
Proof.
  unfold at_row. simpl. destruct (decide (fst c = ref)).
  - apply Hkeys.
  - repeat split.
Qed.

Lemma at_row_other (k : nat) (rows : list ClipRow.t) :
  (ref < k)%nat ->
  List.map (at_row ref g) (combine (seq k (List.length rows)) rows)
  = combine (seq k (List.length rows)) rows.
Proof.
  revert k. induction rows as [|row rows IH]; intros k Hk; simpl.
  - reflexivity.
  - rewrite IH by lia. unfold at_row at 1. simpl.
    destruct (decide (k = ref)); [lia | reflexivity].
Qed.

Lemma row_refs_alter_from (rows : list ClipRow.t) :
  forall k n, ref = (k + n)%nat ->
    combine (seq k (List.length (alter g n rows))) (alter g n rows)
    = List.map (at_row ref g) (combine (seq k (List.length rows)) rows).
Proof.
  induction rows as [|row rows IH]; intros k n Href.
  - reflexivity.
  - destruct n as [|n]; simpl.
    + rewrite at_row_other by lia. unfold at_row. simpl.
      destruct (decide (k = ref)); [reflexivity | lia].
    + change (list_alter g n rows) with (alter g n rows).
      rewrite (IH (S k) n) by lia. unfold at_row at 2. simpl.
      destruct (decide (k = ref)); [lia | reflexivity].
Qed.

Lemma row_refs_alter (rows : list ClipRow.t) :
  Db.row_refs (alter g ref rows) = List.map (at_row ref g) (Db.row_refs rows).
Proof. unfold Db.row_refs. apply row_refs_alter_from. reflexivity. Qed.

Lemma filter_at_row (jobId : string) (l : list Db.RowRef) :
  List.filter (fun c => String.eqb (ClipRow.jobId (snd c)) jobId)
    (List.map (at_row ref g) l)
  = List.map (at_row ref g)
      (List.filter (fun c => String.eqb (ClipRow.jobId (snd c)) jobId) l).
Proof.
  induction l as [|c l IH]; simpl.
  - reflexivity.
  - destruct (at_row_keys c) as (_ & Hjob & _).
    unfold at_row in Hjob. simpl in Hjob. rewrite Hjob.
    destruct (String.eqb _ jobId); simpl; rewrite IH; reflexivity.
Qed.

Lemma insert_at_row (c : Db.RowRef) (l : list Db.RowRef) :
  Db.insert_by_startSec (at_row ref g c) (List.map (at_row ref g) l)
  = List.map (at_row ref g) (Db.insert_by_startSec c l).
Proof.
  induction l as [|d l IH]; simpl.
  - reflexivity.
  - destruct (at_row_keys c) as (_ & _ & Hc).
    destruct (at_row_keys d) as (_ & _ & Hd).
    unfold at_row in Hc, Hd. simpl in Hc, Hd. rewrite Hc, Hd.
    destruct (Qle_bool _ _); simpl.
    + reflexivity.
    + rewrite IH. reflexivity.
Qed.

Lemma sort_at_row (l : list Db.RowRef) :
  Db.sort_by_startSec (List.map (at_row ref g) l)
  = List.map (at_row ref g) (Db.sort_by_startSec l).
Proof.
  unfold Db.sort_by_startSec. induction l as [|c l IH]; simpl.
  - reflexivity.
  - rewrite IH. apply insert_at_row.
Qed.

Lemma find_at_row (clipId : string) (l : list Db.RowRef) :
  List.find (has_id clipId) (List.map (at_row ref g) l)
  = option_map (at_row ref g) (List.find (has_id clipId) l).
Proof.
  induction l as [|c l IH]; simpl.
  - reflexivity.
  - unfold has_id at 1 3. destruct (at_row_keys c) as (Hid & _ & _).
    unfold at_row in Hid. simpl in Hid. simpl. rewrite Hid.
    destruct (String.eqb _ clipId); [reflexivity | exact IH].
Qed.
End RowChange.

Lemma with_clipFilePath_keeps_keys outputPath :
  keeps_keys (with_clipFilePath outputPath).
Proof. intros clip. repeat split. Qed.

(** The search of the handler finds the same row object after the
    assignment to its [clipFilePath], and sees the new value. *)
Lemma find_clip_set_clipFilePath jobId clipId ref outputPath w :
  find_clip jobId clipId (set_clipFilePath ref outputPath w)
  = option_map (at_row ref (with_clipFilePath outputPath))
      (find_clip jobId clipId w).
Proof.
  unfold find_clip, Db.getClipsByJobId, set_clipFilePath. simpl.
  pose proof (with_clipFilePath_keeps_keys outputPath) as Hkeys.
  rewrite row_refs_alter, filter_at_row, sort_at_row, find_at_row
    by exact Hkeys.
  reflexivity.
Qed.

(** ** The two halves of the handler *)

Lemma path_join_not_empty a b : exists c rest, path_join a b = String c rest.
Proof.
  unfold path_join. destruct a as [|c a]; simpl; eexists; eexists; reflexivity.
Qed.

Lemma renderable_same ext w w1 jobId clipId ref clip videoPath :
  dbData w1 = dbData w -> files w1 = files w -> cwd w1 = cwd w ->
  renderable ext w jobId clipId ref clip videoPath ->
  renderable ext w1 jobId clipId ref clip videoPath.
Proof.
  intros Hdb Hfiles Hcwd (Hfind & Hneeds & (job & Hjob & Hpath) & Hrun).
  unfold renderable, find_clip, Db.getClipsByJobId, needs_render, Db.getJob,
    download_params, clipPath_of in *.
  rewrite Hdb, Hfiles, Hcwd.
  split; [exact Hfind|]. split; [exact Hneeds|].
  split; [exists job; split; assumption | exact Hrun].
Qed.

(** A request for a clip that has to be rendered starts the transcoder and
    waits. *)
Lemma download_begin_renders ext w jobId clipId ref clip videoPath :
  renderable ext w jobId clipId ref clip videoPath ->
  download_begin jobId clipId w
  = (inr {| pending_clip := ref;
            pending_params := download_params w clipId videoPath clip |},
     VideoProcessor.createClip_start
       (download_params w clipId videoPath clip) w).
Proof.
  intros (Hfind & Hneeds & (job & Hjob & Hpath) & _).
  unfold download_begin. cbv zeta. unfold find_clip in Hfind.
  rewrite Hfind, Hneeds, Hjob, Hpath. reflexivity.
Qed.

(** When the transcoder is done without an error, the handler records the
    artifact on the row and sends the file. *)
Lemma download_resume_sends ext p w :
  transcoder ext (createClip_command (pending_params p)) = None ->
  download_resume ext p w
  = (SendFile (ClipParams.outputPath (pending_params p)),
     set_clipFilePath (pending_clip p) (ClipParams.outputPath (pending_params p))
       (printed
          (set_files w (files w ∪ {[ClipParams.outputPath (pending_params p)]}))
          (Log ("Clip created successfully: "
                  ++ ClipParams.outputPath (pending_params p))))).
Proof.
  intros Hrun.
  unfold download_resume, VideoProcessor.createClip_finish,
    VideoProcessor.run_finish.
  rewrite Hrun. reflexivity.
Qed.

(** A request for a clip whose artifact is recorded and on disk is
    answered at once, without the transcoder. *)
Lemma download_begin_reuses w jobId clipId ref clip outputPath :
  find_clip jobId clipId w = Some (ref, clip) ->
  ClipRow.clipFilePath clip = Some outputPath ->
  (exists c rest, outputPath = String c rest) ->
  outputPath ∈ files w ->
  download_begin jobId clipId w = (inl (SendFile outputPath), w).
Proof.
  intros Hfind Hpath (c & rest & ->) Hfile.
  unfold download_begin. cbv zeta. unfold find_clip in Hfind.
  rewrite Hfind. unfold needs_render. rewrite Hpath.
  rewrite bool_decide_eq_true_2 by exact Hfile. reflexivity.
Qed.

(** ** The steps of the server *)

(** Projects the fields of explicit worlds and servers, and nothing else. *)
Ltac world_simpl :=
  cbn [world pending responses ffmpegRuns files dbData dbFile cwd env console
       set_dbData set_dbFile set_files started printed set_clipFilePath
       VideoProcessor.createClip_start VideoProcessor.run_start
       pending_clip pending_params].

Lemma run_cons ext ev events s :
  run ext (ev :: events) s = run ext events (step ext s ev).
Proof. reflexivity. Qed.

Lemma run_nil ext s : run ext [] s = s.
Proof. reflexivity. Qed.

Lemma step_arrive_renders ext s request jobId clipId ref clip videoPath :
  renderable ext (world s) jobId clipId ref clip videoPath ->
  step ext s (Arrive request jobId clipId)
  = {| world :=
         VideoProcessor.createClip_start
           (download_params (world s) clipId videoPath clip) (world s);
       pending :=
         <[request :=
             {| pending_clip := ref;
                pending_params :=
                  download_params (world s) clipId videoPath clip |}]>
           (pending s);
       responses := responses s |}.
Proof.
  intros Hrender. unfold step.
  rewrite (download_begin_renders ext _ _ _ _ _ _ Hrender). reflexivity.
Qed.

Lemma step_arrive_reuses ext s request jobId clipId ref clip outputPath :
  find_clip jobId clipId (world s) = Some (ref, clip) ->
  ClipRow.clipFilePath clip = Some outputPath ->
  (exists c rest, outputPath = String c rest) ->
  outputPath ∈ files (world s) ->
  step ext s (Arrive request jobId clipId)
  = {| world := world s;
       pending := pending s;
       responses := (responses s ++ [(request, SendFile outputPath)])%list |}.
Proof.
  intros Hfind Hpath Hnonempty Hfile. unfold step.
  rewrite (download_begin_reuses _ _ _ _ _ _ Hfind Hpath Hnonempty Hfile).
  reflexivity.
Qed.

Lemma step_done_sends ext s request p :
  pending s !! request = Some p ->
  transcoder ext (createClip_command (pending_params p)) = None ->
  step ext s (EncodeDone request)
  = {| world :=
         set_clipFilePath (pending_clip p)
           (ClipParams.outputPath (pending_params p))
           (printed
              (set_files (world s)
                 (files (world s) ∪ {[ClipParams.outputPath (pending_params p)]}))
              (Log ("Clip created successfully: "
                      ++ ClipParams.outputPath (pending_params p))));
       pending := delete request (pending s);
       responses :=
         (responses s
          ++ [(request, SendFile (ClipParams.outputPath (pending_params p)))])%list |}.
Proof.
  intros Hpending Hrun. unfold step. rewrite Hpending.
  rewrite (download_resume_sends ext p _ Hrun). reflexivity.
Qed.

(** ** C6: renders in flight *)

(** C6, as amended.  The handler takes no lock.  Take a clip that can be
    rendered and two requests for it.  Served one after the other, they
    cause exactly one encode: the first renders and records the artifact
    on the row, the second reuses it.  When the second arrives while the
    first is still encoding, each starts an encode of the same command to
    the same output path, so two renders are in flight at once and two
    encodes are run.  In both cases the two callers are sent the same
    path. *)
Theorem download_renders_per_request :
  forall (ext : Externals) (w : World) (jobId clipId : string)
         (ref : nat) (clip : ClipRow.t) (videoPath : string)
         (first second : nat),
    let command :=
      createClip_command (download_params w clipId videoPath clip) in
    let answers :=
      [(first, SendFile (clipPath_of w clipId));
       (second, SendFile (clipPath_of w clipId))] in
    let in_turn :=
      run ext [Arrive first jobId clipId; EncodeDone first;
               Arrive second jobId clipId] (serving w) in
    let both_waiting :=
      run ext [Arrive first jobId clipId; Arrive second jobId clipId]
        (serving w) in
    let overlapped :=
      run ext [EncodeDone first; EncodeDone second] both_waiting in
    first <> second ->
    renderable ext w jobId clipId ref clip videoPath ->
    (ffmpegRuns (world in_turn) = (ffmpegRuns w ++ [command])%list
     /\ responses in_turn = answers
     /\ pending in_turn = ∅)
    /\ (size (pending both_waiting) = 2%nat
        /\ ffmpegRuns (world both_waiting)
           = (ffmpegRuns w ++ [command; command])%list
        /\ ffmpegRuns (world overlapped)
           = (ffmpegRuns w ++ [command; command])%list
        /\ responses overlapped = answers
        /\ pending overlapped = ∅).
Proof.
  intros ext w jobId clipId ref clip videoPath first second command answers
    in_turn both_waiting overlapped Hdistinct Hrender.
  pose proof Hrender as (Hfind & _ & _ & Hrun).
  set (params := download_params w clipId videoPath clip) in *.
  set (p := {| pending_clip := ref; pending_params := params |}).
  set (w1 := VideoProcessor.createClip_start params w).
  assert (Hrender1 : renderable ext w1 jobId clipId ref clip videoPath)
    by (apply (renderable_same ext w); [reflexivity..|exact Hrender]).
  assert (Hfirst : step ext (serving w) (Arrive first jobId clipId)
                   = {| world := w1; pending := <[first := p]> ∅;
                        responses := [] |})
    by (apply (step_arrive_renders ext (serving w)); exact Hrender).
  split.
  - (* one after the other *)
    unfold in_turn. rewrite run_cons, Hfirst, run_cons.
    rewrite (step_done_sends ext _ first p)
      by (try apply lookup_insert_eq; exact Hrun).
    rewrite run_cons, run_nil.
    cbn [world pending responses pending_clip pending_params p].
    change (ClipParams.outputPath params) with (clipPath_of w clipId).
    rewrite (step_arrive_reuses ext _ second jobId clipId ref
               (with_clipFilePath (clipPath_of w clipId) clip)
               (clipPath_of w clipId)).
    + unfold w1. world_simpl.
      split; [reflexivity|]. split; [reflexivity|].
      apply delete_insert_id. apply lookup_empty.
    + cbn [world]. rewrite find_clip_set_clipFilePath.
      assert (Hfind1 : find_clip jobId clipId
                (printed (set_files w1 (files w1 ∪ {[clipPath_of w clipId]}))
                   (Log ("Clip created successfully: " ++ clipPath_of w clipId)))
              = Some (ref, clip)) by exact Hfind.
      rewrite Hfind1. unfold at_row. cbn [option_map fst snd].
      destruct (decide (ref = ref)); [reflexivity | contradiction].
    + reflexivity.
    + apply path_join_not_empty.
    + world_simpl. apply elem_of_union_r, elem_of_singleton. reflexivity.
  - (* the second arrives while the first encodes *)
    assert (Hboth : both_waiting
                    = {| world := VideoProcessor.createClip_start params w1;
                         pending := <[second := p]> (<[first := p]> ∅);
                         responses := [] |}).
    { unfold both_waiting. rewrite run_cons, Hfirst, run_cons, run_nil.
      rewrite (step_arrive_renders ext
                 {| world := w1; pending := <[first := p]> ∅; responses := [] |}
                 second jobId clipId ref clip videoPath Hrender1).
      reflexivity. }
    assert (Hother : second <> first)
      by (intros Heq; apply Hdistinct; symmetry; exact Heq).
    split.
    { rewrite Hboth. cbn [pending].
      rewrite map_size_insert_None
        by (rewrite lookup_insert_ne by exact Hdistinct; apply lookup_empty).
      rewrite map_size_insert_None by apply lookup_empty.
      rewrite map_size_empty. reflexivity. }
    split.
    { rewrite Hboth. unfold w1. world_simpl.
      rewrite <- app_assoc. reflexivity. }
    unfold overlapped. rewrite Hboth, run_cons.
    rewrite (step_done_sends ext _ first p);
      [|cbn [pending]; rewrite lookup_insert_ne by exact Hother;
        apply lookup_insert_eq | exact Hrun].
    rewrite run_cons, run_nil.
    rewrite (step_done_sends ext _ second p);
      [|cbn [pending]; rewrite lookup_delete_ne by exact Hdistinct;
        apply lookup_insert_eq | exact Hrun].
    unfold w1. world_simpl.
    split; [rewrite <- app_assoc; reflexivity|].
    split; [reflexivity|].
    rewrite (delete_insert_ne _ first second) by exact Hdistinct.
    rewrite delete_insert_eq.
    rewrite (delete_insert_id ∅ first) by apply lookup_empty.
    apply delete_empty.
Qed.

Lemma download_renders_per_request_witness :
  let command :=
    createClip_command
      (download_params world_one_clip "clip-1" "/srv/temp/uploads/talk.mp4"
         clip_row_1) in
  let answers :=
    [(1%nat, SendFile "/srv/temp/clips/clip-1.mp4");
     (2%nat, SendFile "/srv/temp/clips/clip-1.mp4")] in
  let in_turn :=
    run externals_fine
      [Arrive 1 "job-1" "clip-1"; EncodeDone 1; Arrive 2 "job-1" "clip-1"]
      (serving world_one_clip) in
  let both_waiting :=
    run externals_fine
      [Arrive 1 "job-1" "clip-1"; Arrive 2 "job-1" "clip-1"]
      (serving world_one_clip) in
  let overlapped :=
    run externals_fine [EncodeDone 1; EncodeDone 2] both_waiting in
  (ffmpegRuns (world in_turn) = [command]
   /\ responses in_turn = answers
   /\ pending in_turn = ∅)
  /\ (size (pending both_waiting) = 2%nat
      /\ ffmpegRuns (world both_waiting) = [command; command]
      /\ ffmpegRuns (world overlapped) = [command; command]
      /\ responses overlapped = answers
      /\ pending overlapped = ∅).
Proof.
  apply (download_renders_per_request externals_fine world_one_clip
           "job-1" "clip-1" 0 clip_row_1 "/srv/temp/uploads/talk.mp4" 1 2).
  - discriminate.
  - split; [vm_compute; reflexivity|].
    split; [reflexivity|].
    split; [|reflexivity].
    exists job_1. split; reflexivity.
Defined.

(** C6 fails as stated: two requests for the same clip, the second of
    which arrives while the first is encoding, have two renders in flight
    and cause two encode invocations. *)
Lemma download_single_render_counterexample :
  let both_waiting :=
    run externals_fine
      [Arrive 1 "job-1" "clip-1"; Arrive 2 "job-1" "clip-1"]
      (serving world_one_clip) in
  let overlapped :=
    run externals_fine [EncodeDone 1; EncodeDone 2] both_waiting in
  ffmpegRuns (world_one_clip) = []
  /\ size (pending both_waiting) = 2%nat
  /\ ~ (size (pending both_waiting) <= 1)%nat
  /\ List.length (ffmpegRuns (world overlapped)) = 2%nat
  /\ List.length (ffmpegRuns (world overlapped)) <> 1%nat.
Proof.
  split; [reflexivity|].
  split; [vm_compute; reflexivity|].
  split; [vm_compute; lia|].
  split; [vm_compute; reflexivity|].
  vm_compute. discriminate.
Qed.

(** * Further properties of the Segmentation Engine *)

(** ** Clip ids *)

Lemma string_of_nat_inj (n m : nat) : string_of_nat n = string_of_nat m -> n = m.
Proof.
  unfold string_of_nat. intros H.
  apply DecimalNat.Unsigned.to_uint_inj.
  assert (Hs : Some (Nat.to_uint n) = Some (Nat.to_uint m)).
  { rewrite <- !NilEmpty.usu. rewrite H. reflexivity. }
  congruence.
Qed.

Lemma clip_id_inj (n m : nat) : clip_id n = clip_id m -> n = m.
Proof.
  unfold clip_id. simpl. intros H. injection H as H.
  apply string_of_nat_inj. assumption.
Qed.

Lemma StronglySorted_lt_snoc (ks : list nat) (k : nat) :
  StronglySorted lt ks -> Forall (fun j => (j < k)%nat) ks ->
  StronglySorted lt (ks ++ [k]).
Proof.
  induction 1 as [|j ks Hs IH Hall]; intros Hlt; simpl.
  - constructor; constructor.
  - inversion Hlt; subst. constructor.
    + apply IH. assumption.
    + apply List.Forall_app. split; [assumption|]. constructor; [assumption|constructor].
Qed.

Lemma StronglySorted_lt_NoDup (ks : list nat) : StronglySorted lt ks -> List.NoDup ks.
Proof.
  induction 1 as [|j ks Hs IH Hall]; constructor.
  - intros Hin. rewrite List.Forall_forall in Hall. specialize (Hall _ Hin). lia.
  - assumption.
Qed.

Lemma NoDup_map_injective {A B} (f : A -> B) (l : list A) :
  (forall a b, f a = f b -> a = b) -> List.NoDup l -> List.NoDup (List.map f l).
Proof.
  intros Hinj. induction 1 as [|a l Hnotin Hnodup IH]; simpl; constructor.
  - intros Hin. apply List.in_map_iff in Hin as (b & Hb & Hin).
    apply Hinj in Hb. subst. contradiction.
  - assumption.
Qed.

Lemma numbered_step rand transcript options st :
  numbered_so_far st -> numbered_so_far (loop_body rand transcript options st).
Proof.
  intros (ks & Hids & Hsorted & Hrange).
  unfold numbered_so_far. rewrite loop_body_clips.
  change (clipIndex (loop_body rand transcript options st)) with (S (clipIndex st)).
  destruct (0 <? List.length (relevantSegments transcript options st))%nat.
  - exists (ks ++ [clipIndex st + 1])%list%nat. repeat split.
    + rewrite !List.map_app, Hids. reflexivity.
    + apply StronglySorted_lt_snoc; [assumption|].
      eapply List.Forall_impl; [|exact Hrange]. simpl. intros; lia.
    + apply List.Forall_app. split.
      * eapply List.Forall_impl; [|exact Hrange]. simpl. intros; lia.
      * constructor; [lia|constructor].
  - exists ks. repeat split; try assumption.
    eapply List.Forall_impl; [|exact Hrange]. simpl. intros; lia.
Qed.

(** X1. The ids of the clips that [suggestClips] returns are [clip-k] for
    increasing numbers [k] between 1 and 10, so no two clips of one result
    share an id. *)
Theorem suggestClips_ids_numbered :
  forall (rand : nat -> Q) (transcript : Transcript) (options : ClipOptions),
    (exists ks,
       List.map Clip.id (suggestClips rand transcript options)
       = List.map clip_id ks
       /\ StronglySorted lt ks
       /\ Forall (fun k => (1 <= k <= 10)%nat) ks)
    /\ List.NoDup (List.map Clip.id (suggestClips rand transcript options)).
Proof.
  intros rand transcript options.
  destruct (suggest_loop_invariant rand transcript options
              (fun st => numbered_so_far st /\ counted st))
    with (st := loop_init options) as [[Hnum Hcount] _].
  - intros st [Hn Hc] Hg. split.
    + apply numbered_step; assumption.
    + apply counted_step; assumption.
  - split; [|apply counted_init].
    exists []. repeat split; constructor.
  - destruct Hnum as (ks & Hids & Hsorted & Hrange).
    destruct Hcount as (Hle & _).
    split.
    + exists ks. repeat split; try assumption.
      eapply List.Forall_impl; [|exact Hrange]. simpl. intros; lia.
    + unfold suggestClips. rewrite Hids.
      apply NoDup_map_injective.
      * intros a b. apply clip_id_inj.
      * apply StronglySorted_lt_NoDup. assumption.
Qed.

(** ** The fields of a clip *)

(** X2. Every clip that [suggestClips] returns repeats the aspect ratio,
    the template and the two flags of the options, and carries three
    thumbnail timestamps, whatever [autoThumbnail] says; for a positive
    maximum duration the three lie within the window of the clip, in
    non-decreasing order. *)
Theorem suggestClips_clip_layout :
  forall (rand : nat -> Q) (transcript : Transcript) (options : ClipOptions)
         (c : GeneratedClip),
    In c (suggestClips rand transcript options) ->
    Clip.aspectRatio c = Options.aspectRatio options
    /\ Clip.template c = Options.template options
    /\ Clip.hasCaptions c = Options.captionsEnabled options
    /\ Clip.hasMemeHook c = Options.memeHook options
    /\ exists t1 t2 t3,
         Clip.thumbnailCandidates c = [t1; t2; t3]
         /\ (0 < maxDuration options ->
             Clip.startSec c <= t1 /\ t1 <= t2 /\ t2 <= t3
             /\ t3 <= Clip.endSec c).
Proof.
  intros rand transcript options c Hin.
  apply suggestClips_provenance in Hin as (st & (Hguard & _ & ->) & _).
  simpl. repeat (split; [reflexivity|]).
  eexists _, _, _. split; [reflexivity|].
  intros Hmax. pose proof (clip_duration_pos options st Hmax Hguard) as Hpos.
  repeat split; lra.
Qed.

Lemma suggestClips_clip_layout_witness :
  exists c,
    In c (suggestClips rand_half (transcribe_mock 0 300) options_short_300)
    /\ Clip.aspectRatio c = ar_9_16
    /\ Clip.hasCaptions c = Options.captionsEnabled options_short_300.
Proof.
  assert (Hin : In (hd (make_clip rand_half options_short_300
                          (loop_init options_short_300) [])
                       (suggestClips rand_half (transcribe_mock 0 300)
                          options_short_300))
                   (suggestClips rand_half (transcribe_mock 0 300)
                      options_short_300)).
  { vm_compute. left. reflexivity. }
  eexists. split; [exact Hin|].
  destruct (suggestClips_clip_layout _ _ _ _ Hin) as (Hratio & _ & Hflag & _).
  split; [exact Hratio|exact Hflag].
Defined.

(** ** Keywords *)

Lemma lower_ascii_fixed (c : ascii) : lower_ascii (lower_ascii c) = lower_ascii c.
Proof.
  destruct c as [[] [] [] [] [] [] [] []]; reflexivity.
Qed.

Lemma toLowerCase_chars (s : string) :
  Forall (fun c => lower_ascii c = c) (list_ascii_of_string (toLowerCase s)).
Proof.
  induction s as [|c s IH]; simpl; constructor.
  - apply lower_ascii_fixed.
  - assumption.
Qed.

Lemma list_ascii_of_string_app (a b : string) :
  list_ascii_of_string (a ++ b)
  = (list_ascii_of_string a ++ list_ascii_of_string b)%list.
Proof.
  induction a as [|c a IH]; simpl; [reflexivity|]. rewrite IH. reflexivity.
Qed.

Lemma split_ws_chars (s : string) :
  forall acc in_sep,
    Forall (fun c => lower_ascii c = c) (list_ascii_of_string s) ->
    Forall keyword_char (list_ascii_of_string acc) ->
    Forall (fun word => Forall keyword_char (list_ascii_of_string word))
      (split_ws s acc in_sep).
Proof.
  induction s as [|c s IH]; intros acc in_sep Hs Hacc; simpl.
  - constructor; [assumption|constructor].
  - simpl in Hs. inversion Hs as [|? ? Hc Hs']; subst.
    destruct (is_space c) eqn:Hspace.
    + destruct in_sep.
      * apply IH; assumption.
      * constructor; [assumption|]. apply IH; [assumption|constructor].
    + apply IH; [assumption|].
      rewrite list_ascii_of_string_app. apply List.Forall_app. split; [assumption|].
      simpl. constructor; [|constructor]. split; assumption.
Qed.

Lemma Forall_firstn {A} (P : A -> Prop) (n : nat) (l : list A) :
  Forall P l -> Forall P (firstn n l).
Proof.
  intros H. revert n. induction H as [|x l Hx Hl IH]; intros [|n]; simpl;
    constructor; auto.
Qed.

(** X3. [extractKeywords] returns at most three words; each of them is
    longer than three characters, is no stop word, and holds neither white
    space nor an upper-case letter. *)
Theorem extractKeywords_keywords :
  forall text : string,
    (List.length (extractKeywords text) <= 3)%nat
    /\ Forall keyword (extractKeywords text).
Proof.
  intros text. unfold extractKeywords. split.
  - apply List.firstn_le_length.
  - apply Forall_firstn. rewrite List.Forall_forall. intros word Hin.
    apply List.filter_In in Hin as [Hin Htest].
    apply andb_prop in Htest as [Hlen Hstop].
    split; [apply Nat.ltb_lt; assumption|]. split.
    + intros Hstopword. apply negb_true_iff in Hstop.
      assert (Hex : existsb (String.eqb word) stopWords = true).
      { apply List.existsb_exists. exists word. split; [assumption|].
        apply String.eqb_refl. }
      congruence.
    + assert (Hall : Forall
                (fun word => Forall keyword_char (list_ascii_of_string word))
                (split_ws (toLowerCase text) EmptyString false)).
      { apply split_ws_chars; [apply toLowerCase_chars|constructor]. }
      rewrite List.Forall_forall in Hall. apply Hall. assumption.
Qed.

(** ** Captions *)

Lemma generateCaptions_Forall2 segs options :
  Forall2 caption_of_segment segs (generateCaptions segs options).
Proof.
  induction segs as [|seg segs IH]; simpl; constructor.
  - repeat split.
  - assumption.
Qed.

(** X4. A clip is returned only for a span that at least one transcript
    segment overlaps.  With captions enabled its captions are those
    segments, all of them and in the order of the transcript, one caption
    each; with captions disabled it has none.  A caption carries the
    keywords of its text exactly when [highlightKeywords] is set. *)
Theorem suggestClips_captions_complete :
  forall (rand : nat -> Q) (transcript : Transcript) (options : ClipOptions)
         (c : GeneratedClip),
    In c (suggestClips rand transcript options) ->
    let heard :=
      List.filter (overlaps (Clip.startSec c) (Clip.endSec c))
        (segments transcript) in
    heard <> []
    /\ (Options.captionsEnabled options = true ->
        Forall2 caption_of_segment heard (Clip.captions c)
        /\ Clip.captions c <> [])
    /\ (Options.captionsEnabled options = false -> Clip.captions c = [])
    /\ (forall cap, In cap (Clip.captions c) ->
          Caption.keywords cap
          = if Options.highlightKeywords options
            then Some (extractKeywords (Caption.text cap))
            else None).
Proof.
  intros rand transcript options c Hin.
  apply suggestClips_provenance in Hin as (st & (Hguard & Hheard & ->) & _).
  simpl. fold (relevantSegments transcript options st).
  split; [assumption|]. split; [|split].
  - intros ->. split; [apply generateCaptions_Forall2|].
    destruct (relevantSegments transcript options st); [contradiction|].
    simpl. discriminate.
  - intros ->. reflexivity.
  - intros cap Hcap.
    destruct (Options.captionsEnabled options); [|contradiction].
    unfold generateCaptions in Hcap.
    apply List.in_map_iff in Hcap as (seg & <- & _). reflexivity.
Qed.

Lemma suggestClips_captions_complete_witness :
  exists c,
    In c (suggestClips rand_half transcript_straddling options_short_300)
    /\ Forall2 caption_of_segment
         (List.filter (overlaps (Clip.startSec c) (Clip.endSec c))
            (segments transcript_straddling))
         (Clip.captions c).
Proof.
  assert (Hin : In (hd (make_clip rand_half options_short_300
                          (loop_init options_short_300) [])
                       (suggestClips rand_half transcript_straddling
                          options_short_300))
                   (suggestClips rand_half transcript_straddling
                      options_short_300)).
  { vm_compute. left. reflexivity. }
  eexists. split; [exact Hin|].
  destruct (suggestClips_captions_complete _ _ _ _ Hin) as (_ & Hcaps & _).
  apply Hcaps. reflexivity.
Defined.

(** ** The transcript of the mock *)

Lemma Qceiling_nonpos (x : Q) : x <= 0 -> (Qceiling x <= 0)%Z.
Proof.
  intros Hx. pose proof (Qceiling_lt x) as Hlt.
  assert (H : inject_Z (Qceiling x - 1) < inject_Z 0) by (change (inject_Z 0) with 0; lra).
  rewrite <- Zlt_Qlt in H. lia.
Qed.

Lemma mock_count_nat (startSec endSec : Q) :
  startSec < endSec ->
  inject_Z (Z.of_nat (Z.to_nat (Qceiling ((endSec - startSec) / segmentDuration))))
  = inject_Z (Qceiling ((endSec - startSec) / segmentDuration))
  /\ (0 < Z.to_nat (Qceiling ((endSec - startSec) / segmentDuration)))%nat.
Proof.
  intros Hlt. set (x := (endSec - startSec) / segmentDuration).
  assert (Hx : x * 5 == endSec - startSec) by (unfold x, segmentDuration; field).
  pose proof (Qle_ceiling x) as Hle.
  assert (Hpos : inject_Z 0 < inject_Z (Qceiling x)) by (change (inject_Z 0) with 0; lra).
  rewrite <- Zlt_Qlt in Hpos. split.
  - rewrite Z2Nat.id by lia. reflexivity.
  - lia.
Qed.

Lemma mock_index_below (startSec endSec : Q) (i : nat) :
  (i < Z.to_nat (Qceiling ((endSec - startSec) / segmentDuration)))%nat ->
  startSec + inject_Z (Z.of_nat i) * segmentDuration < endSec.
Proof.
  intros Hi. set (x := (endSec - startSec) / segmentDuration) in *.
  assert (Hx : x * 5 == endSec - startSec) by (unfold x, segmentDuration; field).
  pose proof (Qceiling_lt x) as Hlt.
  assert (Hz : (Z.of_nat i <= Qceiling x - 1)%Z) by lia.
  rewrite Zle_Qle in Hz. unfold segmentDuration. lra.
Qed.

(** X5. The transcript of the mock stays within the window of the call.
    For a window with [endSec <= startSec] there is no segment, and for a
    window of at least one second there is one.  The first segment starts
    at [startSec]; every segment starts at or after [startSec], ends at or
    after its start, at most five seconds after it, and not after
    [endSec]. *)
Theorem transcribe_mock_in_window :
  forall startSec endSec : Q,
    let segs := segments (transcribe_mock startSec endSec) in
    (endSec <= startSec -> segs = [])
    /\ (startSec + 1 <= endSec -> segs <> [])
    /\ (forall first rest, segs = first :: rest ->
          Segment.startSec first == startSec)
    /\ Forall (fun seg =>
                 startSec <= Segment.startSec seg
                 /\ Segment.startSec seg <= Segment.endSec seg
                 /\ Segment.endSec seg <= Segment.startSec seg + 5
                 /\ Segment.endSec seg <= endSec)
         segs.
Proof.
  intros startSec endSec segs.
  set (n := Z.to_nat (Qceiling ((endSec - startSec) / segmentDuration))).
  assert (Hsegs : segs = List.map (mockSegment startSec endSec) (seq 0 n))
    by reflexivity.
  split; [|split; [|split]].
  - intros Hle.
    assert (Hx : (endSec - startSec) / segmentDuration <= 0).
    { assert (Hx : (endSec - startSec) / segmentDuration * 5
                   == endSec - startSec)
        by (unfold segmentDuration; field).
      lra. }
    apply Qceiling_nonpos in Hx.
    rewrite Hsegs. replace n with 0%nat by (unfold n; lia). reflexivity.
  - intros Hlong.
    destruct (mock_count_nat startSec endSec) as [_ Hpos]; [lra|].
    fold n in Hpos. rewrite Hsegs.
    destruct n; [lia|]. discriminate.
  - intros first rest Hfirst. rewrite Hsegs in Hfirst.
    destruct n; [discriminate|]. injection Hfirst as <- _.
    cbn [mockSegment Segment.startSec].
    change (inject_Z (Z.of_nat 0)) with 0. unfold segmentDuration. lra.
  - rewrite Hsegs. apply List.Forall_map. rewrite List.Forall_forall.
    intros i Hi. apply List.in_seq in Hi.
    cbn [mockSegment Segment.endSec Segment.startSec].
    pose proof (mock_index_below startSec endSec i ltac:(fold n; lia)) as Hbelow.
    assert (H0 : inject_Z 0 <= inject_Z (Z.of_nat i))
      by (rewrite <- Zle_Qle; lia).
    change (inject_Z 0) with 0 in H0.
    unfold segmentDuration in *. split; [lra|]. split; [|split].
    + apply Q.min_glb; lra.
    + apply Q.le_min_l.
    + apply Q.le_min_r.
Qed.

Lemma transcribe_mock_in_window_witness :
  segments (transcribe_mock 100 50) = []
  /\ segments (transcribe_mock 0 12) <> [].
Proof.
  split.
  - apply (transcribe_mock_in_window 100 50). vm_compute. discriminate.
  - apply (transcribe_mock_in_window 0 12). vm_compute. discriminate.
Defined.

(** ** Clips of the mock transcript *)

Lemma mock_heard (startSec endSec cur d : Q) :
  startSec <= cur -> cur < endSec -> 0 < d ->
  exists seg,
    In seg (segments (transcribe_mock startSec endSec))
    /\ overlaps cur (cur + d) seg = true.
Proof.
  intros Hs He Hd.
  set (y := (cur - startSec) / segmentDuration).
  set (x := (endSec - startSec) / segmentDuration).
  assert (Hy : y * 5 == cur - startSec) by (unfold y, segmentDuration; field).
  assert (Hx : x * 5 == endSec - startSec) by (unfold x, segmentDuration; field).
  pose proof (Qfloor_le y) as Hfloor.
  pose proof (Qlt_floor y) as Hlt_floor.
  pose proof (Qle_ceiling x) as Hceil.
  assert (H0 : (0 <= Qfloor y)%Z).
  { assert (H : inject_Z (-1) < inject_Z (Qfloor y)).
    { rewrite inject_Z_plus in Hlt_floor.
      change (inject_Z (-1)) with (-1). change (inject_Z 1) with 1 in Hlt_floor.
      lra. }
    rewrite <- Zlt_Qlt in H. lia. }
  assert (Hk : (Qfloor y < Qceiling x)%Z).
  { rewrite Zlt_Qlt. lra. }
  exists (mockSegment startSec endSec (Z.to_nat (Qfloor y))). split.
  - unfold transcribe_mock. cbn [segments]. apply List.in_map.
    apply List.in_seq. fold x. lia.
  - apply overlaps_spec. cbn [mockSegment Segment.startSec Segment.endSec].
    rewrite Z2Nat.id by assumption.
    rewrite inject_Z_plus in Hlt_floor. change (inject_Z 1) with 1 in Hlt_floor.
    unfold segmentDuration. split; [lra|].
    apply Q.min_glb_lt; lra.
Qed.

Lemma chained_snoc (start : Q) (cs : list GeneratedClip) (c : GeneratedClip) :
  chained start cs -> Clip.startSec c = cursor_after start cs ->
  chained start (cs ++ [c]).
Proof.
  revert start. induction cs as [|a cs IH]; intros start Hchain Hc; simpl.
  - split; [assumption|exact I].
  - destruct Hchain as [Ha Hrest]. split; [assumption|]. apply IH; assumption.
Qed.

Lemma cursor_after_snoc (start : Q) (cs : list GeneratedClip) (c : GeneratedClip) :
  cursor_after start (cs ++ [c]) = Clip.endSec c + 5.
Proof.
  revert start. induction cs as [|a cs IH]; intros start; simpl; [reflexivity|].
  apply IH.
Qed.

Lemma all_emitted_step rand options st :
  0 < maxDuration options ->
  all_emitted options st -> loop_guard options st = true ->
  all_emitted options
    (loop_body rand
       (transcribe_mock (Options.timeStartSec options)
          (Options.timeEndSec options))
       options st).
Proof.
  intros Hmax (Hlen & Hstart & Hchain & Hcursor) Hguard.
  pose proof (clip_duration_pos options st Hmax Hguard) as Hpos.
  pose proof (loop_guard_cursor options st Hguard) as Hend.
  destruct (mock_heard (Options.timeStartSec options)
              (Options.timeEndSec options) (currentStart st)
              (clip_duration options st) Hstart Hend Hpos)
    as (seg & Hin & Hover).
  unfold all_emitted. rewrite loop_body_clips.
  assert (Hheard :
    In seg (relevantSegments
              (transcribe_mock (Options.timeStartSec options)
                 (Options.timeEndSec options)) options st)).
  { unfold relevantSegments. apply List.filter_In. split; assumption. }
  destruct (relevantSegments _ options st) as [|seg0 segs] eqn:Hrel;
    [contradiction|].
  cbn [List.length Nat.ltb Nat.leb].
  cbn [loop_body clipIndex currentStart].
  split; [|split; [|split]].
  - rewrite List.length_app. simpl. lia.
  - lra.
  - apply chained_snoc; assumption.
  - rewrite cursor_after_snoc. reflexivity.
Qed.

Lemma chained_ids rand options transcript st :
  List.length (clips st) = clipIndex st ->
  List.map Clip.id (clips st) = List.map clip_id (seq 1 (clipIndex st)) ->
  loop_guard options st = true ->
  List.length (clips (loop_body rand transcript options st))
  = clipIndex (loop_body rand transcript options st) ->
  List.map Clip.id (clips (loop_body rand transcript options st))
  = List.map clip_id (seq 1 (clipIndex (loop_body rand transcript options st))).
Proof.
  intros Hlen Hids Hguard.
  rewrite loop_body_clips.
  change (clipIndex (loop_body rand transcript options st)) with (S (clipIndex st)).
  destruct (0 <? _)%nat.
  - intros _. rewrite List.seq_S, !List.map_app, Hids. simpl.
    replace (clipIndex st + 1)%nat with (1 + clipIndex st)%nat by lia.
    reflexivity.
  - intros Hbad. lia.
Qed.



(** * Properties of the store *)

(** ** Queries *)

Lemma insert_by_startSec_In (x z : Db.RowRef) (l : list Db.RowRef) :
  In z (Db.insert_by_startSec x l) <-> z = x \/ In z l.
Proof.
  induction l as [|y l IH]; simpl.
  - intuition congruence.
  - destruct (Qle_bool _ _); simpl; [intuition congruence|].
    rewrite IH. intuition congruence.
Qed.

Lemma sort_by_startSec_In (z : Db.RowRef) (l : list Db.RowRef) :
  In z (Db.sort_by_startSec l) <-> In z l.
Proof.
  induction l as [|x l IH]; simpl; [reflexivity|].
  rewrite insert_by_startSec_In, IH. intuition congruence.
Qed.

Lemma row_refs_from_In (rows : list ClipRow.t) :
  forall k ref row,
    In (ref, row) (combine (seq k (List.length rows)) rows)
    <-> (k <= ref)%nat /\ nth_error rows (ref - k) = Some row.
Proof.
  induction rows as [|r rows IH]; intros k ref row; simpl.
  - split; [contradiction|]. intros [_ H]. destruct (ref - k)%nat; discriminate.
  - rewrite IH. split.
    + intros [Heq | [Hle Hnth]].
      * injection Heq as <- <-. split; [lia|]. rewrite Nat.sub_diag. reflexivity.
      * split; [lia|]. replace (ref - k)%nat with (S (ref - S k)) by lia.
        assumption.
    + intros [Hle Hnth]. destruct (ref - k)%nat as [|n] eqn:Hn.
      * left. injection Hnth as <-. f_equal. lia.
      * right. split; [lia|]. replace (ref - S k)%nat with n by lia. assumption.
Qed.

Lemma row_refs_In (rows : list ClipRow.t) (ref : nat) (row : ClipRow.t) :
  In (ref, row) (Db.row_refs rows) <-> nth_error rows ref = Some row.
Proof.
  unfold Db.row_refs. rewrite row_refs_from_In, Nat.sub_0_r.
  split; [intros [_ H]; exact H|intros H; split; [lia|exact H]].
Qed.

Lemma getClipsByJobId_In (jobId : string) (w : World) (ref : nat)
    (row : ClipRow.t) :
  In (ref, row) (Db.getClipsByJobId jobId w)
  <-> row_at w ref = Some row /\ ClipRow.jobId row = jobId.
Proof.
  unfold Db.getClipsByJobId, row_at.
  rewrite sort_by_startSec_In, List.filter_In, row_refs_In. simpl.
  rewrite String.eqb_eq. reflexivity.
Qed.

Lemma row_refs_from_increasing (rows : list ClipRow.t) :
  forall k, StronglySorted (fun a b : Db.RowRef => (fst a < fst b)%nat)
              (combine (seq k (List.length rows)) rows).
Proof.
  induction rows as [|r rows IH]; intros k; simpl; constructor.
  - apply IH.
  - rewrite List.Forall_forall. intros [ref row] Hin.
    apply row_refs_from_In in Hin as [Hle _]. simpl. lia.
Qed.

Lemma StronglySorted_filter {A} (R : A -> A -> Prop) (p : A -> bool)
    (l : list A) :
  StronglySorted R l -> StronglySorted R (List.filter p l).
Proof.
  induction 1 as [|x l Hs IH Hall]; simpl; [constructor|].
  destruct (p x); [|assumption]. constructor; [assumption|].
  rewrite List.Forall_forall in *. intros y Hy.
  apply List.filter_In in Hy as [Hy _]. apply Hall. assumption.
Qed.

Lemma insert_by_startSec_sorted (x : Db.RowRef) (l : list Db.RowRef) :
  StronglySorted row_before l ->
  Forall (fun y => (fst x < fst y)%nat) l ->
  StronglySorted row_before (Db.insert_by_startSec x l).
Proof.
  induction 1 as [|y l Hs IH Hall]; intros Hlater; simpl.
  - constructor; constructor.
  - inversion Hlater as [|? ? Hxy Hlater']; subst.
    destruct (Qle_bool _ _) eqn:Hle.
    + apply Qle_bool_iff in Hle.
      assert (Hy : row_before x y).
      { unfold row_before.
        destruct (Qlt_le_dec (ClipRow.startSec (snd x)) (ClipRow.startSec (snd y)));
          [left; assumption|right]. split; [lra|assumption]. }
      constructor; [constructor; assumption|].
      constructor; [assumption|].
      rewrite List.Forall_forall in *. intros z Hz.
      specialize (Hall z Hz). specialize (Hlater' z Hz).
      unfold row_before in *.
      destruct (Qlt_le_dec (ClipRow.startSec (snd x)) (ClipRow.startSec (snd z)));
        [left; assumption|right].
      split; [|assumption]. destruct Hall as [? | [? _]]; lra.
    + assert (Hlt : ClipRow.startSec (snd y) < ClipRow.startSec (snd x)).
      { apply Qnot_le_lt. intros H. apply Qle_bool_iff in H. congruence. }
      constructor; [apply IH; assumption|].
      rewrite List.Forall_forall in *. intros z Hz.
      apply insert_by_startSec_In in Hz as [-> | Hz].
      * left. assumption.
      * apply Hall. assumption.
Qed.

Lemma sort_by_startSec_sorted (l : list Db.RowRef) :
  StronglySorted (fun a b : Db.RowRef => (fst a < fst b)%nat) l ->
  StronglySorted row_before (Db.sort_by_startSec l).
Proof.
  induction 1 as [|x l Hs IH Hall]; simpl; [constructor|].
  apply insert_by_startSec_sorted; [assumption|].
  rewrite List.Forall_forall in *. intros y Hy.
  apply Hall. apply (proj1 (sort_by_startSec_In y l)). assumption.
Qed.

(** X7. [getClipsByJobId] returns the rows of the job and no other row,
    each of them as the row object at its position in [dbData.clips], in
    the order of their start times; rows with the same start time keep the
    order of the store, so that no row is returned twice. *)
Theorem getClipsByJobId_sorted_rows :
  forall (jobId : string) (w : World),
    StronglySorted row_before (Db.getClipsByJobId jobId w)
    /\ (forall ref row,
          In (ref, row) (Db.getClipsByJobId jobId w)
          <-> row_at w ref = Some row /\ ClipRow.jobId row = jobId).
Proof.
  intros jobId w. split.
  - unfold Db.getClipsByJobId. apply sort_by_startSec_sorted.
    apply StronglySorted_filter. apply row_refs_from_increasing.
  - intros ref row. apply getClipsByJobId_In.
Qed.

(** ** Insertions *)

Lemma row_refs_snoc (rows : list ClipRow.t) (row : ClipRow.t) :
  Db.row_refs (rows ++ [row])
  = (Db.row_refs rows ++ [(List.length rows, row)])%list.
Proof.
  unfold Db.row_refs.
  assert (H : forall k,
    combine (seq k (List.length (rows ++ [row]))) (rows ++ [row])
    = (combine (seq k (List.length rows)) rows
       ++ [((k + List.length rows)%nat, row)])%list).
  { induction rows as [|r rows IH]; intros k; simpl.
    - rewrite Nat.add_0_r. reflexivity.
    - rewrite IH. simpl. repeat f_equal. lia. }
  apply H.
Qed.

Lemma save_outcome ext w :
  match writeFileSync_error ext (dbData w) with
  | None => Db.save ext w = (OK tt, set_dbFile w (dbData w))
  | Some message =>
      Db.save ext w
      = (Throw message,
         if writeFileSync_opens ext (dbData w) then tear_dbFile w else w)
  end.
Proof.
  unfold Db.save. destruct (writeFileSync_error ext (dbData w)); reflexivity.
Qed.

Lemma save_effect ext w :
  dbData (snd (Db.save ext w)) = dbData w
  /\ match writeFileSync_error ext (dbData w) with
     | None =>
         fst (Db.save ext w) = OK tt /\ dbFile (snd (Db.save ext w)) = dbData w
     | Some message =>
         fst (Db.save ext w) = Throw message
         /\ dbFile (snd (Db.save ext w)) = dbFile w
     end.
Proof.
  pose proof (save_outcome ext w) as Hsave.
  destruct (writeFileSync_error ext (dbData w)); rewrite Hsave;
    [destruct (writeFileSync_opens ext (dbData w))|]; repeat split.
Qed.

(** What a write does to the file beyond its last complete content: a
    write that completes leaves a whole file, a write that fails after
    opening the file leaves a torn one, and a write that fails before
    that leaves the file as it was. *)
Lemma save_torn ext w :
  dbFileTorn (snd (Db.save ext w))
  = match writeFileSync_error ext (dbData w) with
    | None => false
    | Some _ => writeFileSync_opens ext (dbData w) || dbFileTorn w
    end.
Proof.
  pose proof (save_outcome ext w) as Hsave.
  destruct (writeFileSync_error ext (dbData w)); rewrite Hsave;
    [destruct (writeFileSync_opens ext (dbData w))|]; reflexivity.
Qed.

(** X8. [createClip] of db.ts appends one row to [dbData.clips], with the
    two flags stored as 1 or 0 and every other field as given, and leaves
    the job rows alone.  The query of the row's job finds the row at the
    new position, and the query of any other job answers as before.  The
    row is in memory whether or not the file can be written: when the
    write succeeds the file holds the whole of [dbData]; when it fails the
    error is thrown, and the file is torn if the write had opened it and
    as it was if not. *)
Theorem createClip_appends_row :
  forall (ext : Externals) (clip : ClipRow.t) (hasCaptions hasMemeHook : bool)
         (w : World),
    let result := Db.createClip ext clip hasCaptions hasMemeHook w in
    let w' := snd result in
    exists row,
      JsonDbShape.clips (dbData w')
      = (JsonDbShape.clips (dbData w) ++ [row])%list
      /\ JsonDbShape.jobs (dbData w') = JsonDbShape.jobs (dbData w)
      /\ same_but_flags row clip
      /\ ClipRow.hasCaptions row = (if hasCaptions then 1 else 0)%nat
      /\ ClipRow.hasMemeHook row = (if hasMemeHook then 1 else 0)%nat
      /\ js_Boolean (ClipRow.hasCaptions row) = hasCaptions
      /\ js_Boolean (ClipRow.hasMemeHook row) = hasMemeHook
      /\ In (List.length (JsonDbShape.clips (dbData w)), row)
            (Db.getClipsByJobId (ClipRow.jobId clip) w')
      /\ (forall jobId, jobId <> ClipRow.jobId clip ->
            Db.getClipsByJobId jobId w' = Db.getClipsByJobId jobId w)
      /\ match writeFileSync_error ext (dbData w') with
         | None =>
             fst result = OK tt
             /\ dbFile w' = dbData w' /\ dbFileTorn w' = false
         | Some message =>
             fst result = Throw message
             /\ if writeFileSync_opens ext (dbData w')
                then dbFileTorn w' = true
                else dbFileTorn w' = dbFileTorn w /\ dbFile w' = dbFile w
         end.
Proof.
  intros ext clip hasCaptions hasMemeHook w result w'.
  subst w' result. unfold Db.createClip, bind, effect.
  match goal with
  | |- context [set_dbData w ?d] => set (w1 := set_dbData w d)
  end.
  destruct (save_effect ext w1) as [Hd Hout].
  pose proof (save_torn ext w1) as Htorn.
  unfold Db.getClipsByJobId. rewrite Hd.
  cbn [w1 dbData set_dbData JsonDbShape.jobs JsonDbShape.clips].
  eexists. split; [reflexivity|]. split; [reflexivity|].
  split; [repeat split|]. split; [reflexivity|]. split; [reflexivity|].
  split; [destruct hasCaptions; reflexivity|].
  split; [destruct hasMemeHook; reflexivity|].
  split; [|split].
  - apply sort_by_startSec_In, List.filter_In. split.
    + apply row_refs_In. rewrite List.nth_error_app2 by lia.
      rewrite Nat.sub_diag. reflexivity.
    + apply String.eqb_refl.
  - intros jobId Hother.
    rewrite row_refs_snoc, List.filter_app. cbn [List.filter snd ClipRow.jobId].
    destruct (String.eqb_spec (ClipRow.jobId clip) jobId) as [Heq|_];
      [congruence|].
    rewrite List.app_nil_r. reflexivity.
  - change (dbData w1) with
      {| JsonDbShape.jobs := JsonDbShape.jobs (dbData w);
         JsonDbShape.clips :=
           (JsonDbShape.clips (dbData w)
            ++ [{| ClipRow.id := ClipRow.id clip;
                   ClipRow.jobId := ClipRow.jobId clip;
                   ClipRow.title := ClipRow.title clip;
                   ClipRow.startSec := ClipRow.startSec clip;
                   ClipRow.endSec := ClipRow.endSec clip;
                   ClipRow.durationSec := ClipRow.durationSec clip;
                   ClipRow.aspectRatio := ClipRow.aspectRatio clip;
                   ClipRow.template := ClipRow.template clip;
                   ClipRow.hasCaptions := if hasCaptions then 1%nat else 0%nat;
                   ClipRow.hasMemeHook := if hasMemeHook then 1%nat else 0%nat;
                   ClipRow.scores := ClipRow.scores clip;
                   ClipRow.captionData := ClipRow.captionData clip;
                   ClipRow.thumbnailTimestamps :=
                     ClipRow.thumbnailTimestamps clip;
                   ClipRow.clipFilePath := ClipRow.clipFilePath clip |}])%list |}
      in Hout, Htorn.
    destruct (writeFileSync_error ext _).
    + destruct Hout as [Hfst Hfile]. split; [exact Hfst|].
      destruct (writeFileSync_opens ext _); simpl in Htorn.
      * exact Htorn.
      * split; [exact Htorn | exact Hfile].
    + destruct Hout as [Hfst Hfile]. repeat split; assumption.
Qed.

Lemma createClip_appends_row_witness :
  Db.getClipsByJobId "job-3"
    (snd (Db.createClip externals_fine clip_row_1 true false world_one_job))
  = Db.getClipsByJobId "job-3" world_one_job.
Proof.
  destruct (createClip_appends_row externals_fine clip_row_1 true false
              world_one_job)
    as (row & _ & _ & _ & _ & _ & _ & _ & _ & Hother & _).
  apply Hother. discriminate.
Defined.

Lemma find_snoc {A} (p : A -> bool) (l : list A) (x : A) :
  List.find p (l ++ [x])
  = match List.find p l with
    | Some a => Some a
    | None => if p x then Some x else None
    end.
Proof.
  induction l as [|a l IH]; simpl; [reflexivity|].
  destruct (p a); [reflexivity|assumption].
Qed.

(** X9. [createJob] appends the job with [createdAt] set to the present
    instant and leaves the clip rows alone.  [getJob] then finds it under
    its id, unless a job with that id was stored before: the earlier job
    keeps answering for the id.  Every other id is answered as before.
    The job is in memory whether or not the file can be written. *)
Theorem createJob_getJob :
  forall (ext : Externals) (now : string) (job : JobRow.t) (w : World),
    let result := Db.createJob ext now job w in
    let w' := snd result in
    (forall id old, Db.getJob id w = Some old -> Db.getJob id w' = Some old)
    /\ (Db.getJob (JobRow.id job) w = None ->
        exists row,
          Db.getJob (JobRow.id job) w' = Some row
          /\ JobRow.createdAt row = now
          /\ JobRow.id row = JobRow.id job
          /\ JobRow.sourceType row = JobRow.sourceType job
          /\ JobRow.sourcePath row = JobRow.sourcePath job
          /\ JobRow.sourceUrl row = JobRow.sourceUrl job
          /\ JobRow.options row = JobRow.options job
          /\ JobRow.videoDurationSec row = JobRow.videoDurationSec job
          /\ JobRow.providerName row = JobRow.providerName job
          /\ JobRow.status row = JobRow.status job)
    /\ (forall id, id <> JobRow.id job -> Db.getJob id w' = Db.getJob id w)
    /\ JsonDbShape.clips (dbData w') = JsonDbShape.clips (dbData w)
    /\ match writeFileSync_error ext (dbData w') with
       | None => fst result = OK tt /\ dbFile w' = dbData w'
       | Some message => fst result = Throw message /\ dbFile w' = dbFile w
       end.
Proof.
  intros ext now job w result w'.
  subst w' result. unfold Db.createJob, bind, effect.
  match goal with
  | |- context [set_dbData w ?d] => set (w1 := set_dbData w d)
  end.
  destruct (save_effect ext w1) as [Hd Hout].
  unfold Db.getJob. rewrite Hd.
  cbn [w1 dbData set_dbData JsonDbShape.jobs JsonDbShape.clips].
  split; [|split; [|split; [|split]]].
  - intros id old Hold. rewrite find_snoc, Hold. reflexivity.
  - intros Hfresh. eexists. split.
    + rewrite find_snoc, Hfresh. cbn [JobRow.id]. rewrite String.eqb_refl.
      reflexivity.
    + repeat split.
  - intros id Hother. rewrite find_snoc.
    destruct (List.find _ (JsonDbShape.jobs (dbData w))); [reflexivity|].
    cbn [JobRow.id].
    destruct (String.eqb_spec (JobRow.id job) id); [congruence|reflexivity].
  - reflexivity.
  - exact Hout.
Qed.

Lemma createJob_getJob_witness :
  Db.getJob "job-1" (snd (Db.createJob externals_fine "later" job_1 world_one_job))
  = Some job_1
  /\ exists row,
       Db.getJob "job-2"
         (snd (Db.createJob externals_fine "later" job_2 world_one_job))
       = Some row
       /\ JobRow.createdAt row = "later".
Proof.
  destruct (createJob_getJob externals_fine "later" job_1 world_one_job)
    as (Hold & _).
  destruct (createJob_getJob externals_fine "later" job_2 world_one_job)
    as (_ & Hfresh & _).
  split.
  - apply Hold. reflexivity.
  - destruct (Hfresh eq_refl) as (row & Hrow & Hcreated & _).
    exists row. split; assumption.
Defined.

(** * Further properties of the pipeline *)

(** ** What [processVideoAsync] stores *)

Lemma generated_of_stored_row jobId clip :
  generated_of (job_clip (stored_row jobId clip)) = clip.
Proof.
  destruct clip as [? ? ? ? ? ? ? [] [] ? ? ?]; reflexivity.
Qed.

Lemma for_of_createClip ext jobId (clips : list GeneratedClip) :
  disk_fine ext ->
  forall w, exists w',
    for_of clips (fun clip =>
      Db.createClip ext
        {| ClipRow.id := Clip.id clip;
           ClipRow.jobId := jobId;
           ClipRow.title := Clip.title clip;
           ClipRow.startSec := Clip.startSec clip;
           ClipRow.endSec := Clip.endSec clip;
           ClipRow.durationSec := Clip.durationSec clip;
           ClipRow.aspectRatio := Clip.aspectRatio clip;
           ClipRow.template := Clip.template clip;
           ClipRow.hasCaptions := 0;
           ClipRow.hasMemeHook := 0;
           ClipRow.scores := Clip.scores clip;
           ClipRow.captionData := Some (Clip.captions clip);
           ClipRow.thumbnailTimestamps := Some (Clip.thumbnailCandidates clip);
           ClipRow.clipFilePath := None |}
        (Clip.hasCaptions clip) (Clip.hasMemeHook clip)) w
    = (OK tt, w')
    /\ JsonDbShape.clips (dbData w')
       = (JsonDbShape.clips (dbData w) ++ List.map (stored_row jobId) clips)%list
    /\ JsonDbShape.jobs (dbData w') = JsonDbShape.jobs (dbData w)
    /\ (clips <> [] -> dbFile w' = dbData w')
    /\ files w' = files w /\ console w' = console w
    /\ ffmpegRuns w' = ffmpegRuns w /\ cwd w' = cwd w /\ env w' = env w.
Proof.
  intros Hdisk. induction clips as [|clip clips IH]; intros w.
  - exists w. simpl. rewrite List.app_nil_r. repeat split. congruence.
  - cbn [for_of]. unfold bind at 1. unfold Db.createClip at 1.
    unfold bind at 1, effect at 1, Db.save at 1.
    rewrite Hdisk.
    match goal with
    | |- context [for_of clips ?body ?w1] =>
        destruct (IH w1) as (w' & Hrun & Hclips & Hjobs & Hfile & Hfiles
                             & Hconsole & Hruns & Hcwd & Henv)
    end.
    exists w'. split; [exact Hrun|].
    cbn [dbData dbFile files console ffmpegRuns cwd env set_dbData set_dbFile
         JsonDbShape.clips JsonDbShape.jobs] in *.
    split; [|split; [assumption|split; [|repeat split; assumption]]].
    + rewrite Hclips, <- List.app_assoc. reflexivity.
    + intros _. destruct clips as [|clip' clips'].
      * cbn [for_of ret] in Hrun. injection Hrun as <-. reflexivity.
      * apply Hfile. discriminate.
Qed.

Lemma processVideo_body_stores factory ext jobId videoPath options w clips :
  stages_succeed factory ext jobId videoPath options w clips ->
  disk_fine ext ->
  exists w',
    processVideo_body factory ext jobId videoPath options w = (OK tt, w')
    /\ JsonDbShape.clips (dbData w')
       = (JsonDbShape.clips (dbData w) ++ List.map (stored_row jobId) clips)%list
    /\ JsonDbShape.jobs (dbData w') = JsonDbShape.jobs (dbData w)
    /\ (clips <> [] -> dbFile w' = dbData w')
    /\ files w' = files w ∖ {[audioPath_of w jobId]}
    /\ last (console w')
       = Some (Log ("Video processing completed for job " ++ jobId))
    /\ cwd w' = cwd w /\ env w' = env w.
Proof.
  intros (Hrun & provider & transcript & Hfactory & Htranscribe & Hsuggest)
         Hdisk.
  unfold processVideo_body, VideoProcessor.extractAudio,
    VideoProcessor.run_finish, console_log, effect, reads, lift.
  unfold bind at 1 2 3 4 5.
  cbn [fst snd cwd env files dbData dbFile console printed set_files started
       VideoProcessor.run_start].
  fold (audioPath_of w jobId). rewrite Hrun.
  unfold bind at 1 2 3 4 5.
  cbn [fst snd cwd env files dbData dbFile console printed set_files started
       VideoProcessor.run_start].
  rewrite Hfactory, Htranscribe, Hsuggest.
  unfold bind at 1.
  match goal with
  | |- context [for_of clips ?body ?w1] =>
      destruct (for_of_createClip ext jobId clips Hdisk w1)
        as (w2 & Hstore & Hclips & Hjobs & Hfile & Hfiles & Hconsole & Hruns
            & Hcwd & Henv)
  end.
  rewrite Hstore. unfold bind, VideoProcessor.cleanup, effect.
  cbn [dbData dbFile files console ffmpegRuns cwd env set_files printed
       started] in *.
  assert (Hin : audioPath_of w jobId ∈ files w2).
  { rewrite Hfiles. apply elem_of_union_r, elem_of_singleton. reflexivity. }
  destruct (decide _) as [_|Hnot]; [|contradiction].
  eexists. split; [reflexivity|].
  cbn [dbData dbFile files console ffmpegRuns cwd env set_files printed
       started].
  split; [assumption|]. split; [assumption|]. split; [assumption|].
  split; [|split; [apply last_snoc|split; assumption]].
  rewrite Hfiles. apply set_eq. intros p.
  rewrite !elem_of_difference, elem_of_union. tauto.
Qed.

(** X10. When every stage of [processVideoAsync] succeeds and the
    database file can be written, the run appends one row per clip that the
    provider returned, in the order of the clips and after the rows that
    were there, each under the job, without an artifact path, and such
    that the answer of [GET /job/:jobId] for the row reads as the clip;
    the job rows are as before, the file holds the whole of [dbData] once
    a row was written, the audio artifact is gone, and the last line on
    the console tells that the processing completed. *)
Theorem processVideo_stores_clips :
  forall (factory : ProcessEnv -> Exc AIProvider.t) (ext : Externals)
         (jobId videoPath : string) (options : ClipOptions)
         (metadata : VideoMetadata.t) (sourcePlatform : string)
         (w : World) (clips : list GeneratedClip),
    let w' :=
      snd (processVideoAsync_with factory ext jobId videoPath options metadata
             sourcePlatform w) in
    stages_succeed factory ext jobId videoPath options w clips ->
    disk_fine ext ->
    exists rows,
      JsonDbShape.clips (dbData w')
      = (JsonDbShape.clips (dbData w) ++ rows)%list
      /\ List.map (fun row => generated_of (job_clip row)) rows = clips
      /\ Forall (fun row => ClipRow.jobId row = jobId
                            /\ ClipRow.clipFilePath row = None) rows
      /\ JsonDbShape.jobs (dbData w') = JsonDbShape.jobs (dbData w)
      /\ (clips <> [] -> dbFile w' = dbData w')
      /\ files w' = files w ∖ {[audioPath_of w jobId]}
      /\ last (console w')
         = Some (Log ("Video processing completed for job " ++ jobId)).
Proof.
  intros factory ext jobId videoPath options metadata sourcePlatform w clips
         w' Hstages Hdisk.
  destruct (processVideo_body_stores factory ext jobId videoPath options w
              clips Hstages Hdisk)
    as (w1 & Hbody & Hclips & Hjobs & Hfile & Hfiles & Hconsole & _).
  subst w'. unfold processVideoAsync_with, try_catch. rewrite Hbody.
  cbn [snd]. exists (List.map (stored_row jobId) clips).
  split; [assumption|]. split; [|split; [|repeat split; assumption]].
  - rewrite List.map_map. rewrite <- (List.map_id clips) at 2.
    apply List.map_ext. intros clip. apply generated_of_stored_row.
  - apply List.Forall_map. apply List.Forall_forall. intros clip _.
    split; reflexivity.
Qed.

Lemma processVideo_stores_clips_witness :
  let w' :=
    snd (processVideoAsync externals_fine "job-1" "/srv/temp/uploads/talk.mp4"
           options_short_300 metadata_300 "file" world_one_job) in
  exists rows,
    JsonDbShape.clips (dbData w') = rows
    /\ List.map (fun row => generated_of (job_clip row)) rows
       = suggestClips rand_half (transcribe_mock 0 300) options_short_300
    /\ dbFile w' = dbData w'.
Proof.
  destruct (processVideo_stores_clips createAIProvider externals_fine "job-1"
              "/srv/temp/uploads/talk.mp4" options_short_300 metadata_300
              "file" world_one_job
              (suggestClips rand_half (transcribe_mock 0 300) options_short_300))
    as (rows & Hrows & Hread & _ & _ & Hfile & _).
  - split; [reflexivity|].
    eexists _, _. split; [reflexivity|]. split; reflexivity.
  - intros d. reflexivity.
  - exists rows. split; [exact Hrows|]. split; [exact Hread|].
    apply Hfile. vm_compute. discriminate.
Defined.

(** ** A failure after the extraction *)

Lemma for_of_createClip_files ext jobId (clips : list GeneratedClip) w :
  files (snd (for_of clips (fun clip =>
      Db.createClip ext
        {| ClipRow.id := Clip.id clip;
           ClipRow.jobId := jobId;
           ClipRow.title := Clip.title clip;
           ClipRow.startSec := Clip.startSec clip;
           ClipRow.endSec := Clip.endSec clip;
           ClipRow.durationSec := Clip.durationSec clip;
           ClipRow.aspectRatio := Clip.aspectRatio clip;
           ClipRow.template := Clip.template clip;
           ClipRow.hasCaptions := 0;
           ClipRow.hasMemeHook := 0;
           ClipRow.scores := Clip.scores clip;
           ClipRow.captionData := Some (Clip.captions clip);
           ClipRow.thumbnailTimestamps := Some (Clip.thumbnailCandidates clip);
           ClipRow.clipFilePath := None |}
        (Clip.hasCaptions clip) (Clip.hasMemeHook clip)) w))
  = files w.
Proof.
  match goal with
  | |- files (snd (?m w)) = _ => assert (Hstable : stable files m)
  end.
  { apply stable_for_of. intros clip. unfold Db.createClip. stable_steps. }
  apply Hstable.
Qed.

Lemma processVideo_body_keeps_audio factory ext jobId videoPath options w w1
    message :
  transcoder ext (extractAudio_command videoPath (audioPath_of w jobId)) = None ->
  processVideo_body factory ext jobId videoPath options w = (Throw message, w1) ->
  files w1 = files w ∪ {[audioPath_of w jobId]}.
Proof.
  intros Hrun.
  unfold processVideo_body, VideoProcessor.extractAudio,
    VideoProcessor.run_finish, console_log, effect, reads, lift.
  unfold bind at 1 2 3 4 5.
  cbn [fst snd cwd env files dbData dbFile console printed set_files started
       VideoProcessor.run_start].
  fold (audioPath_of w jobId). rewrite Hrun.
  unfold bind at 1.
  cbn [fst snd cwd env files dbData dbFile console printed set_files started
       VideoProcessor.run_start].
  destruct (factory (env w)) as [provider|failure];
    [|intros H; injection H as _ <-; reflexivity].
  unfold bind at 1 2.
  destruct (AIProvider.transcribe provider _ _ _) as [transcript|failure];
    [|intros H; injection H as _ <-; reflexivity].
  unfold bind at 1 2.
  cbn [fst snd cwd env files dbData dbFile console printed set_files started].
  destruct (AIProvider.suggestClips provider _ _ _) as [clips|failure];
    [|intros H; injection H as _ <-; reflexivity].
  unfold bind at 1.
  match goal with
  | |- context [for_of clips ?body ?w2] =>
      pose proof (for_of_createClip_files ext jobId clips w2) as Hfiles;
      destruct (for_of clips body w2) as [[[]|failure] w3]
  end.
  - unfold bind, VideoProcessor.cleanup, effect. discriminate.
  - intros H. injection H as _ <-. exact Hfiles.
Qed.

(** X11. When the audio was extracted and a later stage of
    [processVideoAsync] throws (the provider cannot be made, the
    transcription or the segmentation rejects, a row cannot be written),
    the [catch] block is all that runs: [cleanup] is skipped and the audio
    artifact of the job stays on disk. *)
Theorem processVideo_failure_keeps_audio :
  forall (factory : ProcessEnv -> Exc AIProvider.t) (ext : Externals)
         (jobId videoPath : string) (options : ClipOptions)
         (metadata : VideoMetadata.t) (sourcePlatform : string)
         (w w1 : World) (message : string),
    let w' :=
      snd (processVideoAsync_with factory ext jobId videoPath options metadata
             sourcePlatform w) in
    transcoder ext (extractAudio_command videoPath (audioPath_of w jobId))
      = None ->
    processVideo_body factory ext jobId videoPath options w
      = (Throw message, w1) ->
    files w' = files w ∪ {[audioPath_of w jobId]}
    /\ audioPath_of w jobId ∈ files w'.
Proof.
  intros factory ext jobId videoPath options metadata sourcePlatform w w1
         message w' Hrun Hbody.
  assert (Hfiles : files w' = files w ∪ {[audioPath_of w jobId]}).
  { subst w'. unfold processVideoAsync_with, try_catch. rewrite Hbody.
    unfold processVideo_catch, console_error, effect.
    cbn [snd files printed].
    eapply processVideo_body_keeps_audio; eassumption. }
  split; [assumption|].
  rewrite Hfiles. apply elem_of_union_r, elem_of_singleton. reflexivity.
Qed.

Lemma processVideo_failure_keeps_audio_witness :
  "/srv/temp/audio/job-1.mp3"
  ∈ files (snd (processVideoAsync_with (fun _ => OK deaf_provider)
                  externals_fine "job-1" "/srv/temp/uploads/talk.mp4"
                  options_short_300 metadata_300 "file" world_one_job)).
Proof.
  apply (processVideo_failure_keeps_audio (fun _ => OK deaf_provider)
           externals_fine "job-1" "/srv/temp/uploads/talk.mp4"
           options_short_300 metadata_300 "file" world_one_job
           (snd (processVideo_body (fun _ => OK deaf_provider) externals_fine
                   "job-1" "/srv/temp/uploads/talk.mp4" options_short_300
                   world_one_job))
           "speech service unavailable").
  - reflexivity.
  - vm_compute. reflexivity.
Defined.

Lemma processVideo_body_provider_error factory ext jobId videoPath options w
    message :
  transcoder ext (extractAudio_command videoPath (audioPath_of w jobId)) = None ->
  factory (env w) = Throw message ->
  processVideo_body factory ext jobId videoPath options w
  = (Throw message,
     printed
       (set_files
          (VideoProcessor.run_start "Extracting audio:"
             (extractAudio_command videoPath (audioPath_of w jobId))
             (printed w (Log ("Starting video processing for job " ++ jobId))))
          (files w ∪ {[audioPath_of w jobId]}))
       (Log ("Audio extracted: " ++ audioPath_of w jobId))).
Proof.
  intros Hrun Hfactory.
  unfold processVideo_body, VideoProcessor.extractAudio,
    VideoProcessor.run_finish, console_log, effect, reads, lift.
  unfold bind at 1 2 3 4 5.
  cbn [fst snd cwd env files dbData dbFile console printed set_files started
       VideoProcessor.run_start].
  fold (audioPath_of w jobId). rewrite Hrun.
  unfold bind at 1.
  cbn [fst snd cwd env files dbData dbFile console printed set_files started
       VideoProcessor.run_start].
  rewrite Hfactory. reflexivity.
Qed.

(** X12. A provider that cannot be made is found out only after the audio
    has been extracted: when [createAIProvider] throws, because the name in
    [AI_PROVIDER] is not [gemini] in any letter case or because
    [GEMINI_API_KEY] is missing or empty, [processVideoAsync] has run the
    transcoder once, stores nothing, prints the error and, if the
    extraction succeeded, leaves the audio artifact on disk. *)
Theorem processVideoAsync_provider_error :
  forall (ext : Externals) (jobId videoPath : string) (options : ClipOptions)
         (metadata : VideoMetadata.t) (sourcePlatform : string) (w : World),
    let w' :=
      snd (processVideoAsync ext jobId videoPath options metadata
             sourcePlatform w) in
    let name :=
      js_or_string (option_map toLowerCase (AI_PROVIDER (env w))) "gemini" in
    name <> "gemini" \/ js_or_string (GEMINI_API_KEY (env w)) "" = "" ->
    transcoder ext (extractAudio_command videoPath (audioPath_of w jobId))
      = None ->
    exists message,
      createAIProvider (env w) = Throw message
      /\ (message = "Unsupported AI provider: " ++ name
          \/ message = "GEMINI_API_KEY environment variable is required")
      /\ ffmpegRuns w'
         = (ffmpegRuns w
            ++ [extractAudio_command videoPath (audioPath_of w jobId)])%list
      /\ dbData w' = dbData w
      /\ dbFile w' = dbFile w
      /\ audioPath_of w jobId ∈ files w'
      /\ last (console w')
         = Some (Error ("Video processing failed for job " ++ jobId ++ ": "
                          ++ message)).
Proof.
  intros ext jobId videoPath options metadata sourcePlatform w w' name
         Hconfig Hrun.
  assert (Hthrow : exists message,
    createAIProvider (env w) = Throw message
    /\ (message = "Unsupported AI provider: " ++ name
        \/ message = "GEMINI_API_KEY environment variable is required")).
  { unfold createAIProvider. fold name.
    destruct (String.eqb_spec name "gemini") as [Hname|Hname].
    - destruct Hconfig as [Hbad|Hkey]; [contradiction|].
      unfold GeminiProvider. rewrite Hkey. eexists. split; [reflexivity|].
      right. reflexivity.
    - eexists. split; [reflexivity|]. left. reflexivity. }
  destruct Hthrow as (message & Hthrow & Hmessage).
  exists message. split; [assumption|]. split; [assumption|].
  subst w'. unfold processVideoAsync, processVideoAsync_with, try_catch.
  rewrite (processVideo_body_provider_error _ _ _ _ _ _ _ Hrun Hthrow).
  unfold processVideo_catch, console_error, effect.
  cbn [fst snd cwd env files dbData dbFile console ffmpegRuns printed
       set_files started VideoProcessor.run_start].
  split; [reflexivity|]. split; [reflexivity|]. split; [reflexivity|].
  split; [apply elem_of_union_r, elem_of_singleton; reflexivity|].
  apply last_snoc.
Qed.

Lemma processVideoAsync_provider_error_witness :
  exists message,
    createAIProvider (env world_no_key) = Throw message
    /\ "/srv/temp/audio/job-1.mp3"
       ∈ files (snd (processVideoAsync externals_fine "job-1"
                       "/srv/temp/uploads/talk.mp4" options_short_300
                       metadata_300 "file" world_no_key)).
Proof.
  destruct (processVideoAsync_provider_error externals_fine "job-1"
              "/srv/temp/uploads/talk.mp4" options_short_300 metadata_300
              "file" world_no_key)
    as (message & Hthrow & _ & _ & _ & _ & Hin & _).
  - right. reflexivity.
  - reflexivity.
  - exists message. split; [exact Hthrow|exact Hin].
Defined.

(** * Properties of [GET /job/:jobId] *)

Lemma insert_by_startSec_first (x : Db.RowRef) (l : list Db.RowRef) :
  Forall (fun y => ClipRow.startSec (snd x) <= ClipRow.startSec (snd y)) l ->
  Db.insert_by_startSec x l = x :: l.
Proof.
  destruct l as [|y l]; [reflexivity|]. intros Hall.
  inversion Hall as [|? ? Hle _]; subst. simpl.
  apply Qle_bool_iff in Hle. rewrite Hle. reflexivity.
Qed.

Lemma sort_by_startSec_sorted_id (l : list Db.RowRef) :
  StronglySorted
    (fun a b : Db.RowRef =>
       ClipRow.startSec (snd a) <= ClipRow.startSec (snd b)) l ->
  Db.sort_by_startSec l = l.
Proof.
  induction 1 as [|x l Hs IH Hall]; simpl; [reflexivity|].
  rewrite IH. apply insert_by_startSec_first. assumption.
Qed.

Lemma sort_by_startSec_nil (l : list Db.RowRef) :
  Db.sort_by_startSec l = [] -> l = [].
Proof.
  destruct l as [|x l]; [reflexivity|]. intros Hnil.
  assert (Hin : In x (Db.sort_by_startSec (x :: l))).
  { apply sort_by_startSec_In. left. reflexivity. }
  rewrite Hnil in Hin. contradiction.
Qed.

Lemma row_refs_app (old new : list ClipRow.t) :
  Db.row_refs (old ++ new)
  = (Db.row_refs old
     ++ combine (seq (List.length old) (List.length new)) new)%list.
Proof.
  unfold Db.row_refs.
  assert (H : forall k,
    combine (seq k (List.length (old ++ new))) (old ++ new)
    = (combine (seq k (List.length old)) old
       ++ combine (seq (k + List.length old) (List.length new)) new)%list).
  { induction old as [|r old IH]; intros k; simpl.
    - rewrite Nat.add_0_r. reflexivity.
    - rewrite IH.
      replace (k + S (List.length old))%nat with (S k + List.length old)%nat
        by lia.
      reflexivity. }
  apply H.
Qed.

Lemma filter_all {A} (p : A -> bool) (l : list A) :
  Forall (fun x => p x = true) l -> List.filter p l = l.
Proof.
  induction 1 as [|x l Hx Hl IH]; simpl; [reflexivity|].
  rewrite Hx, IH. reflexivity.
Qed.

Lemma combine_snd {A B} (l : list B) :
  forall (k : list A), List.length k = List.length l ->
    List.map snd (combine k l) = l.
Proof.
  induction l as [|b l IH]; intros [|a k] Hlen; simpl in *; try discriminate;
    try reflexivity.
  rewrite IH by lia. reflexivity.
Qed.

Lemma StronglySorted_combine_snd {A B} (R : B -> B -> Prop) (l : list B) :
  StronglySorted R l ->
  forall k : list A,
    StronglySorted (fun a b : A * B => R (snd a) (snd b)) (combine k l).
Proof.
  induction 1 as [|b l Hs IH Hall]; intros [|a k]; simpl; try constructor.
  - apply IH.
  - rewrite List.Forall_forall in *. intros [a' b'] Hin.
    apply List.in_combine_r in Hin. simpl. apply Hall. assumption.
Qed.

Lemma getClipsByJobId_appended jobId w w' rows :
  Db.getClipsByJobId jobId w = [] ->
  JsonDbShape.clips (dbData w') = (JsonDbShape.clips (dbData w) ++ rows)%list ->
  Forall (fun row => ClipRow.jobId row = jobId) rows ->
  StronglySorted (fun a b => ClipRow.startSec a <= ClipRow.startSec b) rows ->
  List.map snd (Db.getClipsByJobId jobId w') = rows.
Proof.
  intros Hnone Hclips Hjob Hsorted.
  unfold Db.getClipsByJobId in *. apply sort_by_startSec_nil in Hnone.
  rewrite Hclips, row_refs_app, List.filter_app.
  unfold Db.RowRef in *. rewrite Hnone. simpl.
  rewrite filter_all.
  - rewrite sort_by_startSec_sorted_id.
    + apply combine_snd. apply List.length_seq.
    + apply (StronglySorted_combine_snd
               (fun a b => ClipRow.startSec a <= ClipRow.startSec b)).
      assumption.
  - rewrite List.Forall_forall in *. intros [ref row] Hin.
    apply List.in_combine_r in Hin. simpl. apply String.eqb_eq.
    apply Hjob. assumption.
Qed.

Lemma StronglySorted_map {A B} (R : B -> B -> Prop) (f : A -> B) (l : list A) :
  StronglySorted (fun a b => R (f a) (f b)) l -> StronglySorted R (List.map f l).
Proof.
  induction 1 as [|a l Hs IH Hall]; simpl; constructor; [assumption|].
  apply List.Forall_map. assumption.
Qed.

Lemma job_handler_stored_clips :
  forall (factory : ProcessEnv -> Exc AIProvider.t) (ext : Externals)
         (jobId videoPath : string) (options : ClipOptions)
         (metadata : VideoMetadata.t) (sourcePlatform : string)
         (w : World) (clips : list GeneratedClip) (job : JobRow.t),
    let w' :=
      snd (processVideoAsync_with factory ext jobId videoPath options metadata
             sourcePlatform w) in
    stages_succeed factory ext jobId videoPath options w clips ->
    disk_fine ext ->
    sorted_by_start clips ->
    Db.getJob jobId w = Some job ->
    Db.getClipsByJobId jobId w = [] ->
    (forall url, JobRow.sourceUrl job = Some url ->
       exists host, url_hostname ext url = OK host) ->
    exists body,
      job_handler ext jobId w' = (JobJson body, w')
      /\ JobStatus.jobId body = jobId
      /\ JobStatus.status body = JobRow.status job
      /\ meta_durationSec (JobStatus.videoMeta body)
         = JobRow.videoDurationSec job
      /\ List.map generated_of (JobStatus.clips body) = clips.
Proof.
  intros factory ext jobId videoPath options metadata sourcePlatform w clips
         job w' Hstages Hdisk Hsorted Hjob Hnone Hhost.
  destruct (processVideo_body_stores factory ext jobId videoPath options w
              clips Hstages Hdisk)
    as (w1 & Hbody & Hclips & Hjobs & _).
  assert (Hw' : w' = w1).
  { subst w'. unfold processVideoAsync_with, try_catch. rewrite Hbody.
    reflexivity. }
  rewrite Hw'. clear w' Hw'.
  assert (Hfound : List.map snd (Db.getClipsByJobId jobId w1)
                   = List.map (stored_row jobId) clips).
  { apply (getClipsByJobId_appended jobId w w1); try assumption.
    - apply List.Forall_map, List.Forall_forall. intros clip _. reflexivity.
    - apply StronglySorted_map. exact Hsorted. }
  assert (Hjob1 : Db.getJob jobId w1 = Some job).
  { unfold Db.getJob in *. rewrite Hjobs. assumption. }
  unfold job_handler. rewrite Hjob1.
  assert (Hplatform : exists platform,
    (if truthy (JobRow.sourceUrl job)
     then url_hostname ext (default "" (JobRow.sourceUrl job))
     else OK "file") = OK platform).
  { destruct (JobRow.sourceUrl job) as [url|] eqn:Hurl; simpl.
    - destruct url as [|c url']; [eexists; reflexivity|].
      destruct (Hhost _ eq_refl) as (host & ->). eexists. reflexivity.
    - eexists. reflexivity. }
  destruct Hplatform as (platform & ->).
  eexists. split; [reflexivity|].
  cbn [JobStatus.jobId JobStatus.status JobStatus.videoMeta JobStatus.clips
       meta_durationSec].
  repeat (split; [reflexivity|]).
  rewrite List.map_map.
  rewrite <- (List.map_map snd (fun row => generated_of (job_clip row))).
  rewrite Hfound, List.map_map. rewrite <- (List.map_id clips) at 2.
  apply List.map_ext. intros clip. apply generated_of_stored_row.
Qed.


(** X13. The clips come back as they were generated.  Take a job that is
    stored and has no clip yet; let every stage of [processVideoAsync]
    succeed and the provider return clips in the order of their start
    times.  Then [GET /job/:jobId], asked after the run, answers with the
    job id, the status that was stored before the run, and clips that read
    as the clips of the provider, in their order. *)
Theorem job_handler_after_processing :
  forall (factory : ProcessEnv -> Exc AIProvider.t) (ext : Externals)
         (jobId videoPath : string) (options : ClipOptions)
         (metadata : VideoMetadata.t) (sourcePlatform : string)
         (w : World) (clips : list GeneratedClip) (job : JobRow.t),
    let w' :=
      snd (processVideoAsync_with factory ext jobId videoPath options metadata
             sourcePlatform w) in
    stages_succeed factory ext jobId videoPath options w clips ->
    disk_fine ext ->
    sorted_by_start clips ->
    Db.getJob jobId w = Some job ->
    Db.getClipsByJobId jobId w = [] ->
    (forall url, JobRow.sourceUrl job = Some url ->
       exists host, url_hostname ext url = OK host) ->
    exists body,
      job_handler ext jobId w' = (JobJson body, w')
      /\ JobStatus.jobId body = jobId
      /\ JobStatus.status body = JobRow.status job
      /\ meta_durationSec (JobStatus.videoMeta body)
         = JobRow.videoDurationSec job
      /\ List.map generated_of (JobStatus.clips body) = clips.
Proof.
  intros factory ext jobId videoPath options metadata sourcePlatform w clips
         job w' Hstages Hdisk Hsorted Hjob Hnone Hhost.
  apply (job_handler_stored_clips factory ext jobId videoPath options metadata
           sourcePlatform w clips job); assumption.
Qed.

Lemma job_handler_after_processing_witness :
  let w' :=
    snd (processVideoAsync externals_fine "job-1" "/srv/temp/uploads/talk.mp4"
           options_short_300 metadata_300 "file" world_one_job) in
  exists body,
    job_handler externals_fine "job-1" w' = (JobJson body, w')
    /\ JobStatus.status body = "processing"
    /\ List.map generated_of (JobStatus.clips body)
       = suggestClips rand_half (transcribe_mock 0 300) options_short_300.
Proof.
  destruct (job_handler_after_processing createAIProvider externals_fine
              "job-1" "/srv/temp/uploads/talk.mp4" options_short_300
              metadata_300 "file" world_one_job
              (suggestClips rand_half (transcribe_mock 0 300) options_short_300)
              job_1)
    as (body & Hanswer & _ & Hstatus & _ & Hclips).
  - split; [reflexivity|].
    eexists _, _. split; [reflexivity|]. split; reflexivity.
  - intros d. reflexivity.
  - apply gap_separated_sorted;
      apply (suggestClips_gap_separated rand_half (transcribe_mock 0 300)
               options_short_300); reflexivity.
  - reflexivity.
  - reflexivity.
  - intros url Hurl. discriminate Hurl.
  - exists body. split; [exact Hanswer|]. split; [exact Hstatus|exact Hclips].
Defined.

(** * Properties of [POST /analyze] *)

Lemma analyze_resolve_torn ext source jobId :
  stable dbFileTorn (analyze_resolve ext source jobId).
Proof.
  unfold analyze_resolve. destruct (Source.type source).
  - apply stable_bind; [apply stable_reads | intros uploadDir].
    apply stable_bind; [apply stable_lift | intros names].
    destruct (List.filter _ names); apply stable_ret.
  - apply stable_bind; [apply stable_reads | intros downloadDir].
    apply stable_try_catch.
    + unfold console_error. stable_steps.
    + intros message. unfold console_error. stable_steps.
Qed.

Lemma analyze_resolve_beside_console ext source jobId :
  stable beside_console (analyze_resolve ext source jobId).
Proof.
  unfold analyze_resolve. destruct (Source.type source).
  - apply stable_bind; [apply stable_reads | intros uploadDir].
    apply stable_bind; [apply stable_lift | intros names].
    destruct (List.filter _ names); apply stable_ret.
  - apply stable_bind; [apply stable_reads | intros downloadDir].
    apply stable_try_catch.
    + unfold console_error. stable_steps.
    + intros message. unfold console_error. stable_steps.
Qed.

Lemma analyze_resolve_platform ext source jobId w videoPath sourcePlatform w1 :
  analyze_resolve ext source jobId w
  = (OK (inr (videoPath, sourcePlatform)), w1) ->
  match Source.type source with
  | source_file => sourcePlatform = "file"
  | source_url =>
      url_hostname ext (default "" (Source.url source)) = OK sourcePlatform
  end
  /\ (Source.type source = source_file ->
      exists c rest, videoPath = String c rest).
Proof.
  unfold analyze_resolve, bind, reads, lift, try_catch, console_error, effect,
    ret.
  destruct (Source.type source).
  - destruct (readdirSync ext _) as [names|message]; [|discriminate].
    destruct (List.filter _ names) as [|name rest]; intros Heq;
      [discriminate|].
    injection Heq as <- <- _. split; [reflexivity|].
    intros _. apply path_join_not_empty.
  - destruct (downloadFromUrl ext _ _) as [path|message].
    + destruct (url_hostname ext _) as [host|message]; intros Heq;
        [|discriminate].
      injection Heq as <- <- _. split; [reflexivity|]. discriminate.
    + intros Heq. discriminate.
Qed.

Lemma analyze_body_valid ext source options w w1 videoPath sourcePlatform
    metadata :
  analyzable ext source options w w1 videoPath sourcePlatform metadata ->
  exists row,
    job_row_of ext source options w videoPath metadata row
    /\ analyze_body ext source options w
       = match writeFileSync_error ext (dbData (with_job w1 row)) with
         | None =>
             (OK (JsonAnalyze
                    {| AnalyzeResponse.jobId := uuidv4 ext;
                       AnalyzeResponse.videoMeta :=
                         {| meta_durationSec :=
                              VideoMetadata.durationSec metadata;
                            meta_title := path_basename videoPath;
                            meta_sourcePlatform := sourcePlatform |};
                       AnalyzeResponse.clips := [] |}),
              snd (processVideoAsync ext (uuidv4 ext) videoPath options
                     metadata sourcePlatform
                     (set_dbFile (with_job w1 row)
                        (dbData (with_job w1 row)))))
         | Some message =>
             (Throw message,
              if writeFileSync_opens ext (dbData (with_job w1 row))
              then tear_dbFile (with_job w1 row) else with_job w1 row)
         end.
Proof.
  intros (_ & Hresolve & Hprobe & Hlt & Hle).
  pose proof (analyze_resolve_beside_console ext source (uuidv4 ext) w)
    as Hsame.
  rewrite Hresolve in Hsame. unfold beside_console in Hsame.
  cbn [snd] in Hsame. injection Hsame as Hruns Hdata Hfile Hcwd Henv Hfiles.
  unfold analyze_body, bind at 1. rewrite Hresolve.
  unfold bind at 1, lift at 1. rewrite Hprobe.
  assert (Hwindow :
    Qle_bool (Options.timeEndSec options) (Options.timeStartSec options)
    || Qltb (VideoMetadata.durationSec metadata) (Options.timeEndSec options)
    = false).
  { apply orb_false_iff. split.
    - destruct (Qle_bool _ _) eqn:E; [|reflexivity].
      apply Qle_bool_iff in E. lra.
    - apply Qltb_ge. assumption. }
  rewrite Hwindow.
  unfold bind at 1, reads at 1. unfold bind at 1.
  unfold Db.createJob, bind at 1, effect at 1.
  match goal with
  | |- context [(JsonDbShape.jobs (dbData w1) ++ [?r])%list] => exists r
  end.
  split.
  - unfold job_row_of. cbn [JobRow.id JobRow.createdAt JobRow.sourceType
      JobRow.sourcePath JobRow.sourceUrl JobRow.options JobRow.videoDurationSec
      JobRow.providerName JobRow.status].
    rewrite Henv. repeat split.
  - unfold Db.save, with_job.
    destruct (writeFileSync_error ext _) as [message|] eqn:Hwrite;
      [reflexivity|].
    unfold bind, ret.
    pose proof (processVideoAsync_never_throws createAIProvider ext
                  (uuidv4 ext) videoPath options metadata sourcePlatform)
      as Hnever.
    fold processVideoAsync in Hnever.
    match goal with
    | |- context [processVideoAsync ext (uuidv4 ext) videoPath options
                    metadata sourcePlatform ?w2] =>
        specialize (Hnever w2);
        destruct (processVideoAsync ext (uuidv4 ext) videoPath options
                    metadata sourcePlatform w2) as [outcome w3]
    end.
    cbn [fst snd] in *. rewrite Hnever. reflexivity.
Qed.

Lemma analyze_accepted_world ext source options w w1 videoPath sourcePlatform
    metadata row :
  analyzable ext source options w w1 videoPath sourcePlatform metadata ->
  let w2 := set_dbFile (with_job w1 row) (dbData (with_job w1 row)) in
  let w' :=
    snd (processVideoAsync ext (uuidv4 ext) videoPath options metadata
           sourcePlatform w2) in
  JsonDbShape.jobs (dbData w') = (JsonDbShape.jobs (dbData w) ++ [row])%list
  /\ ffmpegRuns w'
     = (ffmpegRuns w
        ++ [extractAudio_command videoPath (audioPath_of w (uuidv4 ext))])%list.
Proof.
  intros (_ & Hresolve & _) w2 w'.
  pose proof (analyze_resolve_beside_console ext source (uuidv4 ext) w)
    as Hsame.
  rewrite Hresolve in Hsame. unfold beside_console in Hsame.
  cbn [snd] in Hsame. injection Hsame as Hruns Hdata Hfile Hcwd Henv Hfiles.
  split.
  - pose proof (processVideoAsync_job_side createAIProvider ext (uuidv4 ext)
                  videoPath options metadata sourcePlatform w2) as Hside.
    fold processVideoAsync in Hside. fold w' in Hside.
    unfold job_side in Hside. injection Hside as Hjobs _ _.
    rewrite Hjobs. unfold w2, with_job.
    cbn [dbData set_dbData set_dbFile JsonDbShape.jobs]. rewrite Hdata.
    reflexivity.
  - unfold w', processVideoAsync. rewrite processVideoAsync_runs.
    unfold audioPath_of, w2, with_job.
    cbn [cwd ffmpegRuns set_dbData set_dbFile]. rewrite Hcwd, Hruns.
    reflexivity.
Qed.

(** X14. A request that passes the checks of [POST /analyze] and whose
    job row can be written is answered with the new job id, the duration
    that ffprobe reported, the base name of the video, the source platform
    and an empty clip list.  The job is stored with the status
    [processing], and the processing of the job has started its one
    transcoder run.  The checks put no limit on the duration of the
    video. *)
Theorem analyze_accepts :
  forall (ext : Externals) (source : Source.t) (options : ClipOptions)
         (w w1 : World) (videoPath sourcePlatform : string)
         (metadata : VideoMetadata.t),
    let result := analyze ext source options w in
    analyzable ext source options w w1 videoPath sourcePlatform metadata ->
    disk_fine ext ->
    fst result
    = JsonAnalyze
        {| AnalyzeResponse.jobId := uuidv4 ext;
           AnalyzeResponse.videoMeta :=
             {| meta_durationSec := VideoMetadata.durationSec metadata;
                meta_title := path_basename videoPath;
                meta_sourcePlatform := sourcePlatform |};
           AnalyzeResponse.clips := [] |}
    /\ (exists row,
          job_row_of ext source options w videoPath metadata row
          /\ JsonDbShape.jobs (dbData (snd result))
             = (JsonDbShape.jobs (dbData w) ++ [row])%list)
    /\ ffmpegRuns (snd result)
       = (ffmpegRuns w
          ++ [extractAudio_command videoPath (audioPath_of w (uuidv4 ext))])%list.
Proof.
  intros ext source options w w1 videoPath sourcePlatform metadata result
         Hvalid Hdisk.
  destruct (analyze_body_valid ext source options w w1 videoPath
              sourcePlatform metadata Hvalid) as (row & Hrow & Hbody).
  rewrite Hdisk in Hbody.
  destruct (analyze_accepted_world ext source options w w1 videoPath
              sourcePlatform metadata row Hvalid) as [Hjobs Hruns].
  subst result. unfold analyze.
  destruct Hvalid as (-> & _). rewrite Hbody. cbn [fst snd].
  split; [reflexivity|]. split; [|assumption].
  exists row. split; assumption.
Qed.

Lemma analyze_accepts_witness :
  3600 < VideoMetadata.durationSec metadata_7200
  /\ fst (analyze externals_long source_long_url options_second_hour
            world_one_job)
     = JsonAnalyze
         {| AnalyzeResponse.jobId := "job-2";
            AnalyzeResponse.videoMeta :=
              {| meta_durationSec := 7200;
                 meta_title := "job-2.mp4";
                 meta_sourcePlatform := "video.example" |};
            AnalyzeResponse.clips := [] |}.
Proof.
  split; [reflexivity|].
  apply (analyze_accepts externals_long source_long_url options_second_hour
           world_one_job world_one_job "/srv/temp/downloads/job-2.mp4"
           "video.example" metadata_7200).
  - split; [reflexivity|]. split; [reflexivity|]. split; [reflexivity|].
    split; [reflexivity|]. vm_compute. discriminate.
  - intros d. reflexivity.
Defined.

Lemma analyze_window_bad options metadata :
  Qle_bool (Options.timeEndSec options) (Options.timeStartSec options)
  || Qltb (VideoMetadata.durationSec metadata) (Options.timeEndSec options)
  = false ->
  Options.timeStartSec options < Options.timeEndSec options
  /\ Options.timeEndSec options <= VideoMetadata.durationSec metadata.
Proof.
  intros Hwindow. apply orb_false_iff in Hwindow as [Hproper Hinside].
  split.
  - apply Qnot_le_lt. intros Hle. apply Qle_bool_iff in Hle. congruence.
  - apply Qltb_ge. assumption.
Qed.

Lemma analyze_resolve_refusal ext source jobId w response w1 :
  analyze_resolve ext source jobId w = (OK (inl response), w1) ->
  response = Json 404 {| errorCode := INVALID_SOURCE;
                         message := "Uploaded file not found" |}
  \/ response = Json 400 {| errorCode := DOWNLOAD_FAILED;
                            message := "Failed to download video from URL" |}.
Proof.
  unfold analyze_resolve, bind, reads, lift, try_catch, console_error, effect,
    ret.
  destruct (Source.type source).
  - destruct (readdirSync ext _) as [names|message]; [|discriminate].
    destruct (List.filter _ names); intros Heq; [|discriminate].
    injection Heq as <- _. left. reflexivity.
  - destruct (downloadFromUrl ext _ _) as [videoPath|message].
    + destruct (url_hostname ext _); intros Heq; [discriminate|].
      injection Heq as <- _. right. reflexivity.
    + intros Heq. injection Heq as <- _. right. reflexivity.
Qed.

(** X15. A request that [POST /analyze] does not accept is answered with
    an error of status 400, 404 or 500; it starts no transcoder run and
    stores no clip.  With one exception it stores no job either and leaves
    the database file alone.  The exception: when every check passed and
    the database file could not be written, the answer is 500 [INTERNAL],
    the job row stays in memory with the status [processing], and the file
    is torn if the failing write had opened it. *)
Theorem analyze_refusal_effects :
  forall (ext : Externals) (source : Source.t) (options : ClipOptions)
         (w : World),
    let result := analyze ext source options w in
    (forall body, fst result <> JsonAnalyze body) ->
    (exists status error,
       fst result = Json status error
       /\ (status = 400 \/ status = 404 \/ status = 500)%nat)
    /\ ffmpegRuns (snd result) = ffmpegRuns w
    /\ JsonDbShape.clips (dbData (snd result)) = JsonDbShape.clips (dbData w)
    /\ (JsonDbShape.jobs (dbData (snd result)) = JsonDbShape.jobs (dbData w)
        /\ dbFile (snd result) = dbFile w
        /\ dbFileTorn (snd result) = dbFileTorn w
        \/ exists row message,
             JsonDbShape.jobs (dbData (snd result))
             = (JsonDbShape.jobs (dbData w) ++ [row])%list
             /\ JobRow.status row = "processing"
             /\ writeFileSync_error ext (dbData (snd result)) = Some message
             /\ fst result
                = Json 500 {| errorCode := INTERNAL;
                              message := "Failed to analyze video" |}
             /\ dbFileTorn (snd result)
                = (writeFileSync_opens ext (dbData (snd result))
                   || dbFileTorn w)).
Proof.
  intros ext source options w result Hrefused.
  subst result. unfold analyze in *.
  destruct (AnalyzeRequestSchema_accepts source options) eqn:Hschema.
  2: { cbn [fst snd ffmpegRuns dbFile dbFileTorn dbData printed].
       split; [eexists _, _; split; [reflexivity|left; reflexivity]|].
       repeat split. left. repeat split. }
  pose proof (analyze_resolve_beside_console ext source (uuidv4 ext) w)
    as Hsame.
  pose proof (analyze_resolve_torn ext source (uuidv4 ext) w) as Htorn.
  unfold beside_console in Hsame.
  destruct (analyze_resolve ext source (uuidv4 ext) w)
    as [[[response | [videoPath sourcePlatform]] | failure] w1] eqn:Hresolve;
    cbn [snd] in Hsame, Htorn; injection Hsame as Hruns Hdata Hfile _ _ _.
  - destruct (analyze_resolve_refusal _ _ _ _ _ _ Hresolve) as [-> | ->];
      unfold analyze_body, bind in *; rewrite Hresolve in *;
      cbn [ret fst snd ffmpegRuns dbFile dbFileTorn dbData printed];
      rewrite Hruns, Hdata, Hfile, Htorn;
      (split; [eexists _, _; split; [reflexivity|tauto]|]);
      repeat split; left; repeat split.
  - destruct (ffprobe ext videoPath) as [metadata|failure] eqn:Hprobe.
    + destruct (Qle_bool (Options.timeEndSec options)
                  (Options.timeStartSec options)
                || Qltb (VideoMetadata.durationSec metadata)
                     (Options.timeEndSec options)) eqn:Hwindow.
      * unfold analyze_body, bind in *. rewrite Hresolve in *.
        unfold lift in *. rewrite Hprobe, Hwindow in *.
        cbn [ret fst snd ffmpegRuns dbFile dbFileTorn dbData printed].
        rewrite Hruns, Hdata, Hfile, Htorn.
        split; [eexists _, _; split; [reflexivity|tauto]|].
        repeat split. left. repeat split.
      * destruct (analyze_window_bad options metadata Hwindow) as [Hlt Hle].
        destruct (analyze_body_valid ext source options w w1 videoPath
                    sourcePlatform metadata) as (row & Hrow & Hbody).
        { repeat split; assumption. }
        rewrite Hbody in *.
        destruct (writeFileSync_error ext (dbData (with_job w1 row)))
          as [failure|] eqn:Hwrite.
        -- assert (Hstore :
             dbData (with_job w1 row)
             = {| JsonDbShape.jobs := (JsonDbShape.jobs (dbData w) ++ [row])%list;
                  JsonDbShape.clips := JsonDbShape.clips (dbData w) |}).
           { unfold with_job. cbn [dbData set_dbData]. rewrite Hdata.
             reflexivity. }
           destruct (writeFileSync_opens ext (dbData (with_job w1 row)))
             eqn:Hopens;
             cbn [fst snd ffmpegRuns dbFile dbFileTorn dbData printed with_job
                  tear_dbFile set_dbData JsonDbShape.clips JsonDbShape.jobs];
             rewrite Hruns, Hdata;
             (split; [eexists _, _; split; [reflexivity|tauto]|]);
             (split; [reflexivity|]); (split; [reflexivity|]);
             right; exists row, failure;
             (split; [reflexivity|]); (split; [apply Hrow|]);
             rewrite Hstore in Hwrite, Hopens;
             (split; [exact Hwrite|]); (split; [reflexivity|]);
             rewrite Hopens; [reflexivity | exact Htorn].
        -- exfalso. eapply Hrefused. reflexivity.
    + unfold analyze_body, bind in *. rewrite Hresolve in *.
      unfold lift in *. rewrite Hprobe in *.
      cbn [fst snd ffmpegRuns dbFile dbFileTorn dbData printed].
      rewrite Hruns, Hdata, Hfile, Htorn.
      split; [eexists _, _; split; [reflexivity|tauto]|].
      repeat split. left. repeat split.
  - unfold analyze_body, bind in *. rewrite Hresolve in *.
    cbn [fst snd ffmpegRuns dbFile dbFileTorn dbData printed].
    rewrite Hruns, Hdata, Hfile, Htorn.
    split; [eexists _, _; split; [reflexivity|tauto]|].
    repeat split. left. repeat split.
Qed.

Lemma analyze_refusal_effects_witness :
  ffmpegRuns (snd (analyze externals_fine source_talk options_degenerate
                     world_one_job))
  = ffmpegRuns world_one_job
  /\ JsonDbShape.clips
       (dbData (snd (analyze externals_fine source_talk options_degenerate
                       world_one_job)))
     = JsonDbShape.clips (dbData world_one_job).
Proof.
  destruct (analyze_refusal_effects externals_fine source_talk
              options_degenerate world_one_job)
    as (_ & Hruns & Hclips & _).
  - intros body. vm_compute. discriminate.
  - split; [exact Hruns|exact Hclips].
Defined.

(** ** The job of an analyzed request, as [GET /job/:jobId] shows it *)

Lemma job_handler_new_job ext source options w w' videoPath sourcePlatform
    metadata w1 row :
  analyzable ext source options w w1 videoPath sourcePlatform metadata ->
  job_row_of ext source options w videoPath metadata row ->
  Db.getJob (uuidv4 ext) w = None ->
  JsonDbShape.jobs (dbData w') = (JsonDbShape.jobs (dbData w) ++ [row])%list ->
  job_handler ext (uuidv4 ext) w'
  = (JobJson
       {| JobStatus.jobId := uuidv4 ext;
          JobStatus.status := "processing";
          JobStatus.videoMeta :=
            {| meta_durationSec := VideoMetadata.durationSec metadata;
               meta_title :=
                 match Source.type source with
                 | source_file => path_basename videoPath
                 | source_url => "Uploaded Video"
                 end;
               meta_sourcePlatform := sourcePlatform |};
          JobStatus.clips :=
            List.map (fun c => job_clip (snd c))
              (Db.getClipsByJobId (uuidv4 ext) w') |},
     w').
Proof.
  intros (Hschema & Hresolve & _) Hrow Hfresh Hjobs.
  destruct Hrow as (Hid & _ & _ & Hpath & Hurl & _ & Hduration & _ & Hstatus).
  destruct (analyze_resolve_platform _ _ _ _ _ _ _ Hresolve)
    as [Hplatform Hnonempty].
  assert (Hjob : Db.getJob (uuidv4 ext) w' = Some row).
  { unfold Db.getJob in *. rewrite Hjobs, find_snoc, Hfresh, Hid.
    rewrite String.eqb_refl. reflexivity. }
  unfold job_handler. rewrite Hjob, Hpath, Hurl, Hduration, Hstatus.
  unfold AnalyzeRequestSchema_accepts in Hschema.
  destruct (Source.type source).
  - destruct (Hnonempty eq_refl) as (c & rest & ->). subst sourcePlatform.
    reflexivity.
  - apply andb_prop in Hschema as [Hschema _].
    apply andb_prop in Hschema as [Hschema _].
    apply andb_prop in Hschema as [Hschema _].
    apply andb_prop in Hschema as [Hschema _].
    rewrite Hschema. cbn [truthy]. rewrite Hplatform. reflexivity.
Qed.

(** X16. The job of an accepted request is reported as [processing] for
    good.  When [POST /analyze] accepts a request under a job id that was
    not in use, [GET /job/:jobId] for the id of the answer, asked once the
    processing that the request started has run to its end, whether it
    completed or failed, answers with the status [processing], the duration
    and the source platform of the first answer, and as title the base
    name of the video for an uploaded file and [Uploaded Video] for a
    URL. *)
Theorem analyze_then_job_status :
  forall (ext : Externals) (source : Source.t) (options : ClipOptions)
         (w w1 : World) (videoPath sourcePlatform : string)
         (metadata : VideoMetadata.t),
    let result := analyze ext source options w in
    analyzable ext source options w w1 videoPath sourcePlatform metadata ->
    disk_fine ext ->
    Db.getJob (uuidv4 ext) w = None ->
    exists accepted reported,
      fst result = JsonAnalyze accepted
      /\ job_handler ext (AnalyzeResponse.jobId accepted) (snd result)
         = (JobJson reported, snd result)
      /\ JobStatus.status reported = "processing"
      /\ meta_durationSec (JobStatus.videoMeta reported)
         = meta_durationSec (AnalyzeResponse.videoMeta accepted)
      /\ meta_sourcePlatform (JobStatus.videoMeta reported)
         = meta_sourcePlatform (AnalyzeResponse.videoMeta accepted)
      /\ meta_title (JobStatus.videoMeta reported)
         = match Source.type source with
           | source_file => meta_title (AnalyzeResponse.videoMeta accepted)
           | source_url => "Uploaded Video"
           end.
Proof.
  intros ext source options w w1 videoPath sourcePlatform metadata result
         Hvalid Hdisk Hfresh.
  destruct (analyze_body_valid ext source options w w1 videoPath
              sourcePlatform metadata Hvalid) as (row & Hrow & Hbody).
  rewrite Hdisk in Hbody.
  destruct (analyze_accepted_world ext source options w w1 videoPath
              sourcePlatform metadata row Hvalid) as [Hjobs _].
  assert (Hresult : result
    = (JsonAnalyze
         {| AnalyzeResponse.jobId := uuidv4 ext;
            AnalyzeResponse.videoMeta :=
              {| meta_durationSec := VideoMetadata.durationSec metadata;
                 meta_title := path_basename videoPath;
                 meta_sourcePlatform := sourcePlatform |};
            AnalyzeResponse.clips := [] |},
       snd (processVideoAsync ext (uuidv4 ext) videoPath options metadata
              sourcePlatform
              (set_dbFile (with_job w1 row) (dbData (with_job w1 row)))))).
  { subst result. unfold analyze. destruct Hvalid as (-> & _).
    rewrite Hbody. reflexivity. }
  rewrite Hresult. cbn [fst snd].
  eexists _, _. split; [reflexivity|]. cbn [AnalyzeResponse.jobId].
  split.
  - eapply job_handler_new_job; eassumption.
  - cbn [JobStatus.status JobStatus.videoMeta AnalyzeResponse.videoMeta
         meta_durationSec meta_sourcePlatform meta_title].
    repeat split.
Qed.

Lemma analyze_then_job_status_witness :
  exists accepted reported,
    fst (analyze externals_fine source_talk options_short_300 world_empty)
    = JsonAnalyze accepted
    /\ job_handler externals_fine (AnalyzeResponse.jobId accepted)
         (snd (analyze externals_fine source_talk options_short_300
                 world_empty))
       = (JobJson reported,
          snd (analyze externals_fine source_talk options_short_300
                 world_empty))
    /\ JobStatus.status reported = "processing".
Proof.
  destruct (analyze_then_job_status externals_fine source_talk
              options_short_300 world_empty world_empty
              "/srv/temp/uploads/talk.mp4" "file" metadata_300)
    as (accepted & reported & Haccepted & Hreported & Hstatus & _).
  - split; [reflexivity|]. split; [reflexivity|]. split; [reflexivity|].
    split; [reflexivity|]. vm_compute. discriminate.
  - intros d. reflexivity.
  - reflexivity.
  - exists accepted, reported.
    split; [exact Haccepted|]. split; [exact Hreported|exact Hstatus].
Defined.

(** X17. When every check of [POST /analyze] passed and the database file
    cannot be written, the request is answered with 500 [INTERNAL] and no
    processing is started, yet the job is in memory: [GET /job/:jobId] for
    the id that was drawn answers with the status [processing].  The file
    is torn if the failing write had opened it, and as it was if not. *)
Theorem analyze_write_failure_leaves_job :
  forall (ext : Externals) (source : Source.t) (options : ClipOptions)
         (w w1 : World) (videoPath sourcePlatform : string)
         (metadata : VideoMetadata.t),
    let result := analyze ext source options w in
    analyzable ext source options w w1 videoPath sourcePlatform metadata ->
    (forall d, writeFileSync_error ext d <> None) ->
    Db.getJob (uuidv4 ext) w = None ->
    fst result = Json 500 {| errorCode := INTERNAL;
                             message := "Failed to analyze video" |}
    /\ ffmpegRuns (snd result) = ffmpegRuns w
    /\ (if writeFileSync_opens ext (dbData (snd result))
        then dbFileTorn (snd result) = true
        else dbFileTorn (snd result) = dbFileTorn w
             /\ dbFile (snd result) = dbFile w)
    /\ exists reported,
         job_handler ext (uuidv4 ext) (snd result)
         = (JobJson reported, snd result)
         /\ JobStatus.status reported = "processing".
Proof.
  intros ext source options w w1 videoPath sourcePlatform metadata result
         Hvalid Hdisk Hfresh.
  destruct (analyze_body_valid ext source options w w1 videoPath
              sourcePlatform metadata Hvalid) as (row & Hrow & Hbody).
  destruct (writeFileSync_error ext (dbData (with_job w1 row)))
    as [failure|] eqn:Hwrite; [|apply Hdisk in Hwrite; contradiction].
  pose proof (analyze_resolve_beside_console ext source (uuidv4 ext) w)
    as Hsame.
  pose proof (analyze_resolve_torn ext source (uuidv4 ext) w) as Htorn.
  pose proof Hvalid as (Hschema & Hresolve & _).
  rewrite Hresolve in Hsame, Htorn. unfold beside_console in Hsame.
  cbn [snd] in Hsame, Htorn. injection Hsame as Hruns Hdata Hfile _ _ _.
  assert (Hresult : result
    = (Json 500 {| errorCode := INTERNAL;
                   message := "Failed to analyze video" |},
       printed (if writeFileSync_opens ext (dbData (with_job w1 row))
                then tear_dbFile (with_job w1 row) else with_job w1 row)
               (Error ("Analyze error: " ++ failure)))).
  { subst result. unfold analyze. rewrite Hschema, Hbody. reflexivity. }
  rewrite Hresult. cbn [fst snd].
  assert (Hstore : forall w2,
    dbData (printed (if writeFileSync_opens ext (dbData (with_job w1 row))
                     then tear_dbFile (with_job w1 row) else with_job w1 row)
                    w2)
    = dbData (with_job w1 row)).
  { intros w2. destruct (writeFileSync_opens ext _); reflexivity. }
  rewrite Hstore.
  split; [reflexivity|]. split; [|split].
  - destruct (writeFileSync_opens ext _); exact Hruns.
  - destruct (writeFileSync_opens ext _);
      cbn [dbFile dbFileTorn printed tear_dbFile with_job set_dbData];
      [reflexivity | split; assumption].
  - eexists. split.
    + eapply job_handler_new_job; try eassumption.
      rewrite Hstore.
      cbn [dbData with_job set_dbData JsonDbShape.jobs].
      rewrite Hdata. reflexivity.
    + reflexivity.
Qed.

Lemma analyze_write_failure_leaves_job_witness :
  fst (analyze externals_disk_full source_talk options_short_300 world_empty)
  = Json 500 {| errorCode := INTERNAL; message := "Failed to analyze video" |}
  /\ exists reported,
       job_handler externals_disk_full "job-2"
         (snd (analyze externals_disk_full source_talk options_short_300
                 world_empty))
       = (JobJson reported,
          snd (analyze externals_disk_full source_talk options_short_300
                 world_empty))
       /\ JobStatus.status reported = "processing".
Proof.
  destruct (analyze_write_failure_leaves_job externals_disk_full source_talk
              options_short_300 world_empty world_empty
              "/srv/temp/uploads/talk.mp4" "file" metadata_300)
    as (Hanswer & _ & _ & Hreported).
  - split; [reflexivity|]. split; [reflexivity|]. split; [reflexivity|].
    split; [reflexivity|]. vm_compute. discriminate.
  - intros d. discriminate.
  - reflexivity.
  - split; [exact Hanswer|exact Hreported].
Defined.

(** * Properties of [POST /upload] *)

(** X18. [POST /upload] never touches the store and starts no transcoder
    run.  A file that ffprobe reads and that lasts at most 3600 seconds is
    accepted and stays on disk; the answer repeats its size, its original
    name and the probed duration, width and height.  A file that lasts
    longer is refused with 400 [VIDEO_TOO_LONG] and removed from disk.  A
    file that ffprobe cannot read is refused with 500 [INTERNAL] and stays
    on disk. *)
Theorem upload_outcomes :
  forall (ext : Externals) (path_extname : string -> string)
         (path_basename_ext : string -> string -> string)
         (file : UploadedFile.t) (w : World),
    let result := upload ext path_extname path_basename_ext (Some file) w in
    let stored := UploadedFile.path file in
    (dbData (snd result) = dbData w
     /\ dbFile (snd result) = dbFile w
     /\ ffmpegRuns (snd result) = ffmpegRuns w)
    /\ (forall metadata,
          ffprobe ext stored = OK metadata ->
          VideoMetadata.durationSec metadata <= 3600 ->
          (exists body,
             fst result = UploadJson body
             /\ UploadResponse.size body = UploadedFile.size file
             /\ UploadResponse.originalName body
                = UploadedFile.originalname file
             /\ UploadResponse.durationSec body
                = VideoMetadata.durationSec metadata
             /\ UploadResponse.width body = VideoMetadata.width metadata
             /\ UploadResponse.height body = VideoMetadata.height metadata)
          /\ snd result = w)
    /\ (forall metadata,
          ffprobe ext stored = OK metadata ->
          3600 < VideoMetadata.durationSec metadata ->
          fst result
          = UploadError 400
              {| errorCode := VIDEO_TOO_LONG;
                 message := "Video duration exceeds 1 hour limit" |}
          /\ (stored ∉ files (snd result))
          /\ files (snd result) = files w ∖ {[stored]})
    /\ (forall failure,
          ffprobe ext stored = Throw failure ->
          fst result
          = UploadError 500 {| errorCode := INTERNAL;
                               message := "Failed to upload video" |}
          /\ files (snd result) = files w).
Proof.
  intros ext path_extname path_basename_ext file w result stored.
  subst result stored. unfold upload.
  split; [|split; [|split]].
  - destruct (ffprobe ext _) as [metadata|failure]; [|repeat split].
    destruct (Qltb 3600 _); [|repeat split].
    unfold VideoProcessor.cleanup, effect. cbn [snd].
    destruct (decide _); repeat split.
  - intros metadata -> Hshort. apply Qltb_ge in Hshort. rewrite Hshort.
    split; [|reflexivity]. eexists. split; [reflexivity|]. repeat split.
  - intros metadata -> Hlong. apply Qltb_lt in Hlong. rewrite Hlong.
    unfold VideoProcessor.cleanup, effect. cbn [fst snd].
    split; [reflexivity|].
    destruct (decide _) as [Hin|Hout]; cbn [files printed set_files].
    + split.
      * intros Hstill. apply elem_of_difference in Hstill as [_ Hnot].
        apply Hnot. apply elem_of_singleton. reflexivity.
      * reflexivity.
    + split; [assumption|].
      apply set_eq. intros p. rewrite elem_of_difference, elem_of_singleton.
      split; [|tauto]. intros Hp. split; [assumption|].
      intros ->. contradiction.
  - intros failure ->. split; reflexivity.
Qed.

Lemma upload_outcomes_witness :
  (exists body,
     fst (upload externals_fine (fun _ => ".mp4") (fun _ _ => "talk")
            (Some file_talk) world_one_job)
     = UploadJson body
     /\ UploadResponse.durationSec body = 300)
  /\ ("/srv/temp/uploads/talk.mp4"
      ∉ files (snd (upload externals_long (fun _ => ".mp4")
                      (fun _ _ => "talk") (Some file_talk) world_one_job)))
  /\ files (snd (upload externals_no_probe (fun _ => ".mp4")
                   (fun _ _ => "talk") (Some file_talk) world_one_job))
     = files world_one_job.
Proof.
  destruct (upload_outcomes externals_fine (fun _ => ".mp4")
              (fun _ _ => "talk") file_talk world_one_job)
    as (_ & Haccepted & _).
  destruct (upload_outcomes externals_long (fun _ => ".mp4")
              (fun _ _ => "talk") file_talk world_one_job)
    as (_ & _ & Hlong & _).
  destruct (upload_outcomes externals_no_probe (fun _ => ".mp4")
              (fun _ _ => "talk") file_talk world_one_job)
    as (_ & _ & _ & Hfailed).
  split; [|split].
  - destruct (Haccepted metadata_300 eq_refl) as ((body & Hbody & _ & _ & Hd & _) & _).
    + vm_compute. discriminate.
    + exists body. split; [exact Hbody|exact Hd].
  - apply (Hlong metadata_7200 eq_refl). reflexivity.
  - apply (Hfailed "Failed to probe video: Invalid data found" eq_refl).
Defined.

(** * Further properties of [GET /job/:jobId] *)

Lemma row_before_le (a b : Db.RowRef) :
  row_before a b -> ClipRow.startSec (snd a) <= ClipRow.startSec (snd b).
Proof.
  intros [Hlt | [Heq _]]; lra.
Qed.

Lemma StronglySorted_impl {A} (R R' : A -> A -> Prop) (l : list A) :
  (forall a b, R a b -> R' a b) -> StronglySorted R l -> StronglySorted R' l.
Proof.
  intros Himpl. induction 1 as [|a l Hs IH Hall]; constructor.
  - assumption.
  - eapply List.Forall_impl; [|exact Hall]. intros b. apply Himpl.
Qed.

(** X19. [GET /job/:jobId] changes nothing but the console.  An id that
    no job carries is answered with 404 [NOT_FOUND].  Every other answer
    that is not an error repeats the status and the duration of the stored
    job and lists the clips of the job and no other clip, in the order of
    their start times, each with its two flags read back as booleans.  An
    error other than 404 has the status 500 and comes from a stored source
    URL that cannot be parsed. *)
Theorem job_handler_reads_store :
  forall (ext : Externals) (jobId : string) (w : World),
    let result := job_handler ext jobId w in
    beside_console (snd result) = beside_console w
    /\ (Db.getJob jobId w = None ->
        result = (JobError 404 {| errorCode := NOT_FOUND;
                                  message := "Job not found" |}, w))
    /\ (forall body,
          fst result = JobJson body ->
          snd result = w
          /\ (exists job,
                Db.getJob jobId w = Some job
                /\ JobStatus.status body = JobRow.status job
                /\ meta_durationSec (JobStatus.videoMeta body)
                   = JobRow.videoDurationSec job)
          /\ JobStatus.clips body
             = List.map (fun c => job_clip (snd c)) (Db.getClipsByJobId jobId w)
          /\ Forall (fun c => JobClip.jobId c = jobId) (JobStatus.clips body)
          /\ StronglySorted
               (fun a b => JobClip.startSec a <= JobClip.startSec b)
               (JobStatus.clips body))
    /\ (forall status error,
          fst result = JobError status error ->
          (status = 404%nat /\ Db.getJob jobId w = None)
          \/ (status = 500%nat
              /\ exists job url failure,
                   Db.getJob jobId w = Some job
                   /\ JobRow.sourceUrl job = Some url
                   /\ url_hostname ext url = Throw failure)).
Proof.
  intros ext jobId w result. subst result. unfold job_handler.
  destruct (Db.getJob jobId w) as [job|] eqn:Hjob.
  2: { split; [reflexivity|]. split; [reflexivity|]. split.
       - intros body Hbody. discriminate.
       - intros status error Herror. injection Herror as <- _.
         left. split; reflexivity. }
  destruct (if truthy (JobRow.sourceUrl job)
            then url_hostname ext (default "" (JobRow.sourceUrl job))
            else OK "file") as [platform|failure] eqn:Hplatform.
  - split; [reflexivity|]. split; [discriminate|]. split.
    + intros body Hbody. injection Hbody as <-.
      cbn [snd JobStatus.status JobStatus.videoMeta JobStatus.clips
           meta_durationSec].
      split; [reflexivity|]. split; [exists job; repeat split|].
      split; [reflexivity|]. split.
      * apply List.Forall_map, List.Forall_forall. intros [ref row] Hin.
        apply getClipsByJobId_In in Hin as [_ Hrow]. exact Hrow.
      * apply StronglySorted_map.
        apply StronglySorted_impl with (R := row_before);
          [intros a b; apply row_before_le|].
        unfold Db.getClipsByJobId. apply sort_by_startSec_sorted.
        apply StronglySorted_filter. apply row_refs_from_increasing.
    + intros status error Herror. discriminate.
  - split; [reflexivity|]. split; [discriminate|]. split.
    + intros body Hbody. discriminate.
    + intros status error Herror. injection Herror as <- _. right.
      split; [reflexivity|].
      destruct (JobRow.sourceUrl job) as [url|] eqn:Hurl;
        [|discriminate Hplatform].
      destruct url as [|c url']; [discriminate Hplatform|].
      exists job, (String c url'), failure.
      split; [reflexivity|]. split; [exact Hurl|]. exact Hplatform.
Qed.

Lemma job_handler_reads_store_witness :
  job_handler externals_fine "job-9" world_one_clip
  = (JobError 404 {| errorCode := NOT_FOUND; message := "Job not found" |},
     world_one_clip)
  /\ exists body,
       fst (job_handler externals_fine "job-1" world_one_clip) = JobJson body
       /\ JobStatus.clips body
          = List.map (fun c => job_clip (snd c))
              (Db.getClipsByJobId "job-1" world_one_clip).
Proof.
  destruct (job_handler_reads_store externals_fine "job-9" world_one_clip)
    as (_ & Hunknown & _).
  destruct (job_handler_reads_store externals_fine "job-1" world_one_clip)
    as (_ & _ & Hknown & _).
  split.
  - apply Hunknown. reflexivity.
  - eexists. split; [reflexivity|].
    apply (Hknown _ eq_refl).
Defined.

(** * Further properties of the download handler *)

Lemma download_begin_cases jobId clipId w :
  (exists response,
     download_begin jobId clipId w = (inl response, w)
     /\ ((exists error, response = Json 404 error)
         \/ exists path, response = SendFile path /\ path ∈ files w))
  \/ (exists p,
        download_begin jobId clipId w
        = (inr p, VideoProcessor.createClip_start (pending_params p) w)).
Proof.
  unfold download_begin. cbv zeta.
  destruct (List.find (has_id clipId) (Db.getClipsByJobId jobId w))
    as [[ref clip]|].
  2: { left. eexists. split; [reflexivity|]. left. eexists. reflexivity. }
  destruct (needs_render clip w) eqn:Hneeds.
  - destruct (Db.getJob jobId w) as [job|].
    2: { left. eexists. split; [reflexivity|]. left. eexists. reflexivity. }
    destruct (js_or_path _ _) as [videoPath|].
    2: { left. eexists. split; [reflexivity|]. left. eexists. reflexivity. }
    right.
    exists {| pending_clip := ref;
              pending_params :=
                {| ClipParams.inputPath := videoPath;
                   ClipParams.outputPath :=
                     path_join (path_join (path_join (cwd w) "temp") "clips")
                       (clipId ++ ".mp4");
                   ClipParams.startSec := ClipRow.startSec clip;
                   ClipParams.endSec := ClipRow.endSec clip;
                   ClipParams.aspectRatio := Some (ClipRow.aspectRatio clip);
                   ClipParams.quality := None |} |}.
    reflexivity.
  - left. eexists. split; [reflexivity|]. right.
    unfold needs_render in Hneeds.
    destruct (ClipRow.clipFilePath clip) as [[|c path]|]; try discriminate.
    apply negb_false_iff in Hneeds. apply bool_decide_eq_true in Hneeds.
    eexists. split; [reflexivity|exact Hneeds].
Qed.

Lemma download_resume_cases ext p w :
  download_resume ext p w
  = match transcoder ext (createClip_command (pending_params p)) with
    | None =>
        (SendFile (ClipParams.outputPath (pending_params p)),
         set_clipFilePath (pending_clip p)
           (ClipParams.outputPath (pending_params p))
           (printed
              (set_files w
                 (files w ∪ {[ClipParams.outputPath (pending_params p)]}))
              (Log ("Clip created successfully: "
                      ++ ClipParams.outputPath (pending_params p)))))
    | Some failure =>
        (Json 500 {| errorCode := INTERNAL;
                     message := "Failed to download clip" |},
         printed
           (printed
              (if transcoder_leaves_output ext
                    (createClip_command (pending_params p))
               then set_files w
                      (files w ∪ {[ClipParams.outputPath (pending_params p)]})
               else w)
              (Error ("Error creating clip: " ++ failure)))
           (Error ("Download clip error: " ++ "Failed to create clip: "
                     ++ failure)))
    end.
Proof.
  unfold download_resume, VideoProcessor.createClip_finish,
    VideoProcessor.run_finish.
  destruct (transcoder ext _); reflexivity.
Qed.

Lemma sans_artifact_alter ref outputPath rows :
  sans_artifact (alter (with_clipFilePath outputPath) ref rows)
  = sans_artifact rows.
Proof.
  unfold sans_artifact. revert ref.
  induction rows as [|row rows IH]; intros [|ref]; try reflexivity.
  - change (alter (with_clipFilePath outputPath) (S ref) (row :: rows))
      with (row :: alter (with_clipFilePath outputPath) ref rows).
    simpl. rewrite IH. reflexivity.
Qed.

Lemma step_beside_artifacts ext s ev :
  beside_artifacts (world (step ext s ev)) = beside_artifacts (world s).
Proof.
  destruct ev as [request jobId clipId | request]; unfold step.
  - destruct (download_begin_cases jobId clipId (world s))
      as [(response & -> & _) | (p & ->)]; reflexivity.
  - destruct (pending s !! request) as [p|]; [|reflexivity].
    rewrite download_resume_cases.
    destruct (transcoder ext _); cbn [world];
      [destruct (transcoder_leaves_output ext _); reflexivity|].
    unfold beside_artifacts, set_clipFilePath.
    cbn [dbFile dbData cwd env set_dbData printed set_files
         JsonDbShape.jobs JsonDbShape.clips].
    rewrite sans_artifact_alter. reflexivity.
Qed.

(** X20. Serving download requests never writes the database file and
    never changes a job row; of the clip rows in memory it changes nothing
    but artifact paths.  This holds for every sequence of arrivals and
    encoder completions, from every state of the server. *)
Theorem download_keeps_store :
  forall (ext : Externals) (events : list Event) (s : Server),
    dbFile (world (run ext events s)) = dbFile (world s)
    /\ JsonDbShape.jobs (dbData (world (run ext events s)))
       = JsonDbShape.jobs (dbData (world s))
    /\ sans_artifact (JsonDbShape.clips (dbData (world (run ext events s))))
       = sans_artifact (JsonDbShape.clips (dbData (world s))).
Proof.
  intros ext events.
  assert (Hrun : forall s,
    beside_artifacts (world (run ext events s)) = beside_artifacts (world s)).
  { induction events as [|ev events IH]; intros s; [reflexivity|].
    rewrite run_cons, IH. apply step_beside_artifacts. }
  intros s. specialize (Hrun s). unfold beside_artifacts in Hrun.
  injection Hrun as Hfile Hjobs Hclips _ _. repeat split; assumption.
Qed.

Lemma step_files ext s ev :
  files (world s) ⊆ files (world (step ext s ev)).
Proof.
  destruct ev as [request jobId clipId | request]; unfold step.
  - destruct (download_begin_cases jobId clipId (world s))
      as [(response & -> & _) | (p & ->)]; reflexivity.
  - destruct (pending s !! request) as [p|]; [|reflexivity].
    rewrite download_resume_cases.
    destruct (transcoder ext _); cbn [world].
    + destruct (transcoder_leaves_output ext _);
        cbn [files printed set_files];
        [apply union_subseteq_l | reflexivity].
    + unfold set_clipFilePath. cbn [files set_dbData printed set_files].
      apply union_subseteq_l.
Qed.

Lemma step_sent_files_exist ext s ev :
  sent_files_exist s -> sent_files_exist (step ext s ev).
Proof.
  intros Hsent request path Hin.
  pose proof (step_files ext s ev) as Hfiles.
  destruct ev as [request' jobId clipId | request']; unfold step in *.
  - destruct (download_begin_cases jobId clipId (world s))
      as [(response & Hbegin & Hresponse) | (p & Hbegin)];
      rewrite Hbegin in *; cbn [responses world] in *.
    + apply List.in_app_or in Hin as [Hin | [Heq | []]].
      * apply (Hsent request). assumption.
      * injection Heq as _ ->.
        destruct Hresponse as [(error & Herror) | (path' & Hpath & Hthere)];
          [discriminate|].
        injection Hpath as ->. assumption.
    + apply Hfiles. apply (Hsent request). assumption.
  - destruct (pending s !! request') as [p|];
      [|apply (Hsent request); assumption].
    rewrite download_resume_cases in *.
    destruct (transcoder ext _) as [failure|]; cbn [responses world] in *.
    + apply List.in_app_or in Hin as [Hin | [Heq | []]]; [|discriminate].
      apply Hfiles. apply (Hsent request). assumption.
    + apply List.in_app_or in Hin as [Hin | [Heq | []]].
      * apply Hfiles. apply (Hsent request). assumption.
      * injection Heq as _ <-. unfold set_clipFilePath.
        cbn [files set_dbData printed set_files].
        apply elem_of_union_r, elem_of_singleton. reflexivity.
Qed.

(** X21. The server sends no file that is not there: whatever requests
    arrive and whatever the transcoder does, every path that was answered
    with [sendFile] names a file that is on disk, because a path is sent
    only after [existsSync] found it or after the transcoder wrote it, and
    the handler removes no file. *)
Theorem download_sends_existing_files :
  forall (ext : Externals) (events : list Event) (w : World),
    sent_files_exist (run ext events (serving w)).
Proof.
  intros ext events w.
  assert (Hrun : forall s, sent_files_exist s ->
                           sent_files_exist (run ext events s)).
  { induction events as [|ev events IH]; intros s Hs; [exact Hs|].
    rewrite run_cons. apply IH. apply step_sent_files_exist. exact Hs. }
  apply Hrun. intros request path Hin. destruct Hin.
Qed.

Lemma download_begin_due w jobId clipId ref clip videoPath :
  render_due w jobId clipId ref clip videoPath ->
  download_begin jobId clipId w
  = (inr {| pending_clip := ref;
            pending_params := download_params w clipId videoPath clip |},
     VideoProcessor.createClip_start
       (download_params w clipId videoPath clip) w).
Proof.
  intros (Hfind & Hneeds & job & Hjob & Hpath).
  unfold download_begin. cbv zeta. unfold find_clip in Hfind.
  rewrite Hfind, Hneeds, Hjob, Hpath. reflexivity.
Qed.

Lemma render_due_same w w1 jobId clipId ref clip videoPath :
  dbData w1 = dbData w -> files w1 = files w ->
  render_due w jobId clipId ref clip videoPath ->
  render_due w1 jobId clipId ref clip videoPath.
Proof.
  intros Hdb Hfiles (Hfind & Hneeds & job & Hjob & Hpath).
  unfold render_due, find_clip, Db.getClipsByJobId, needs_render, Db.getJob
    in *.
  rewrite Hdb, Hfiles.
  split; [exact Hfind|]. split; [exact Hneeds|].
  exists job. split; assumption.
Qed.

Lemma render_due_left w w1 jobId clipId ref clip videoPath path :
  dbData w1 = dbData w -> files w1 = files w ∪ {[path]} ->
  ClipRow.clipFilePath clip <> Some path ->
  render_due w jobId clipId ref clip videoPath ->
  render_due w1 jobId clipId ref clip videoPath.
Proof.
  intros Hdb Hfiles Hother (Hfind & Hneeds & job & Hjob & Hpath).
  unfold render_due, find_clip, Db.getClipsByJobId, needs_render, Db.getJob
    in *.
  rewrite Hdb, Hfiles.
  split; [exact Hfind|]. split; [|exists job; split; assumption].
  destruct (ClipRow.clipFilePath clip) as [[|c recorded]|];
    [reflexivity| |reflexivity].
  apply negb_true_iff, bool_decide_eq_false.
  apply negb_true_iff, bool_decide_eq_false in Hneeds.
  rewrite elem_of_union, elem_of_singleton. intros [Hin | Heq].
  - apply Hneeds. exact Hin.
  - apply Hother. rewrite Heq. reflexivity.
Qed.

(** X22. A render that fails is tried again by the next request.  Take a
    clip that is due for a render and whose row does not record the path
    that the handler writes.  When the transcoder ends with an error on
    its command, the request is answered with 500 [INTERNAL]; the store is
    as before, so no artifact path is recorded, and the files are as
    before except for the output file, which is there if the failed run
    had created it.  A second request for the clip starts the same command
    again. *)
Theorem download_failure_retries :
  forall (ext : Externals) (w : World) (jobId clipId : string)
         (ref : nat) (clip : ClipRow.t) (videoPath : string)
         (first second : nat) (failure : string),
    let params := download_params w clipId videoPath clip in
    let command := createClip_command params in
    let served :=
      run ext [Arrive first jobId clipId; EncodeDone first;
               Arrive second jobId clipId] (serving w) in
    render_due w jobId clipId ref clip videoPath ->
    ClipRow.clipFilePath clip <> Some (ClipParams.outputPath params) ->
    transcoder ext command = Some failure ->
    responses served
    = [(first, Json 500 {| errorCode := INTERNAL;
                           message := "Failed to download clip" |})]
    /\ pending served
       = {[ second := {| pending_clip := ref; pending_params := params |} ]}
    /\ ffmpegRuns (world served) = (ffmpegRuns w ++ [command; command])%list
    /\ dbData (world served) = dbData w
    /\ files (world served)
       = if transcoder_leaves_output ext command
         then files w ∪ {[ClipParams.outputPath params]} else files w.
Proof.
  intros ext w jobId clipId ref clip videoPath first second failure params
         command served Hdue Hother Hfails.
  set (p := {| pending_clip := ref; pending_params := params |}).
  set (w1 := VideoProcessor.createClip_start params w).
  assert (Hfirst : step ext (serving w) (Arrive first jobId clipId)
                   = {| world := w1;
                        pending := <[first := p]> ∅;
                        responses := [] |}).
  { unfold step. cbn [world serving].
    rewrite (download_begin_due w jobId clipId ref clip videoPath Hdue).
    reflexivity. }
  set (w2 := printed
               (printed
                  (if transcoder_leaves_output ext command
                   then set_files w1
                          (files w1 ∪ {[ClipParams.outputPath params]})
                   else w1)
                  (Error ("Error creating clip: " ++ failure)))
               (Error ("Download clip error: " ++ "Failed to create clip: "
                         ++ failure))).
  assert (Hdone : step ext
                    {| world := w1;
                       pending := <[first := p]> ∅;
                       responses := [] |}
                    (EncodeDone first)
                  = {| world := w2;
                       pending := ∅;
                       responses :=
                         [(first,
                           Json 500 {| errorCode := INTERNAL;
                                       message := "Failed to download clip" |})] |}).
  { unfold step. cbn [pending world responses].
    rewrite lookup_insert_eq. rewrite download_resume_cases.
    cbn [pending_params p]. fold command. rewrite Hfails.
    rewrite delete_insert_eq, delete_empty. reflexivity. }
  assert (Hdata2 : dbData w2 = dbData w).
  { unfold w2. destruct (transcoder_leaves_output ext command); reflexivity. }
  assert (Hcwd2 : cwd w2 = cwd w).
  { unfold w2. destruct (transcoder_leaves_output ext command); reflexivity. }
  assert (Hfiles2 :
    files w2 = if transcoder_leaves_output ext command
               then files w ∪ {[ClipParams.outputPath params]} else files w).
  { unfold w2. destruct (transcoder_leaves_output ext command); reflexivity. }
  assert (Hruns2 : ffmpegRuns w2 = (ffmpegRuns w ++ [command])%list).
  { unfold w2. destruct (transcoder_leaves_output ext command); reflexivity. }
  assert (Hdue2 : render_due w2 jobId clipId ref clip videoPath).
  { destruct (transcoder_leaves_output ext command).
    - apply (render_due_left w w2 _ _ _ _ _ (ClipParams.outputPath params));
        assumption.
    - apply (render_due_same w); assumption. }
  assert (Hparams2 : download_params w2 clipId videoPath clip = params).
  { unfold params, download_params, clipPath_of. rewrite Hcwd2. reflexivity. }
  subst served. rewrite run_cons, Hfirst, run_cons, Hdone, run_cons, run_nil.
  unfold step. cbn [world pending responses].
  rewrite (download_begin_due w2 jobId clipId ref clip videoPath Hdue2).
  rewrite Hparams2. fold p. fold command.
  cbn [world pending responses].
  unfold VideoProcessor.createClip_start, VideoProcessor.run_start.
  cbn [ffmpegRuns dbData files printed started]. fold command.
  rewrite Hruns2, Hdata2, Hfiles2, <- List.app_assoc.
  repeat split.
Qed.

Lemma download_failure_retries_witness :
  let served :=
    run externals_no_transcoder
      [Arrive 1 "job-1" "clip-1"; EncodeDone 1; Arrive 2 "job-1" "clip-1"]
      (serving world_one_clip) in
  responses served
  = [(1%nat, Json 500 {| errorCode := INTERNAL;
                         message := "Failed to download clip" |})]
  /\ List.length (ffmpegRuns (world served)) = 2%nat.
Proof.
  destruct (download_failure_retries externals_no_transcoder world_one_clip
              "job-1" "clip-1" 0 clip_row_1 "/srv/temp/uploads/talk.mp4" 1 2
              "ffmpeg exited with code 1")
    as (Hresponses & _ & Hruns & _).
  - split; [vm_compute; reflexivity|]. split; [reflexivity|].
    exists job_1. split; reflexivity.
  - discriminate.
  - reflexivity.
  - split; [exact Hresponses|]. rewrite Hruns. reflexivity.
Defined.

Lemma find_clip_row jobId clipId w ref clip :
  find_clip jobId clipId w = Some (ref, clip) ->
  row_at w ref = Some clip /\ ClipRow.jobId clip = jobId.
Proof.
  unfold find_clip. intros Hfind. apply List.find_some in Hfind as [Hin _].
  apply getClipsByJobId_In. assumption.
Qed.

Lemma find_clip_after_render jobId clipId w ref clip other outputPath fs line :
  find_clip jobId clipId w = Some (ref, clip) ->
  find_clip jobId clipId
    (set_clipFilePath other outputPath (printed (set_files w fs) line))
  = Some (ref, if decide (ref = other)
               then with_clipFilePath outputPath clip else clip).
Proof.
  intros Hfind. rewrite find_clip_set_clipFilePath.
  assert (Hsame : find_clip jobId clipId (printed (set_files w fs) line)
                  = Some (ref, clip)) by exact Hfind.
  rewrite Hsame. reflexivity.
Qed.

Lemma createClip_command_ends (params : ClipParams.t) :
  cmd_input (createClip_command params) = ClipParams.inputPath params
  /\ last (cmd_options (createClip_command params))
     = Some (Output (ClipParams.outputPath params)).
Proof.
  unfold createClip_command.
  destruct (ClipParams.aspectRatio params) as [[]|];
    destruct (ClipParams.quality params) as [[]|]; split; reflexivity.
Qed.

(** X23. The artifact of a clip is kept under the clip id alone, and clip
    ids repeat from job to job.  Take two jobs that each hold a clip with
    the same id, both renderable, the second not rendered yet.  When the
    clip of the first job is downloaded, then the clip of the second job,
    then the clip of the first job again, the transcoder runs twice, on the
    source of the first and then on the source of the second job, writing
    the same path, and all three requests are sent that path: the third
    request, for the first job, is answered without a render, with the
    file that the command of the second job wrote last. *)
Theorem download_shares_artifact_path :
  forall (ext : Externals) (w : World) (jobA jobB clipId : string)
         (refA refB : nat) (clipA clipB : ClipRow.t)
         (videoA videoB : string) (first second third : nat),
    let path := clipPath_of w clipId in
    let commandA :=
      createClip_command (download_params w clipId videoA clipA) in
    let commandB :=
      createClip_command (download_params w clipId videoB clipB) in
    let served :=
      run ext [Arrive first jobA clipId; EncodeDone first;
               Arrive second jobB clipId; EncodeDone second;
               Arrive third jobA clipId] (serving w) in
    jobA <> jobB ->
    renderable ext w jobA clipId refA clipA videoA ->
    renderable ext w jobB clipId refB clipB videoB ->
    ClipRow.clipFilePath clipB = None ->
    responses served
    = [(first, SendFile path); (second, SendFile path);
       (third, SendFile path)]
    /\ ffmpegRuns (world served) = (ffmpegRuns w ++ [commandA; commandB])%list
    /\ cmd_input commandA = videoA
    /\ cmd_input commandB = videoB
    /\ last (cmd_options commandA) = Some (Output path)
    /\ last (cmd_options commandB) = Some (Output path).
Proof.
  intros ext w jobA jobB clipId refA refB clipA clipB videoA videoB first
         second third path commandA commandB served Hjobs HrenderA HrenderB
         HfreshB.
  pose proof HrenderA as (HfindA & _ & _ & HrunA).
  pose proof HrenderB as (HfindB & _ & (job & HjobB & HsourceB) & HrunB).
  assert (Hrefs : refA <> refB).
  { intros ->. apply find_clip_row in HfindA as [HrowA HjobA].
    apply find_clip_row in HfindB as [HrowB HjobB'].
    rewrite HrowA in HrowB. injection HrowB as ->. congruence. }
  set (paramsA := download_params w clipId videoA clipA).
  set (paramsB := download_params w clipId videoB clipB).
  set (pA := {| pending_clip := refA; pending_params := paramsA |}).
  set (pB := {| pending_clip := refB; pending_params := paramsB |}).
  set (w1 := VideoProcessor.createClip_start paramsA w).
  set (w2 := set_clipFilePath refA path
               (printed (set_files w1 (files w1 ∪ {[path]}))
                  (Log ("Clip created successfully: " ++ path)))).
  set (w3 := VideoProcessor.createClip_start paramsB w2).
  set (w4 := set_clipFilePath refB path
               (printed (set_files w3 (files w3 ∪ {[path]}))
                  (Log ("Clip created successfully: " ++ path)))).
  assert (H1 : step ext (serving w) (Arrive first jobA clipId)
               = {| world := w1; pending := <[first := pA]> ∅;
                    responses := [] |})
    by (apply (step_arrive_renders ext (serving w)); exact HrenderA).
  assert (H2 : step ext {| world := w1; pending := <[first := pA]> ∅;
                           responses := [] |} (EncodeDone first)
               = {| world := w2; pending := ∅;
                    responses := [(first, SendFile path)] |}).
  { rewrite (step_done_sends ext _ first pA)
      by (try apply lookup_insert_eq; exact HrunA).
    cbn [world pending responses pending_clip pending_params pA].
    change (ClipParams.outputPath paramsA) with path.
    rewrite delete_insert_eq, delete_empty. reflexivity. }
  assert (HrenderB2 : renderable ext w2 jobB clipId refB clipB videoB).
  { split; [|split; [|split]].
    - unfold w2. rewrite (find_clip_after_render jobB clipId w1 refB clipB).
      + destruct (decide (refB = refA)) as [Heq|_]; [|reflexivity].
        exfalso. apply Hrefs. symmetry. exact Heq.
      + exact HfindB.
    - unfold needs_render. rewrite HfreshB. reflexivity.
    - exists job. split; [exact HjobB|exact HsourceB].
    - exact HrunB. }
  assert (H3 : step ext {| world := w2; pending := ∅;
                           responses := [(first, SendFile path)] |}
                 (Arrive second jobB clipId)
               = {| world := w3; pending := <[second := pB]> ∅;
                    responses := [(first, SendFile path)] |})
    by (apply (step_arrive_renders ext
                 {| world := w2; pending := ∅;
                    responses := [(first, SendFile path)] |});
        exact HrenderB2).
  assert (H4 : step ext {| world := w3; pending := <[second := pB]> ∅;
                           responses := [(first, SendFile path)] |}
                 (EncodeDone second)
               = {| world := w4; pending := ∅;
                    responses := [(first, SendFile path);
                                  (second, SendFile path)] |}).
  { rewrite (step_done_sends ext _ second pB)
      by (try apply lookup_insert_eq; exact HrunB).
    cbn [world pending responses pending_clip pending_params pB].
    change (ClipParams.outputPath paramsB) with path.
    rewrite delete_insert_eq, delete_empty. reflexivity. }
  assert (HfindA4 : find_clip jobA clipId w4
                    = Some (refA, with_clipFilePath path clipA)).
  { unfold w4.
    rewrite (find_clip_after_render jobA clipId w3 refA
               (with_clipFilePath path clipA)).
    - destruct (decide (refA = refB)) as [Heq|_]; [contradiction|reflexivity].
    - change (find_clip jobA clipId w3) with (find_clip jobA clipId w2).
      unfold w2.
      rewrite (find_clip_after_render jobA clipId w1 refA clipA)
        by exact HfindA.
      destruct (decide (refA = refA)); [reflexivity|contradiction]. }
  assert (H5 : step ext {| world := w4; pending := ∅;
                           responses := [(first, SendFile path);
                                         (second, SendFile path)] |}
                 (Arrive third jobA clipId)
               = {| world := w4; pending := ∅;
                    responses := [(first, SendFile path);
                                  (second, SendFile path);
                                  (third, SendFile path)] |}).
  { rewrite (step_arrive_reuses ext _ third jobA clipId refA
               (with_clipFilePath path clipA) path).
    - reflexivity.
    - exact HfindA4.
    - reflexivity.
    - apply path_join_not_empty.
    - unfold w4. world_simpl. apply elem_of_union_r, elem_of_singleton.
      reflexivity. }
  subst served.
  rewrite run_cons, H1, run_cons, H2, run_cons, H3, run_cons, H4, run_cons,
    H5, run_nil.
  cbn [world responses].
  split; [reflexivity|]. split.
  { unfold w4, w3, w2, w1. world_simpl. rewrite <- List.app_assoc.
    reflexivity. }
  split; [apply createClip_command_ends|].
  split; [apply createClip_command_ends|].
  split; apply createClip_command_ends.
Qed.

Lemma download_shares_artifact_path_witness :
  let served :=
    run externals_fine
      [Arrive 1 "job-1" "clip-1"; EncodeDone 1;
       Arrive 2 "job-3" "clip-1"; EncodeDone 2;
       Arrive 3 "job-1" "clip-1"] (serving world_two_jobs) in
  responses served
  = [(1%nat, SendFile "/srv/temp/clips/clip-1.mp4");
     (2%nat, SendFile "/srv/temp/clips/clip-1.mp4");
     (3%nat, SendFile "/srv/temp/clips/clip-1.mp4")]
  /\ List.map cmd_input (ffmpegRuns (world served))
     = ["/srv/temp/uploads/talk.mp4"; "/srv/temp/uploads/lecture.mp4"].
Proof.
  destruct (download_shares_artifact_path externals_fine world_two_jobs
              "job-1" "job-3" "clip-1" 0 1 clip_row_1 clip_row_3
              "/srv/temp/uploads/talk.mp4" "/srv/temp/uploads/lecture.mp4"
              1 2 3)
    as (Hresponses & Hruns & _).
  - discriminate.
  - split; [vm_compute; reflexivity|]. split; [reflexivity|].
    split; [|reflexivity]. exists job_1. split; reflexivity.
  - split; [vm_compute; reflexivity|]. split; [reflexivity|].
    split; [|reflexivity]. exists job_3. split; reflexivity.
  - reflexivity.
  - split; [exact Hresponses|]. rewrite Hruns. reflexivity.
Defined.

(** * Properties of the client *)

(** ** Polling *)

Lemma job_handler_no_clips ext jobId w :
  Db.getClipsByJobId jobId w = [] ->
  pollStatus (fst (job_handler ext jobId w)) = (fun app => app)
  /\ dbData (snd (job_handler ext jobId w)) = dbData w.
Proof.
  intros Hnone. unfold job_handler.
  destruct (Db.getJob jobId w) as [job|]; [|split; reflexivity].
  destruct (if truthy (JobRow.sourceUrl job) then _ else _);
    [|split; reflexivity].
  cbn [fst snd pollStatus JobStatus.clips]. rewrite Hnone.
  split; reflexivity.
Qed.

Lemma tick_no_clips ext app w :
  Db.getClipsByJobId (App.jobId app) w = [] ->
  fst (tick ext (app, w)) = app
  /\ dbData (snd (tick ext (app, w))) = dbData w.
Proof.
  intros Hnone. unfold tick.
  destruct (negb _ || negb _); [split; reflexivity|].
  destruct (job_handler_no_clips ext (App.jobId app) w Hnone) as [Hpoll Hdb].
  destruct (job_handler ext (App.jobId app) w) as [answer w1].
  cbn [fst snd] in *. rewrite Hpoll. split; [reflexivity|assumption].
Qed.

(** X24. A job without clips keeps the client waiting.  As long as the
    store holds no clip of the job, which is so for good once the
    processing of the job has failed before it stored a row or has
    completed without a clip, no firing of the polling interval changes
    the state of the client: it stays in [isAnalyzing], shows no clip and
    no message, whatever [GET /job/:jobId] answers, and the polling
    changes nothing in the store. *)
Theorem polling_without_clips_goes_on :
  forall (ext : Externals) (n : nat) (app : App.t) (w : World),
    Db.getClipsByJobId (App.jobId app) w = [] ->
    fst (ticks n ext (app, w)) = app
    /\ dbData (snd (ticks n ext (app, w))) = dbData w.
Proof.
  intros ext n. induction n as [|n IH]; intros app w Hnone;
    [split; reflexivity|].
  cbn [ticks].
  destruct (tick_no_clips ext app w Hnone) as [Happ Hdb].
  destruct (tick ext (app, w)) as [app1 w1]. cbn [fst snd] in *. subst app1.
  assert (Hnone1 : Db.getClipsByJobId (App.jobId app) w1 = []).
  { unfold Db.getClipsByJobId in *. rewrite Hdb. exact Hnone. }
  destruct (IH app w1 Hnone1) as [Happ' Hdb'].
  split; [exact Happ'|]. rewrite Hdb'. exact Hdb.
Qed.

Lemma polling_without_clips_goes_on_witness :
  App.isAnalyzing
    (fst (ticks 100 externals_no_transcoder
            (app_waiting "job-1",
             snd (processVideoAsync externals_no_transcoder "job-1"
                    "/srv/temp/uploads/talk.mp4" options_short_300
                    metadata_300 "file" world_one_job))))
  = true.
Proof.
  destruct (polling_without_clips_goes_on externals_no_transcoder 100
              (app_waiting "job-1")
              (snd (processVideoAsync externals_no_transcoder "job-1"
                      "/srv/temp/uploads/talk.mp4" options_short_300
                      metadata_300 "file" world_one_job)))
    as [Happ _].
  - vm_compute. reflexivity.
  - rewrite Happ. reflexivity.
Defined.

Lemma ticks_done ext n app w :
  App.isAnalyzing app = false -> ticks n ext (app, w) = (app, w).
Proof.
  intros Hdone. induction n as [|n IH]; [reflexivity|].
  cbn [ticks]. unfold tick at 1. rewrite Hdone, orb_true_r. exact IH.
Qed.

(** X25. The client shows the clips that were generated.  Take a job
    that is stored and has no clip yet; let every stage of
    [processVideoAsync] succeed and the provider return at least one clip,
    the clips in the order of their start times.  Then the first firing of
    the polling interval after the run ends the waiting: the client holds
    clips that read as the clips of the provider, in their order, and the
    message that tells their number; later firings change nothing. *)
Theorem polling_shows_generated_clips :
  forall (factory : ProcessEnv -> Exc AIProvider.t) (ext : Externals)
         (jobId videoPath : string) (options : ClipOptions)
         (metadata : VideoMetadata.t) (sourcePlatform : string)
         (w : World) (clips : list GeneratedClip) (job : JobRow.t)
         (app : App.t) (n : nat),
    let w' :=
      snd (processVideoAsync_with factory ext jobId videoPath options metadata
             sourcePlatform w) in
    let shown := fst (ticks (S n) ext (app, w')) in
    stages_succeed factory ext jobId videoPath options w clips ->
    disk_fine ext ->
    sorted_by_start clips ->
    clips <> [] ->
    Db.getJob jobId w = Some job ->
    Db.getClipsByJobId jobId w = [] ->
    (forall url, JobRow.sourceUrl job = Some url ->
       exists host, url_hostname ext url = OK host) ->
    App.jobId app = jobId ->
    jobId <> "" ->
    App.isAnalyzing app = true ->
    App.isAnalyzing shown = false
    /\ List.map generated_of (App.clips shown) = clips
    /\ App.success shown
       = "Successfully generated " ++ string_of_nat (List.length clips)
           ++ " clips!".
Proof.
  intros factory ext jobId videoPath options metadata sourcePlatform w clips
         job app n w' shown Hstages Hdisk Hsorted Hsome Hjob Hnone Hhost
         Hid Hset Hwaiting.
  destruct (job_handler_stored_clips factory ext jobId videoPath options
              metadata sourcePlatform w clips job Hstages Hdisk Hsorted Hjob
              Hnone Hhost)
    as (body & Hanswer & _ & _ & _ & Hclips).
  fold w' in Hanswer.
  assert (Hlen : List.length (JobStatus.clips body) = List.length clips).
  { rewrite <- Hclips, List.length_map. reflexivity. }
  assert (Hpos : (0 <? List.length (JobStatus.clips body))%nat = true).
  { apply Nat.ltb_lt. rewrite Hlen. destruct clips; [contradiction|].
    simpl. lia. }
  assert (Htruthy : truthy (Some jobId) = true).
  { destruct jobId; [contradiction|reflexivity]. }
  assert (Htick : tick ext (app, w')
    = ({| App.jobId := jobId;
          App.isAnalyzing := false;
          App.clips := JobStatus.clips body;
          App.success :=
            "Successfully generated "
              ++ string_of_nat (List.length (JobStatus.clips body))
              ++ " clips!" |}, w')).
  { unfold tick. rewrite Hid, Hwaiting, Htruthy. cbn [negb orb].
    rewrite Hanswer. cbn [pollStatus]. rewrite Hpos, Hid. reflexivity. }
  subst shown. cbn [ticks]. rewrite Htick.
  rewrite ticks_done by reflexivity.
  cbn [fst App.isAnalyzing App.clips App.success].
  rewrite Hlen. repeat split. exact Hclips.
Qed.

Lemma polling_shows_generated_clips_witness :
  let shown :=
    fst (ticks 3 externals_fine
           (app_waiting "job-1",
            snd (processVideoAsync externals_fine "job-1"
                   "/srv/temp/uploads/talk.mp4" options_short_300
                   metadata_300 "file" world_one_job))) in
  App.isAnalyzing shown = false
  /\ List.map generated_of (App.clips shown)
     = suggestClips rand_half (transcribe_mock 0 300) options_short_300.
Proof.
  destruct (polling_shows_generated_clips createAIProvider externals_fine
              "job-1" "/srv/temp/uploads/talk.mp4" options_short_300
              metadata_300 "file" world_one_job
              (suggestClips rand_half (transcribe_mock 0 300) options_short_300)
              job_1 (app_waiting "job-1") 2)
    as (Hdone & Hclips & _).
  - split; [reflexivity|].
    eexists _, _. split; [reflexivity|]. split; reflexivity.
  - intros d. reflexivity.
  - apply gap_separated_sorted;
      apply (suggestClips_gap_separated rand_half (transcribe_mock 0 300)
               options_short_300); reflexivity.
  - vm_compute. discriminate.
  - reflexivity.
  - reflexivity.
  - intros url Hurl. discriminate Hurl.
  - reflexivity.
  - discriminate.
  - reflexivity.
  - split; [exact Hdone|exact Hclips].
Defined.

(** ** A write failure while the clips are stored *)

Lemma job_handler_appended ext jobId w w1 job rows :
  Db.getJob jobId w = Some job ->
  Db.getClipsByJobId jobId w = [] ->
  (forall url, JobRow.sourceUrl job = Some url ->
     exists host, url_hostname ext url = OK host) ->
  JsonDbShape.jobs (dbData w1) = JsonDbShape.jobs (dbData w) ->
  JsonDbShape.clips (dbData w1) = (JsonDbShape.clips (dbData w) ++ rows)%list ->
  Forall (fun row => ClipRow.jobId row = jobId) rows ->
  StronglySorted (fun a b => ClipRow.startSec a <= ClipRow.startSec b) rows ->
  exists body,
    job_handler ext jobId w1 = (JobJson body, w1)
    /\ JobStatus.status body = JobRow.status job
    /\ JobStatus.clips body = List.map job_clip rows.
Proof.
  intros Hjob Hnone Hhost Hjobs Hclips Hrows Hsorted.
  pose proof (getClipsByJobId_appended jobId w w1 rows Hnone Hclips Hrows
                Hsorted) as Hfound.
  assert (Hjob1 : Db.getJob jobId w1 = Some job).
  { unfold Db.getJob in *. rewrite Hjobs. assumption. }
  unfold job_handler. rewrite Hjob1.
  assert (Hplatform : exists platform,
    (if truthy (JobRow.sourceUrl job)
     then url_hostname ext (default "" (JobRow.sourceUrl job))
     else OK "file") = OK platform).
  { destruct (JobRow.sourceUrl job) as [url|] eqn:Hurl; simpl.
    - destruct url as [|c url']; [eexists; reflexivity|].
      destruct (Hhost _ eq_refl) as (host & ->). eexists. reflexivity.
    - eexists. reflexivity. }
  destruct Hplatform as (platform & ->).
  eexists. split; [reflexivity|].
  cbn [JobStatus.status JobStatus.clips]. split; [reflexivity|].
  rewrite <- Hfound, List.map_map. reflexivity.
Qed.

Lemma processVideo_body_write_failure factory ext jobId videoPath options w
    clip rest :
  stages_succeed factory ext jobId videoPath options w (clip :: rest) ->
  (forall d, writeFileSync_error ext d <> None) ->
  exists failure w1,
    processVideo_body factory ext jobId videoPath options w
    = (Throw failure, w1)
    /\ JsonDbShape.clips (dbData w1)
       = (JsonDbShape.clips (dbData w) ++ [stored_row jobId clip])%list
    /\ JsonDbShape.jobs (dbData w1) = JsonDbShape.jobs (dbData w)
    /\ (if writeFileSync_opens ext (dbData w1)
        then dbFileTorn w1 = true
        else dbFileTorn w1 = dbFileTorn w /\ dbFile w1 = dbFile w).
Proof.
  intros (Hrun & provider & transcript & Hfactory & Htranscribe & Hsuggest)
         Hdisk.
  unfold processVideo_body, VideoProcessor.extractAudio,
    VideoProcessor.run_finish, console_log, effect, reads, lift.
  unfold bind at 1 2 3 4 5.
  cbn [fst snd cwd env files dbData dbFile console printed set_files started
       VideoProcessor.run_start].
  fold (audioPath_of w jobId). rewrite Hrun.
  unfold bind at 1 2 3 4 5.
  cbn [fst snd cwd env files dbData dbFile console printed set_files started
       VideoProcessor.run_start].
  rewrite Hfactory, Htranscribe, Hsuggest.
  unfold bind at 1. cbn [for_of]. unfold bind at 1.
  unfold Db.createClip at 1. unfold bind at 1, effect at 1, Db.save at 1.
  match goal with
  | |- context [writeFileSync_error ext ?d] =>
      destruct (writeFileSync_error ext d) as [failure|] eqn:Hwrite;
      [|apply Hdisk in Hwrite; contradiction]
  end.
  match goal with
  | |- context [writeFileSync_opens ext ?d] =>
      destruct (writeFileSync_opens ext d) eqn:Hopens
  end;
    (eexists _, _; split; [reflexivity|]);
    cbn [dbData dbFile dbFileTorn set_dbData tear_dbFile printed set_files
         started JsonDbShape.clips JsonDbShape.jobs];
    cbn [dbData dbFile dbFileTorn set_dbData tear_dbFile printed set_files
         started JsonDbShape.clips JsonDbShape.jobs] in Hopens;
    rewrite Hopens; repeat split.
Qed.

(** X26. A run that fails while it stores its clips leaves its first clip
    behind, and the client takes it for the result.  When every stage up
    to the storing succeeds, the provider returns at least one clip, and
    the database file cannot be written, [processVideoAsync] fails at the
    first row: the error is printed, and the file is torn if the failing
    write had opened it and as before if not, yet the row of the first
    clip is in memory.  For a stored job without earlier
    clips, the next firing of the polling interval ends the waiting with
    that one clip and a message of success. *)
Theorem processVideo_write_failure_partial :
  forall (factory : ProcessEnv -> Exc AIProvider.t) (ext : Externals)
         (jobId videoPath : string) (options : ClipOptions)
         (metadata : VideoMetadata.t) (sourcePlatform : string)
         (w : World) (clip : GeneratedClip) (rest : list GeneratedClip)
         (job : JobRow.t) (app : App.t),
    let w' :=
      snd (processVideoAsync_with factory ext jobId videoPath options metadata
             sourcePlatform w) in
    let shown := fst (tick ext (app, w')) in
    stages_succeed factory ext jobId videoPath options w (clip :: rest) ->
    (forall d, writeFileSync_error ext d <> None) ->
    Db.getJob jobId w = Some job ->
    Db.getClipsByJobId jobId w = [] ->
    (forall url, JobRow.sourceUrl job = Some url ->
       exists host, url_hostname ext url = OK host) ->
    App.jobId app = jobId ->
    jobId <> "" ->
    App.isAnalyzing app = true ->
    (exists failure,
       last (console w')
       = Some (Error ("Video processing failed for job " ++ jobId ++ ": "
                        ++ failure)))
    /\ (if writeFileSync_opens ext (dbData w')
        then dbFileTorn w' = true
        else dbFileTorn w' = dbFileTorn w /\ dbFile w' = dbFile w)
    /\ List.map snd (Db.getClipsByJobId jobId w') = [stored_row jobId clip]
    /\ App.isAnalyzing shown = false
    /\ List.map generated_of (App.clips shown) = [clip]
    /\ App.success shown = "Successfully generated 1 clips!".
Proof.
  intros factory ext jobId videoPath options metadata sourcePlatform w clip
         rest job app w' shown Hstages Hdisk Hjob Hnone Hhost Hid Hset
         Hwaiting.
  destruct (processVideo_body_write_failure factory ext jobId videoPath
              options w clip rest Hstages Hdisk)
    as (failure & w1 & Hbody & Hclips & Hjobs & Hfile).
  assert (Hw' : w' = printed w1
                       (Error ("Video processing failed for job " ++ jobId
                                 ++ ": " ++ failure))).
  { subst w'. unfold processVideoAsync_with, try_catch. rewrite Hbody.
    reflexivity. }
  assert (Hrows : Forall (fun row => ClipRow.jobId row = jobId)
                    [stored_row jobId clip]).
  { constructor; [reflexivity|constructor]. }
  assert (Hsorted : StronglySorted
                      (fun a b => ClipRow.startSec a <= ClipRow.startSec b)
                      [stored_row jobId clip]).
  { constructor; constructor. }
  assert (Hclips' : JsonDbShape.clips (dbData w')
                    = (JsonDbShape.clips (dbData w)
                       ++ [stored_row jobId clip])%list).
  { rewrite Hw'. exact Hclips. }
  assert (Hjobs' : JsonDbShape.jobs (dbData w') = JsonDbShape.jobs (dbData w)).
  { rewrite Hw'. exact Hjobs. }
  destruct (job_handler_appended ext jobId w w' job [stored_row jobId clip]
              Hjob Hnone Hhost Hjobs' Hclips' Hrows Hsorted)
    as (body & Hanswer & _ & Hshown).
  split; [|split; [|split]].
  - exists failure. rewrite Hw'. apply last_snoc.
  - rewrite Hw'. exact Hfile.
  - apply (getClipsByJobId_appended jobId w w'); assumption.
  - assert (Htruthy : truthy (Some jobId) = true).
    { destruct jobId; [contradiction|reflexivity]. }
    subst shown. unfold tick. rewrite Hid, Hwaiting, Htruthy.
    cbn [negb orb]. rewrite Hanswer. cbn [pollStatus fst]. rewrite Hshown.
    cbn [List.length List.map Nat.ltb Nat.leb App.isAnalyzing App.clips
         App.success].
    rewrite generated_of_stored_row. repeat split.
Qed.

Lemma processVideo_write_failure_partial_witness :
  let w' :=
    snd (processVideoAsync externals_disk_full "job-1"
           "/srv/temp/uploads/talk.mp4" options_short_300 metadata_300 "file"
           world_one_job) in
  List.map snd (Db.getClipsByJobId "job-1" w')
  = [stored_row "job-1"
       (hd (make_clip rand_half options_short_300
              (loop_init options_short_300) [])
           (suggestClips rand_half (transcribe_mock 0 300)
              options_short_300))]
  /\ App.success (fst (tick externals_disk_full (app_waiting "job-1", w')))
     = "Successfully generated 1 clips!".
Proof.
  destruct (processVideo_write_failure_partial createAIProvider
              externals_disk_full "job-1" "/srv/temp/uploads/talk.mp4"
              options_short_300 metadata_300 "file" world_one_job
              (hd (make_clip rand_half options_short_300
                     (loop_init options_short_300) [])
                  (suggestClips rand_half (transcribe_mock 0 300)
                     options_short_300))
              (tl (suggestClips rand_half (transcribe_mock 0 300)
                     options_short_300))
              job_1 (app_waiting "job-1"))
    as (_ & _ & Hrow & _ & _ & Hsuccess).
  - split; [reflexivity|].
    eexists _, _. split; [reflexivity|]. split; [reflexivity|].
    vm_compute. reflexivity.
  - intros d. discriminate.
  - reflexivity.
  - reflexivity.
  - intros url Hurl. discriminate Hurl.
  - reflexivity.
  - discriminate.
  - reflexivity.
  - split; [exact Hrow|exact Hsuccess].
Defined.

(** ** The window check of the options panel *)

Lemma analyze_window_refused ext source options w w1 videoPath sourcePlatform
    metadata :
  AnalyzeRequestSchema_accepts source options = true ->
  analyze_resolve ext source (uuidv4 ext) w
  = (OK (inr (videoPath, sourcePlatform)), w1) ->
  ffprobe ext videoPath = OK metadata ->
  Qle_bool (Options.timeEndSec options) (Options.timeStartSec options)
  || Qltb (VideoMetadata.durationSec metadata) (Options.timeEndSec options)
  = true ->
  fst (analyze ext source options w)
  = Json 400 {| errorCode := INVALID_SOURCE;
                message := "Invalid time range specified" |}.
Proof.
  intros Hschema Hresolve Hprobe Hwindow.
  unfold analyze, analyze_body. rewrite Hschema.
  unfold bind at 1. rewrite Hresolve.
  unfold bind at 1, lift at 1. rewrite Hprobe, Hwindow. reflexivity.
Qed.

(** X27. The window check of the options panel and the one of
    [POST /analyze] agree when the panel knows the duration that ffprobe
    reports: for a request that passes the schema, whose source resolves
    and is read by ffprobe with a duration other than zero, and with a
    database file that can be written, the panel calls the window valid
    exactly when the route accepts the request.  A panel that does not
    know the duration, as for a video behind a URL, calls every window
    valid. *)
Theorem timeRange_validation_agrees :
  forall (ext : Externals) (source : Source.t) (options : ClipOptions)
         (w w1 : World) (videoPath sourcePlatform : string)
         (metadata : VideoMetadata.t),
    AnalyzeRequestSchema_accepts source options = true ->
    analyze_resolve ext source (uuidv4 ext) w
    = (OK (inr (videoPath, sourcePlatform)), w1) ->
    ffprobe ext videoPath = OK metadata ->
    disk_fine ext ->
    ~ VideoMetadata.durationSec metadata == 0 ->
    (getTimeRangeValidation_valid (Some (VideoMetadata.durationSec metadata))
       options = true
     <-> exists body, fst (analyze ext source options w) = JsonAnalyze body)
    /\ getTimeRangeValidation_valid None options = true
    /\ getTimeRangeValidation_valid (Some 0) options = true.
Proof.
  intros ext source options w w1 videoPath sourcePlatform metadata Hschema
         Hresolve Hprobe Hdisk Hnonzero.
  split; [|split; reflexivity].
  unfold getTimeRangeValidation_valid.
  destruct (Qeq_bool (VideoMetadata.durationSec metadata) 0) eqn:Hzero.
  { apply Qeq_bool_iff in Hzero. contradiction. }
  destruct (Qle_bool (Options.timeEndSec options)
              (Options.timeStartSec options)
            || Qltb (VideoMetadata.durationSec metadata)
                 (Options.timeEndSec options)) eqn:Hwindow.
  - pose proof (analyze_window_refused ext source options w w1 videoPath
                  sourcePlatform metadata Hschema Hresolve Hprobe Hwindow)
      as Hrefused.
    split.
    + intros Hvalid. exfalso.
      destruct (Qle_bool (Options.timeEndSec options)
                  (Options.timeStartSec options)); [discriminate|].
      destruct (Qltb (VideoMetadata.durationSec metadata)
                  (Options.timeEndSec options)); discriminate.
    + intros (body & Hbody). rewrite Hrefused in Hbody. discriminate.
  - pose proof Hwindow as Hparts. apply orb_false_iff in Hparts as [-> ->].
    split; [intros _|reflexivity].
    destruct (analyze_window_bad options metadata Hwindow) as [Hlt Hle].
    destruct (analyze_body_valid ext source options w w1 videoPath
                sourcePlatform metadata) as (row & _ & Hbody).
    { repeat split; assumption. }
    rewrite Hdisk in Hbody. unfold analyze. rewrite Hschema, Hbody.
    eexists. reflexivity.
Qed.

Lemma timeRange_validation_agrees_witness :
  getTimeRangeValidation_valid (Some 300) options_degenerate = false
  /\ ~ exists body,
         fst (analyze externals_fine source_talk options_degenerate
                world_one_job) = JsonAnalyze body.
Proof.
  destruct (timeRange_validation_agrees externals_fine source_talk
              options_degenerate world_one_job world_one_job
              "/srv/temp/uploads/talk.mp4" "file" metadata_300)
    as ((_ & Hback) & _).
  - reflexivity.
  - reflexivity.
  - reflexivity.
  - intros d. reflexivity.
  - vm_compute. discriminate.
  - split; [reflexivity|].
    intros Haccepted. apply Hback in Haccepted. discriminate Haccepted.
Defined.

(** ** The score badge *)

Lemma getScore_cases (score : Q) :
  (8 # 10 <= score
   /\ getScoreLabel score = "High" /\ getScoreColor score = "text-green-400")
  \/ (6 # 10 <= score /\ score < 8 # 10
      /\ getScoreLabel score = "Medium"
      /\ getScoreColor score = "text-yellow-400")
  \/ (score < 6 # 10
      /\ getScoreLabel score = "Low" /\ getScoreColor score = "text-red-400").
Proof.
  unfold getScoreLabel, getScoreColor.
  destruct (Qle_bool (8 # 10) score) eqn:Hhigh.
  - left. apply Qle_bool_iff in Hhigh. repeat split. assumption.
  - assert (Hlt : score < 8 # 10).
    { apply Qnot_le_lt. intros H. apply Qle_bool_iff in H. congruence. }
    destruct (Qle_bool (6 # 10) score) eqn:Hmedium.
    + right. left. apply Qle_bool_iff in Hmedium. repeat split; assumption.
    + right. right. split; [|split; reflexivity].
      apply Qnot_le_lt. intros H. apply Qle_bool_iff in H. congruence.
Qed.

(** X28. The badge of the results grid never disagrees with itself: a
    score is labelled [High] exactly when it is shown in green, [Medium]
    in yellow and [Low] in red.  For a clip of [suggestClips], with draws
    in [0, 1), the clarity and the hook are never labelled [Low]; the
    engagement, which is the score on the badge, is labelled [Low] exactly
    when it is below 0.6, and it can be. *)
Theorem score_badge_consistent :
  (forall score : Q,
     (getScoreLabel score = "High" <-> getScoreColor score = "text-green-400")
     /\ (getScoreLabel score = "Medium"
         <-> getScoreColor score = "text-yellow-400")
     /\ (getScoreLabel score = "Low" <-> getScoreColor score = "text-red-400"))
  /\ (forall (rand : nat -> Q) (transcript : Transcript)
             (options : ClipOptions) (c : GeneratedClip),
        (forall k, 0 <= rand k /\ rand k < 1) ->
        In c (suggestClips rand transcript options) ->
        getScoreLabel (Scores.clarity (Clip.scores c)) <> "Low"
        /\ getScoreLabel (Scores.hook (Clip.scores c)) <> "Low"
        /\ (getScoreLabel (Scores.engagement (Clip.scores c)) = "Low"
            <-> Scores.engagement (Clip.scores c) < 6 # 10))
  /\ (exists c,
        In c (suggestClips rand_zero transcript_every_5 options_short_300)
        /\ getScoreLabel (Scores.engagement (Clip.scores c)) = "Low").
Proof.
  split; [|split].
  - intros score.
    destruct (getScore_cases score)
      as [(_ & -> & ->) | [(_ & _ & -> & ->) | (_ & -> & ->)]];
      repeat split; intros H; try reflexivity; discriminate H.
  - intros rand transcript options c Hrand Hin.
    destruct (emitted_scores_in_ranges rand transcript options c Hrand Hin)
      as (_ & [Hclarity _] & [Hhook _]).
    split; [|split].
    + destruct (getScore_cases (Scores.clarity (Clip.scores c)))
        as [(_ & -> & _) | [(_ & _ & -> & _) | (Hlow & _)]];
        [discriminate|discriminate|lra].
    + destruct (getScore_cases (Scores.hook (Clip.scores c)))
        as [(_ & -> & _) | [(_ & _ & -> & _) | (Hlow & _)]];
        [discriminate|discriminate|lra].
    + destruct (getScore_cases (Scores.engagement (Clip.scores c)))
        as [(Hhigh & -> & _) | [(Hmedium & _ & -> & _) | (Hlow & -> & _)]].
      * split; [discriminate|]. intros H. lra.
      * split; [discriminate|]. intros H. lra.
      * split; [intros _; assumption|reflexivity].
  - eexists. split.
    + vm_compute. left. reflexivity.
    + vm_compute. reflexivity.
Qed.

Lemma score_badge_consistent_witness :
  Forall (fun c => getScoreLabel (Scores.clarity (Clip.scores c)) <> "Low")
    (suggestClips rand_half transcript_every_5 options_short_300).
Proof.
  apply List.Forall_forall. intros c Hin.
  destruct score_badge_consistent as (_ & Hgenerated & _).
  apply (Hgenerated rand_half transcript_every_5 options_short_300 c).
  - intros k. split; [vm_compute; discriminate|reflexivity].
  - exact Hin.
Defined.

(** * Properties of the transcoder commands *)

(** X29. The command of [createClip] reads the input path, seeks to the
    start of the clip and lasts the length of its window, which are its
    only options that bound the window and come first, and names the
    output path last.  It encodes with libx264 and aac at the bit rates
    of the quality, which is [medium] when none is given, as in the
    download handler; it scales and crops to 1080x1920, 1920x1080 or
    1080x1080 for the three fixed ratios, and neither filters nor sets a
    size for [auto] or a missing ratio. *)
Theorem createClip_command_shape :
  forall params : ClipParams.t,
    let command := createClip_command params in
    let options := cmd_options command in
    cmd_input command = ClipParams.inputPath params
    /\ List.filter is_window_option options
       = [SeekInput (ClipParams.startSec params);
          Duration (ClipParams.endSec params - ClipParams.startSec params)]
    /\ firstn 2 options = List.filter is_window_option options
    /\ last options = Some (Output (ClipParams.outputPath params))
    /\ In (VideoCodec "libx264") options
    /\ In (AudioCodec "aac") options
    /\ (ClipParams.quality params = None ->
        In (VideoBitrate "2.5M") options /\ In (AudioBitrate "128k") options)
    /\ (default ar_auto (ClipParams.aspectRatio params) = ar_auto ->
        forall o, In o options ->
          match o with
          | VideoFilters _ | Size _ => False
          | _ => True
          end)
    /\ (ClipParams.aspectRatio params = Some ar_9_16 ->
        In (Size "1080x1920") options)
    /\ (ClipParams.aspectRatio params = Some ar_16_9 ->
        In (Size "1920x1080") options)
    /\ (ClipParams.aspectRatio params = Some ar_1_1 ->
        In (Size "1080x1080") options).
Proof.
  intros params command options. subst options command.
  unfold createClip_command.
  destruct (ClipParams.aspectRatio params) as [[]|];
    destruct (ClipParams.quality params) as [[]|];
    cbn [default applyAspectRatio applyQualitySettings quality_options
         fold_left with_option ffmpeg cmd_options cmd_input app
         List.filter is_window_option firstn];
    (split; [reflexivity|]); (split; [reflexivity|]);
    (split; [reflexivity|]); (split; [reflexivity|]);
    (split; [simpl; tauto|]);
    (split; [simpl; tauto|]);
    (split; [intros H; try discriminate H; simpl; tauto|]);
    (split; [intros H o Ho; try discriminate H; simpl in Ho;
             repeat (destruct Ho as [<-|Ho]; [exact I|]); destruct Ho|]);
    (split; [intros H; try discriminate H; simpl; tauto|]);
    (split; intros H; try discriminate H; simpl; tauto).
Qed.

Lemma createClip_command_shape_witness :
  In (VideoBitrate "2.5M")
    (cmd_options
       (createClip_command
          (download_params world_one_clip "clip-1"
             "/srv/temp/uploads/talk.mp4" clip_row_1)))
  /\ In (Size "1080x1920")
       (cmd_options
          (createClip_command
             (download_params world_one_clip "clip-1"
                "/srv/temp/uploads/talk.mp4" clip_row_1))).
Proof.
  destruct (createClip_command_shape
              (download_params world_one_clip "clip-1"
                 "/srv/temp/uploads/talk.mp4" clip_row_1))
    as (_ & _ & _ & _ & _ & _ & Hquality & _ & Hvertical & _).
  split.
  - apply Hquality. reflexivity.
  - apply Hvertical. reflexivity.
Defined.
